(** * curiam: label parsing, offset normalisation and span aggregation

    A shallow embedding of [curiam/inception/tsv_processing.py] and of
    [curiam/document.py], and the properties of the three algorithms they
    implement: the compound label parser, the per-sentence renumbering of
    annotation ids, and the reconstruction of spans from per-token
    references.

    Conventions of the embedding.
    - A Python [str] is a [string] of 8-bit characters (ASCII text).
    - A Python [int] is a [Z].
    - A call that may raise ([int], [str.index], list indexing, tuple
      unpacking) returns an [option]; [None] stands for the exception, which
      nothing in the two files catches.
    - A [dict], whose iteration order is the order of first insertion, is
      an association list that keeps that order. *)

From Stdlib Require Import String Ascii List ListSet ZArith Lia Bool Sorted.
From Stdlib Require Import DecimalString DecimalZ DecimalN DecimalPos.
Import ListNotations.

Open Scope string_scope.
Open Scope list_scope.
Open Scope Z_scope.

Notation "x <- e ;; k" :=
  (match e with Some x => k | None => None end)
  (at level 61, e at next level, right associativity, only parsing).

(** ** Python built-ins used by the two files *)

Module Py.

(** [needle in hay] on strings. *)
Fixpoint contains (needle hay : string) : bool :=
  String.prefix needle hay ||
  match hay with
  | EmptyString => false
  | String _ rest => contains needle rest
  end.

(** [s.index(c)] for a one-character [c]: the position of the first
    occurrence, [ValueError] when there is none. *)
Fixpoint index (c : ascii) (s : string) : option nat :=
  match s with
  | EmptyString => None
  | String a rest =>
      if Ascii.eqb a c then Some O
      else n <- index c rest ;; Some (S n)
  end.

(** [s.split(c)] for a one-character separator [c]. *)
Fixpoint split (c : ascii) (s : string) : list string :=
  match s with
  | EmptyString => [EmptyString]
  | String a rest =>
      if Ascii.eqb a c then EmptyString :: split c rest
      else match split c rest with
           | piece :: pieces => String a piece :: pieces
           | [] => [String a EmptyString]
           end
  end.

(** [s[:n]] for [n >= 0]. *)
Fixpoint take (n : nat) (s : string) : string :=
  match n, s with
  | S m, String a rest => String a (take m rest)
  | _, _ => EmptyString
  end.

(** [s[n:]] for [n >= 0]. *)
Fixpoint drop (n : nat) (s : string) : string :=
  match n, s with
  | S m, String _ rest => drop m rest
  | _, _ => s
  end.

(** [s[:-1]]. *)
Fixpoint drop_last (s : string) : string :=
  match s with
  | EmptyString => EmptyString
  | String _ EmptyString => EmptyString
  | String a rest => String a (drop_last rest)
  end.

(** [s[n:-1]] for [n >= 0]. *)
Definition slice_to_last (n : nat) (s : string) : string :=
  drop_last (drop n s).

(** [sep.join(pieces)]. *)
Fixpoint join (sep : string) (pieces : list string) : string :=
  match pieces with
  | [] => EmptyString
  | [p] => p
  | p :: rest => (p ++ sep ++ join sep rest)%string
  end.

(** [l[i]] with Python's negative indices; [IndexError] out of range. *)
Definition item {A : Type} (l : list A) (i : Z) : option A :=
  let n := Z.of_nat (List.length l) in
  if (0 <=? i) && (i <? n) then nth_error l (Z.to_nat i)
  else if (- n <=? i) && (i <? 0) then nth_error l (Z.to_nat (n + i))
  else None.

(** *** [int(s)] in base ten

    Surrounding white space (tab, line feed, vertical tab, form feed,
    carriage return and space) is dropped, one sign is allowed, and the
    digits may be grouped by single underscores. *)

Definition is_space (a : ascii) : bool :=
  let n := nat_of_ascii a in
  ((9 <=? n) && (n <=? 13) || (n =? 32))%nat.

Definition is_digit (a : ascii) : bool :=
  let n := nat_of_ascii a in
  ((48 <=? n) && (n <=? 57))%nat.

Definition digit_value (a : ascii) : Z := Z.of_nat (nat_of_ascii a) - 48.

Fixpoint lstrip (s : string) : string :=
  match s with
  | EmptyString => EmptyString
  | String a rest => if is_space a then lstrip rest else s
  end.

Fixpoint rstrip (s : string) : string :=
  match s with
  | EmptyString => EmptyString
  | String a rest =>
      match rstrip rest with
      | EmptyString => if is_space a then EmptyString else String a EmptyString
      | kept => String a kept
      end
  end.

Definition strip (s : string) : string := rstrip (lstrip s).

(** The digits after the sign: [after_digit] tells whether the previous
    character was a digit, which is where an underscore or the end of the
    text is allowed. *)
Fixpoint digits (acc : Z) (after_digit : bool) (s : string) : option Z :=
  match s with
  | EmptyString => if after_digit then Some acc else None
  | String a rest =>
      if Ascii.eqb a "_" then
        if after_digit then digits acc false rest else None
      else if is_digit a then digits (10 * acc + digit_value a) true rest
      else None
  end.

Definition int (s : string) : option Z :=
  match strip s with
  | String "-" rest => n <- digits 0 false rest ;; Some (- n)
  | String "+" rest => digits 0 false rest
  | text => digits 0 false text
  end.

(** [str(n)]. *)
Definition str (n : Z) : string := NilEmpty.string_of_int (Z.to_int n).

End Py.

(** ** Dictionaries

    A Python [dict] iterates over its keys in the order of their first
    insertion, and an assignment to a key that is present keeps the key's
    place. *)

Module Dict.

Section WithKey.
Context {K V : Type}.
Variable eqb : K -> K -> bool.

Definition t : Type := list (K * V).

(** [d[k]], [KeyError] when [k] is absent; also [k in d.keys()]. *)
Fixpoint get (d : t) (k : K) : option V :=
  match d with
  | [] => None
  | (k', v) :: rest => if eqb k' k then Some v else get rest k
  end.

(** [d[k] = v]. *)
Fixpoint set (d : t) (k : K) (v : V) : t :=
  match d with
  | [] => [(k, v)]
  | (k', v') :: rest =>
      if eqb k' k then (k', v) :: rest else (k', v') :: set rest k v
  end.

(** [d.values()]. *)
Definition values (d : t) : list V := map snd d.
End WithKey.

Arguments t : clear implicits.

End Dict.

(** ** [curiam/inception/tsv_processing.py] *)

Module Tsv.

(** The body of the loop of [process_compound_label], with the two lists it
    appends to. *)
Fixpoint compound_loop (sublabels : list string)
    (categories : list string) (annotation_indexes : list Z)
    : option (list string * list Z) :=
  match sublabels with
  | [] => Some (categories, annotation_indexes)
  | sublabel :: rest =>
      if negb (Py.contains "[" sublabel) then
        compound_loop rest (categories ++ [sublabel]) (annotation_indexes ++ [-1])
      else
        bracket_index <- Py.index "[" sublabel ;;
        let categories := categories ++ [Py.take bracket_index sublabel] in
        n <- Py.int (Py.slice_to_last (S bracket_index) sublabel) ;;
        compound_loop rest categories (annotation_indexes ++ [n])
  end.

Definition process_compound_label (label : string)
    : option (list string * list Z) :=
  compound_loop (Py.split "|" label) [] [].

(** [process_sentence].  The inner loop builds the new label, one
    [category:index|] piece per sub-label. *)
Definition TAB : string := String (ascii_of_nat 9) EmptyString.

Fixpoint relabel_loop (pairs : list (string * Z)) (index_offset : Z)
    (new_label : string) : string :=
  match pairs with
  | [] => new_label
  | (category, index) :: rest =>
      if index =? -1 then
        relabel_loop rest index_offset
          (new_label ++ category ++ ":" ++ Py.str index ++ "|")%string
      else
        relabel_loop rest index_offset
          (new_label ++ category ++ ":" ++ Py.str (index - index_offset) ++ "|")%string
  end.

(** The three cells of a row that the loop reads: the sentence number (the
    text of cell 0 before its first hyphen), the token (cell 2) and the
    label (cell 4). *)
Definition row_fields (row : string) : option (string * string * string) :=
  let cells := Py.split (ascii_of_nat 9) row in
  cell0 <- Py.item cells 0 ;;
  hyphen <- Py.index "-" cell0 ;;
  let sent_num := Py.take hyphen cell0 in
  token <- Py.item cells 2 ;;
  label <- Py.item cells 4 ;;
  Some (sent_num, token, label).

Definition UNSET : Z := -1000000.

Fixpoint sentence_loop (tsv_rows : list string) (simplified_rows : list string)
    (index_offset : Z) : option (list string) :=
  match tsv_rows with
  | [] => Some simplified_rows
  | row :: rest =>
      fields <- row_fields row ;;
      let '(sent_num, token, label) := fields in
      if String.eqb label "_" then
        sentence_loop rest
          (simplified_rows ++ [(sent_num ++ TAB ++ token ++ TAB ++ "_")%string])
          index_offset
      else
        parsed <- process_compound_label label ;;
        let '(categories, annotation_indexes) := parsed in
        index_offset <-
          (if index_offset =? UNSET then
             first <- Py.item annotation_indexes 0 ;; Some (first - 1)
           else Some index_offset) ;;
        let new_label :=
          relabel_loop (combine categories annotation_indexes) index_offset "" in
        sentence_loop rest
          (simplified_rows ++
             [(sent_num ++ TAB ++ token ++ TAB ++ Py.drop_last new_label)%string])
          index_offset
  end.

Definition process_sentence (tsv_rows : list string) : option (list string) :=
  sentence_loop tsv_rows [] UNSET.

(** [get_annotations].  A token is the list of the cells of a simplified
    row, an entry of the result is a list [[category, start, end]]. *)
Definition entry : Type := string * Z * Z.

Definition set_end (e : entry) (i : Z) : entry :=
  let '(category, start, _) := e in (category, start, i).

(** The loop over the sub-labels of one token, on the dictionary
    [indexed_annotations]; the test [annotation not in keys] and the access
    [indexed_annotations[annotation]] of its other branch are one lookup. *)
Fixpoint token_loop (token_annotations : list string) (i : Z)
    (indexed_annotations : Dict.t string entry) : option (Dict.t string entry) :=
  match token_annotations with
  | [] => Some indexed_annotations
  | annotation :: rest =>
      match Py.split ":" annotation with
      | [category; index] =>
          _ <- Py.int index ;;
          match Dict.get String.eqb indexed_annotations annotation with
          | None =>
              token_loop rest i
                (Dict.set String.eqb indexed_annotations annotation (category, i, i))
          | Some e =>
              token_loop rest i
                (Dict.set String.eqb indexed_annotations annotation (set_end e i))
          end
      | _ => None
      end
  end.

(** The loop over the tokens.  Its result is the list [annotations], the
    dictionary, and what was printed (the token that stopped the loop). *)
Fixpoint scan (sentence : list (list string)) (annotation_column : Z) (i : Z)
    (annotations : list entry) (indexed_annotations : Dict.t string entry)
    : option (list entry * Dict.t string entry * list (list string)) :=
  match sentence with
  | [] => Some (annotations, indexed_annotations, [])
  | token :: rest =>
      label <- Py.item token annotation_column ;;
      if Py.contains "*" label then
        Some (annotations, indexed_annotations, [token])
      else if String.eqb label "_" then
        scan rest annotation_column (i + 1) annotations indexed_annotations
      else if Py.contains "-1" label then
        colon <- Py.index ":" label ;;
        scan rest annotation_column (i + 1)
          (annotations ++ [(Py.take colon label, i, i)]) indexed_annotations
      else
        indexed_annotations <-
          token_loop (Py.split "|" label) i indexed_annotations ;;
        scan rest annotation_column (i + 1) annotations indexed_annotations
  end.

(** The returned list together with the printed tokens. *)
Definition get_annotations_run (sentence : list (list string))
    (annotation_column : Z) : option (list entry * list (list string)) :=
  final <- scan sentence annotation_column 0 [] [] ;;
  let '(annotations, indexed_annotations, printed) := final in
  Some (annotations ++ Dict.values indexed_annotations, printed).

Definition get_annotations (sentence : list (list string))
    (annotation_column : Z) : option (list entry) :=
  option_map fst (get_annotations_run sentence annotation_column).

End Tsv.

(** ** [curiam/document.py] *)

Module Doc.

Record TokenAnnotation := mkTokenAnnotation {
  ta_category : string;
  ta_id : Z;
  ta_annotator : string
}.

Record Annotation := mkAnnotation {
  a_category : string;
  a_start : Z;
  a_end : Z;
  a_annotator : string
}.

Record Token := mkToken {
  t_text : string;
  t_id : Z;
  t_annotations : list TokenAnnotation
}.

Record Sentence := mkSentence {
  s_id : option Z;
  s_tokens : list Token
}.

(** [Annotation(category, start=..., end=...)]: the annotator keeps its
    default, the empty string. *)
Definition new_annotation (category : string) (start end_ : Z) : Annotation :=
  mkAnnotation category start end_ "".

Definition with_end (a : Annotation) (i : Z) : Annotation :=
  mkAnnotation (a_category a) (a_start a) i (a_annotator a).

(** The loop over [token.annotations] in [Sentence.get_annotations]. *)
Fixpoint token_loop (annotator : string) (token : Token)
    (token_annotations : list TokenAnnotation)
    (annotations : list Annotation) (indexed_annotations : Dict.t Z Annotation)
    : list Annotation * Dict.t Z Annotation :=
  match token_annotations with
  | [] => (annotations, indexed_annotations)
  | token_annotation :: rest =>
      if String.eqb (ta_annotator token_annotation) annotator then
        if ta_id token_annotation =? -1 then
          token_loop annotator token rest
            (annotations ++
               [new_annotation (ta_category token_annotation)
                  (t_id token) (t_id token)])
            indexed_annotations
        else
          match Dict.get Z.eqb indexed_annotations (ta_id token_annotation) with
          | None =>
              token_loop annotator token rest annotations
                (Dict.set Z.eqb indexed_annotations (ta_id token_annotation)
                   (new_annotation (ta_category token_annotation)
                      (t_id token) (t_id token)))
          | Some a =>
              token_loop annotator token rest annotations
                (Dict.set Z.eqb indexed_annotations (ta_id token_annotation)
                   (with_end a (t_id token)))
          end
      else token_loop annotator token rest annotations indexed_annotations
  end.

(** The loop over [self.tokens]. *)
Fixpoint scan (annotator : string) (tokens : list Token)
    (annotations : list Annotation) (indexed_annotations : Dict.t Z Annotation)
    : list Annotation * Dict.t Z Annotation :=
  match tokens with
  | [] => (annotations, indexed_annotations)
  | token :: rest =>
      let '(annotations, indexed_annotations) :=
        token_loop annotator token (t_annotations token)
          annotations indexed_annotations in
      scan annotator rest annotations indexed_annotations
  end.

Definition get_annotations (self : Sentence) (annotator : string)
    : list Annotation :=
  let '(annotations, indexed_annotations) :=
    scan annotator (s_tokens self) [] [] in
  annotations ++ Dict.values indexed_annotations.

End Doc.

(** ** Streams of references and the two-phase order

    The span aggregator of the specification works on a token-ordered stream
    of references.  A reference is either standalone (the sentinel id) or
    belongs to a group, named by a key; an event is a reference together
    with the index of its token. *)

Module Span.

Inductive ref (K : Type) : Type :=
| Standalone (category : string)
| Grouped (key : K) (category : string).

Arguments Standalone {K} category.
Arguments Grouped {K} key category.

Definition event (K : Type) : Type := (Z * ref K)%type.

Section WithKey.
Context {K : Type}.
Variable eqb : K -> K -> bool.

(** One step of the scan, on the pair of the emitted spans and of the
    accumulator. *)
Definition step (st : list Tsv.entry * Dict.t K Tsv.entry) (ev : event K)
    : list Tsv.entry * Dict.t K Tsv.entry :=
  let '(annotations, indexed) := st in
  match ev with
  | (i, Standalone category) => (annotations ++ [(category, i, i)], indexed)
  | (i, Grouped key category) =>
      match Dict.get eqb indexed key with
      | None => (annotations, Dict.set eqb indexed key (category, i, i))
      | Some e => (annotations, Dict.set eqb indexed key (Tsv.set_end e i))
      end
  end.

Definition aggregate (events : list (event K)) : list Tsv.entry :=
  let '(annotations, indexed) := fold_left step events ([], []) in
  annotations ++ Dict.values indexed.

(** The order the specification states: the standalone spans in scan order,
    then one span per key in the order the keys first occur, from the first
    to the last token that refers to the key, with the category of the
    first reference. *)
Definition standalone_spans (events : list (event K)) : list Tsv.entry :=
  flat_map (fun ev : event K =>
              match ev with
              | (i, Standalone category) => [(category, i, i)]
              | _ => []
              end) events.

Definition grouped_keys (events : list (event K)) : list K :=
  flat_map (fun ev : event K =>
              match ev with
              | (_, Grouped key _) => [key]
              | _ => []
              end) events.

Fixpoint first_occurrences (keys : list K) : list K :=
  match keys with
  | [] => []
  | k :: rest =>
      k :: filter (fun k' => negb (eqb k' k)) (first_occurrences rest)
  end.

Definition occurrences (k : K) (events : list (event K)) : list (Z * string) :=
  flat_map (fun ev : event K =>
              match ev with
              | (i, Grouped key category) =>
                  if eqb key k then [(i, category)] else []
              | _ => []
              end) events.

Definition group_span (k : K) (events : list (event K)) : Tsv.entry :=
  match occurrences k events with
  | [] => (EmptyString, 0, 0)
  | (i, category) :: later => (category, i, last (map fst later) i)
  end.

Definition grouped_spans (events : list (event K)) : list Tsv.entry :=
  map (fun k => group_span k events) (first_occurrences (grouped_keys events)).

Definition two_phase (events : list (event K)) : list Tsv.entry :=
  standalone_spans events ++ grouped_spans events.

(** The accumulator at the end of the scan: the grouped spans under their
    keys. *)
Definition accumulator (events : list (event K)) : Dict.t K Tsv.entry :=
  map (fun k => (k, group_span k events)) (first_occurrences (grouped_keys events)).

End WithKey.

(** A span ends at or after its start. *)
Definition ordered (e : Tsv.entry) : Prop :=
  let '(_, start, end_) := e in start <= end_.

End Span.

(** ** The streams the two aggregators read *)

Module TsvStream.

(** The references [get_annotations] reads from one label: none for [_];
    for a label that contains the text [-1], one standalone reference whose
    category is the text before the first colon; otherwise one grouped
    reference per sub-label, whose key is the sub-label itself. *)
Fixpoint sublabel_refs (token_annotations : list string)
    : option (list (Span.ref string)) :=
  match token_annotations with
  | [] => Some []
  | annotation :: rest =>
      match Py.split ":" annotation with
      | [category; index] =>
          _ <- Py.int index ;;
          refs <- sublabel_refs rest ;;
          Some (Span.Grouped annotation category :: refs)
      | _ => None
      end
  end.

Definition label_refs (label : string) : option (list (Span.ref string)) :=
  if String.eqb label "_" then Some []
  else if Py.contains "-1" label then
    colon <- Py.index ":" label ;;
    Some [Span.Standalone (Py.take colon label)]
  else sublabel_refs (Py.split "|" label).

(** The events of the tokens up to the first one whose label contains the
    marker, numbered from [i]. *)
Fixpoint stream_from (sentence : list (list string)) (annotation_column : Z)
    (i : Z) : option (list (Span.event string)) :=
  match sentence with
  | [] => Some []
  | token :: rest =>
      label <- Py.item token annotation_column ;;
      if Py.contains "*" label then Some []
      else
        refs <- label_refs label ;;
        events <- stream_from rest annotation_column (i + 1) ;;
        Some (map (pair i) refs ++ events)
  end.

Definition stream (sentence : list (list string)) (annotation_column : Z)
    : option (list (Span.event string)) :=
  stream_from sentence annotation_column 0.

(** The events of all the tokens, numbered from [i]. *)
Fixpoint references_from (sentence : list (list string)) (annotation_column : Z)
    (i : Z) : option (list (Span.event string)) :=
  match sentence with
  | [] => Some []
  | token :: rest =>
      label <- Py.item token annotation_column ;;
      refs <- label_refs label ;;
      events <- references_from rest annotation_column (i + 1) ;;
      Some (map (pair i) refs ++ events)
  end.

Definition references (sentence : list (list string)) (annotation_column : Z)
    : option (list (Span.event string)) :=
  references_from sentence annotation_column 0.

(** Whether some token of the sentence has a label with the marker. *)
Definition marked (annotation_column : Z) (token : list string) : bool :=
  match Py.item token annotation_column with
  | Some label => Py.contains "*" label
  | None => false
  end.

Definition has_marker (sentence : list (list string)) (annotation_column : Z)
    : bool :=
  existsb (marked annotation_column) sentence.

End TsvStream.

Module DocStream.

Definition ref_of (ta : Doc.TokenAnnotation) : Span.ref Z :=
  if Doc.ta_id ta =? -1 then Span.Standalone (Doc.ta_category ta)
  else Span.Grouped (Doc.ta_id ta) (Doc.ta_category ta).

Definition by_annotator (annotator : string) (ta : Doc.TokenAnnotation) : bool :=
  String.eqb (Doc.ta_annotator ta) annotator.

(** The references of one annotator on one token, in the order of the
    token's annotations. *)
Definition token_events (annotator : string) (token : Doc.Token)
    : list (Span.event Z) :=
  map (fun ta => (Doc.t_id token, ref_of ta))
      (filter (by_annotator annotator) (Doc.t_annotations token)).

Definition stream (self : Doc.Sentence) (annotator : string)
    : list (Span.event Z) :=
  flat_map (token_events annotator) (Doc.s_tokens self).

Definition triple (a : Doc.Annotation) : Tsv.entry :=
  (Doc.a_category a, Doc.a_start a, Doc.a_end a).

Definition of_triple (e : Tsv.entry) : Doc.Annotation :=
  let '(category, start, end_) := e in Doc.new_annotation category start end_.

(** The dictionary of [Annotation] objects whose fields are the entries of
    a dictionary of triples. *)
Definition lift (d : Dict.t Z Tsv.entry) : Dict.t Z Doc.Annotation :=
  map (fun p => (fst p, of_triple (snd p))) d.

(** The state of the loops of [Sentence.get_annotations], seen from the
    state of the scan of the stream. *)
Definition state (st : list Tsv.entry * Dict.t Z Tsv.entry)
    : list Doc.Annotation * Dict.t Z Doc.Annotation :=
  (map of_triple (fst st), lift (snd st)).

(** What one annotator contributed to a sentence: for each token, in order,
    its id and its annotations by that annotator. *)
Definition view (self : Doc.Sentence) (annotator : string)
    : list (Z * list Doc.TokenAnnotation) :=
  map (fun token =>
         (Doc.t_id token,
          filter (by_annotator annotator) (Doc.t_annotations token)))
      (Doc.s_tokens self).

(** The sentence without the annotations of the other annotators. *)
Definition restrict (self : Doc.Sentence) (annotator : string) : Doc.Sentence :=
  Doc.mkSentence (Doc.s_id self)
    (map (fun token =>
            Doc.mkToken (Doc.t_text token) (Doc.t_id token)
              (filter (by_annotator annotator) (Doc.t_annotations token)))
         (Doc.s_tokens self)).

(** The tokens carry the ids 0 .. N-1 in list order. *)
Definition positional (self : Doc.Sentence) : Prop :=
  map Doc.t_id (Doc.s_tokens self)
  = map Z.of_nat (seq 0 (List.length (Doc.s_tokens self))).

End DocStream.

(** ** The shape of a sub-label *)

Module Label.

(** The text between the first [[] of a sub-label and its last character. *)
Definition bracket_text (sublabel : string) : option string :=
  bracket_index <- Py.index "[" sublabel ;;
  Some (Py.slice_to_last (S bracket_index) sublabel).

(** [shape sublabel category id]: the sub-label is either a bare category,
    with the sentinel id, or [category[text]] where [text] reads as [id]. *)
Inductive shape : string -> string -> Z -> Prop :=
| shape_bare (s : string) :
    Py.contains "[" s = false -> shape s s (-1)
| shape_indexed (category text : string) (n : Z) :
    Py.contains "[" category = false ->
    Py.int text = Some n ->
    shape (category ++ "[" ++ text ++ "]")%string category n.

End Label.

(** ** What [process_sentence] is expected to compute

    A row as the loop reads it: its three cells and, for a label other than
    [_], the pairs of a category and an id of the parsed label. *)

Module Offset.

Record row := mkRow {
  sent_num : string;
  token : string;
  label : string;
  refs : list (string * Z)
}.

Definition parse_row (tsv_row : string) : option row :=
  fields <- Tsv.row_fields tsv_row ;;
  let '(sent_num, token, label) := fields in
  if String.eqb label "_" then Some (mkRow sent_num token label [])
  else
    parsed <- Tsv.process_compound_label label ;;
    let '(categories, annotation_indexes) := parsed in
    Some (mkRow sent_num token label (combine categories annotation_indexes)).

Fixpoint parse_rows (tsv_rows : list string) : option (list row) :=
  match tsv_rows with
  | [] => Some []
  | tsv_row :: rest =>
      r <- parse_row tsv_row ;;
      rs <- parse_rows rest ;;
      Some (r :: rs)
  end.

Definition annotated (r : row) : bool := negb (String.eqb (label r) "_").

(** The first annotation id of the first label that is not [_]. *)
Definition first_id (rows : list row) : option Z :=
  r <- find annotated rows ;;
  option_map snd (hd_error (refs r)).

(** The offset of the sentence: that id minus one. *)
Definition offset (rows : list row) : Z :=
  match first_id rows with
  | Some id => id - 1
  | None => Tsv.UNSET
  end.

(** The sentence-local id: the sentinel is kept, any other id is shifted. *)
Definition local_id (index_offset : Z) (id : Z) : Z :=
  if id =? -1 then -1 else id - index_offset.

Definition piece (index_offset : Z) (p : string * Z) : string :=
  (fst p ++ ":" ++ Py.str (local_id index_offset (snd p)))%string.

Definition simplified (index_offset : Z) (r : row) : string :=
  (sent_num r ++ Tsv.TAB ++ token r ++ Tsv.TAB ++
   (if annotated r then Py.join "|" (map (piece index_offset) (refs r))
    else "_"))%string.

(** The ids of the data model: the sentinel or a non-negative integer. *)
Definition ids_in_model (rows : list row) : Prop :=
  Forall (fun r => Forall (fun p : string * Z => -1 <= snd p) (refs r)) rows.

End Offset.

(** ** Equivalent inputs of the two aggregators

    A simplified row carries the references of a token in its label, one
    [category:id] piece per reference, joined by pipes, and [_] when there
    is none: the format [process_sentence] writes. *)

Module Render.

Definition reference (ta : Doc.TokenAnnotation) : string :=
  (Doc.ta_category ta ++ ":" ++ Py.str (Doc.ta_id ta))%string.

Definition label_of (tas : list Doc.TokenAnnotation) : string :=
  match tas with
  | [] => "_"
  | _ => Py.join "|" (map reference tas)
  end.

Definition label (annotator : string) (token : Doc.Token) : string :=
  label_of (filter (DocStream.by_annotator annotator) (Doc.t_annotations token)).

Definition carries (col : Z) (annotator : string)
    (row : list string) (token : Doc.Token) : Prop :=
  Py.item row col = Some (label annotator token).

(** The row sentence and the [Sentence] carry the same references of the
    annotator, token by token. *)
Definition equivalent (sentence : list (list string)) (col : Z)
    (self : Doc.Sentence) (annotator : string) : Prop :=
  Forall2 (carries col annotator) sentence (Doc.s_tokens self).

(** All the annotations of the annotator in the sentence. *)
Definition mine (self : Doc.Sentence) (annotator : string)
    : list Doc.TokenAnnotation :=
  flat_map (fun token =>
              filter (DocStream.by_annotator annotator) (Doc.t_annotations token))
    (Doc.s_tokens self).

Fixpoint all_chars (p : ascii -> bool) (s : string) : bool :=
  match s with
  | EmptyString => true
  | String a rest => p a && all_chars p rest
  end.

(** The characters with a meaning in a label. *)
Definition special (a : ascii) : bool :=
  Ascii.eqb a "|" || Ascii.eqb a ":" || Ascii.eqb a "*" || Ascii.eqb a "-".

(** A category without special characters and an id of the data model. *)
Definition well_formed (ta : Doc.TokenAnnotation) : Prop :=
  all_chars (fun a => negb (special a)) (Doc.ta_category ta) = true
  /\ -1 <= Doc.ta_id ta.

(** The references of a token are one standalone reference, or grouped
    references only. *)
Definition unmixed (tas : list Doc.TokenAnnotation) : Prop :=
  (exists ta, tas = [ta] /\ Doc.ta_id ta = -1)
  \/ Forall (fun ta => Doc.ta_id ta <> -1) tas.

(** An id other than the sentinel goes with one category. *)
Definition one_category (tas : list Doc.TokenAnnotation) : Prop :=
  forall ta ta',
    In ta tas -> In ta' tas ->
    Doc.ta_id ta = Doc.ta_id ta' -> Doc.ta_id ta <> -1 ->
    Doc.ta_category ta = Doc.ta_category ta'.

(** The category that goes with an id, the empty text for an id that does
    not occur. *)
Definition category_of (tas : list Doc.TokenAnnotation) (id : Z) : string :=
  match find (fun ta => Doc.ta_id ta =? id) tas with
  | Some ta => Doc.ta_category ta
  | None => EmptyString
  end.

(** The key of [get_annotations] for the id of a group. *)
Definition key (tas : list Doc.TokenAnnotation) (id : Z) : string :=
  (category_of tas id ++ ":" ++ Py.str id)%string.

(** The reference [get_annotations] reads back from the piece of an
    annotation. *)
Definition row_ref (ta : Doc.TokenAnnotation) : Span.ref string :=
  if Doc.ta_id ta =? -1 then Span.Standalone (Doc.ta_category ta)
  else Span.Grouped (reference ta) (Doc.ta_category ta).

(** The annotations of the annotator on one token. *)
Definition on_token (annotator : string) (token : Doc.Token)
    : list Doc.TokenAnnotation :=
  filter (DocStream.by_annotator annotator) (Doc.t_annotations token).

(** The events that the rows of the tokens stand for: one per reference
    of the annotator, at the id of its token. *)
Definition row_events (annotator : string) (tokens : list Doc.Token)
    : list (Span.event string) :=
  flat_map (fun t => map (fun ta => (Doc.t_id t, row_ref ta))
                       (on_token annotator t))
    tokens.

(** A dictionary with its keys renamed. *)
Definition rekeyed {K1 K2 : Type} (f : K1 -> K2) (d : Dict.t K1 Tsv.entry)
    : Dict.t K2 Tsv.entry :=
  map (fun p => (f (fst p), snd p)) d.

(** A stream with its keys renamed. *)
Definition rename {K1 K2 : Type} (f : K1 -> K2) (ev : Span.event K1)
    : Span.event K2 :=
  match ev with
  | (i, Span.Standalone category) => (i, Span.Standalone category)
  | (i, Span.Grouped k category) => (i, Span.Grouped (f k) category)
  end.

(** The value of a decimal numeral read from the left, after [acc]. *)
Fixpoint uint_value (acc : Z) (d : Decimal.uint) : Z :=
  match d with
  | Decimal.Nil => acc
  | Decimal.D0 d => uint_value (10 * acc) d
  | Decimal.D1 d => uint_value (10 * acc + 1) d
  | Decimal.D2 d => uint_value (10 * acc + 2) d
  | Decimal.D3 d => uint_value (10 * acc + 3) d
  | Decimal.D4 d => uint_value (10 * acc + 4) d
  | Decimal.D5 d => uint_value (10 * acc + 5) d
  | Decimal.D6 d => uint_value (10 * acc + 6) d
  | Decimal.D7 d => uint_value (10 * acc + 7) d
  | Decimal.D8 d => uint_value (10 * acc + 8) d
  | Decimal.D9 d => uint_value (10 * acc + 9) d
  end.

End Render.

(** ** Sample inputs *)

Module Sample.

Definition row (cells : list string) : string := Py.join Tsv.TAB cells.

(** A sentence whose first annotated token carries the document id 5. *)
Definition quoted : list string :=
  [row ["3-1"; "0-3"; "The"; "_"; "_"];
   row ["3-2"; "4-8"; "term"; "_"; "Quote[5]|Cue"];
   row ["3-3"; "9-11"; "is"; "_"; "Quote[5]|Term[7]"]].

Definition quoted_rows : list Offset.row :=
  [Offset.mkRow "3" "The" "_" [];
   Offset.mkRow "3" "term" "Quote[5]|Cue" [("Quote", 5); ("Cue", -1)];
   Offset.mkRow "3" "is" "Quote[5]|Term[7]" [("Quote", 5); ("Term", 7)]].

(** A sentence whose first annotated token starts with a bare category. *)
Definition bare_first : list string :=
  [row ["4-1"; "0-2"; "So"; "_"; "_"];
   row ["4-2"; "3-7"; "said"; "_"; "Cue|Quote[9]"];
   row ["4-3"; "8-10"; "it"; "_"; "Quote[9]"]].

Definition bare_first_rows : list Offset.row :=
  [Offset.mkRow "4" "So" "_" [];
   Offset.mkRow "4" "said" "Cue|Quote[9]" [("Cue", -1); ("Quote", 9)];
   Offset.mkRow "4" "it" "Quote[9]" [("Quote", 9)]].

(** The stream of the specification: a standalone [Cue] on token 0, [Quote]
    with id 7 on tokens 1 and 2, a standalone [Cue] on token 3; as
    simplified rows and as a [Sentence]. *)
Definition cue_quote_rows : list (list string) :=
  [["1"; "He"; "Cue:-1"]; ["1"; "said"; "Quote:7"];
   ["1"; "so"; "Quote:7"]; ["1"; "again"; "Cue:-1"]].

Definition cue_quote : Doc.Sentence :=
  Doc.mkSentence (Some 0)
    [Doc.mkToken "He" 0 [Doc.mkTokenAnnotation "Cue" (-1) "alice"];
     Doc.mkToken "said" 1 [Doc.mkTokenAnnotation "Quote" 7 "alice"];
     Doc.mkToken "so" 2 [Doc.mkTokenAnnotation "Quote" 7 "alice"];
     Doc.mkToken "again" 3 [Doc.mkTokenAnnotation "Cue" (-1) "alice"]].

(** Two sentences that agree on the annotations of alice and differ in
    those of bob, who reuses alice's id 7 on a neighbouring token. *)
Definition alice_only : Doc.Sentence :=
  Doc.mkSentence (Some 0)
    [Doc.mkToken "He" 0 [Doc.mkTokenAnnotation "Quote" 7 "alice"];
     Doc.mkToken "said" 1 [];
     Doc.mkToken "so" 2 []].

Definition alice_and_bob : Doc.Sentence :=
  Doc.mkSentence (Some 1)
    [Doc.mkToken "He" 0 [Doc.mkTokenAnnotation "Quote" 7 "alice"];
     Doc.mkToken "said" 1 [Doc.mkTokenAnnotation "Quote" 7 "bob"];
     Doc.mkToken "so" 2 [Doc.mkTokenAnnotation "Term" 8 "bob";
                         Doc.mkTokenAnnotation "Cue" (-1) "bob"]].

(** Two tokens that reuse the id 3 with two categories, as rows and as a
    [Sentence]. *)
Definition shared_id_rows : list (list string) :=
  [["1"; "He"; "A:3"]; ["1"; "said"; "B:3"]].

Definition shared_id : Doc.Sentence :=
  Doc.mkSentence (Some 0)
    [Doc.mkToken "He" 0 [Doc.mkTokenAnnotation "A" 3 "alice"];
     Doc.mkToken "said" 1 [Doc.mkTokenAnnotation "B" 3 "alice"]].

(** A token with a standalone and a grouped reference, as a row and as a
    [Sentence]; the row is what [process_sentence] writes for the raw label
    [Cue|Quote[1]]. *)
Definition mixed_rows : list (list string) :=
  [["1"; "said"; "Cue:-1|Quote:3"]].

Definition mixed : Doc.Sentence :=
  Doc.mkSentence (Some 0)
    [Doc.mkToken "said" 0 [Doc.mkTokenAnnotation "Cue" (-1) "alice";
                           Doc.mkTokenAnnotation "Quote" 3 "alice"]].

(** The same token followed by one that continues its group, as the raw
    rows of a sentence, as the rows [process_sentence] writes for them and
    as a [Sentence]. *)
Definition mixed_then_grouped_raw : list string :=
  [row ["1-1"; "0-4"; "said"; "_"; "Cue|Quote[1]"];
   row ["1-2"; "5-7"; "so"; "_"; "Quote[1]"]].

Definition mixed_then_grouped_rows : list (list string) :=
  [["1"; "said"; "Cue:-1|Quote:3"]; ["1"; "so"; "Quote:3"]].

Definition mixed_then_grouped : Doc.Sentence :=
  Doc.mkSentence (Some 0)
    [Doc.mkToken "said" 0 [Doc.mkTokenAnnotation "Cue" (-1) "alice";
                           Doc.mkTokenAnnotation "Quote" 3 "alice"];
     Doc.mkToken "so" 1 [Doc.mkTokenAnnotation "Quote" 3 "alice"]].

End Sample.

(** ** [process_opinion_file]

    The file is read with [f.readlines()]; the function below is the rest
    of [process_opinion_file], on the list [data] of the lines read, each
    with its line end. *)

Module TsvFile.

Definition NEWLINE : string := String (ascii_of_nat 10) EmptyString.

(** The loop over [data[4:]], on the lists [doc_rows] and [sent_rows]. *)
Fixpoint file_loop (rows : list string) (doc_rows : list (list string))
    (sent_rows : list string) : option (list (list string)) :=
  match rows with
  | [] => Some doc_rows
  | row :: rest =>
      if String.prefix "#Text" row then file_loop rest doc_rows []
      else if String.eqb row NEWLINE then
        simplified_rows <- Tsv.process_sentence sent_rows ;;
        file_loop rest (doc_rows ++ [simplified_rows]) sent_rows
      else file_loop rest doc_rows (sent_rows ++ [row])
  end.

(** The assertion on [data[4]], the loop, and the split of every simplified
    row into its cells. *)
Definition process_opinion_file (data : list string)
    : option (list (list (list string))) :=
  line <- Py.item data 4 ;;
  if String.prefix "#Text" line then
    doc_rows <- file_loop (skipn 4 data) [] [] ;;
    Some (map (map (Py.split (ascii_of_nat 9))) doc_rows)
  else None.

(** A token row: a line that neither starts a sentence nor ends one. *)
Definition token_row (row : string) : bool :=
  negb (String.prefix "#Text" row) && negb (String.eqb row NEWLINE).

(** The lines of one sentence of a well-formed file: its text line, its
    token rows and the empty line that ends it. *)
Definition block (text : string) (rows : list string) : list string :=
  (("#Text" ++ text)%string :: rows) ++ [NEWLINE].

Fixpoint blocks (sentences : list (string * list string)) : list string :=
  match sentences with
  | [] => []
  | (text, rows) :: rest => block text rows ++ blocks rest
  end.

End TsvFile.

(** ** The other methods of [document.py] *)

Module DocOps.

(** [Token.get_categories]: the set is the list of its elements, without
    repetition; [categories.add] is [set_add]. *)
Fixpoint categories_loop (token_annotations : list Doc.TokenAnnotation)
    (categories : list string) : list string :=
  match token_annotations with
  | [] => categories
  | token_annotation :: rest =>
      categories_loop rest
        (ListSet.set_add string_dec (Doc.ta_category token_annotation) categories)
  end.

Definition get_categories (self : Doc.Token) : list string :=
  categories_loop (Doc.t_annotations self) [].

(** [Sentence.append] and [Sentence.__len__]. *)
Definition append (self : Doc.Sentence) (token : Doc.Token) : Doc.Sentence :=
  Doc.mkSentence (Doc.s_id self) (Doc.s_tokens self ++ [token]).

Definition len (self : Doc.Sentence) : Z :=
  Z.of_nat (List.length (Doc.s_tokens self)).

End DocOps.

(** ** Labels as the export writes them *)

Module Inception.

(** The sub-label of a category and an id, [Category[N]]. *)
Definition sublabel (p : string * Z) : string :=
  (fst p ++ "[" ++ Py.str (snd p) ++ "]")%string.

Definition label (pairs : list (string * Z)) : string :=
  Py.join "|" (map sublabel pairs).

(** [loose sublabel category id]: as [Label.shape], with any character in
    the place of the closing bracket. *)
Inductive loose : string -> string -> Z -> Prop :=
| loose_bare (s : string) :
    Py.contains "[" s = false -> loose s s (-1)
| loose_indexed (category text : string) (last : ascii) (n : Z) :
    Py.contains "[" category = false ->
    Py.int text = Some n ->
    loose (category ++ "[" ++ text ++ String last EmptyString)%string category n.

End Inception.

(** ** More sample inputs *)

Module Sample2.

(** A sentence whose first annotation id is -999999, the id whose offset is
    the value that marks the offset as not set. *)
Definition collide_first : list string :=
  [Sample.row ["7-1"; "0-2"; "As"; "_"; "Cue[-999999]"]].

Definition collide_rest : list string :=
  [Sample.row ["7-2"; "3-7"; "said"; "_"; "Quote[5]"];
   Sample.row ["7-3"; "8-10"; "it"; "_"; "Quote[5]|Term[6]"]].

Definition collide_first_rows : list Offset.row :=
  [Offset.mkRow "7" "As" "Cue[-999999]" [("Cue", -999999)]].

Definition collide_rest_rows : list Offset.row :=
  [Offset.mkRow "7" "said" "Quote[5]" [("Quote", 5)];
   Offset.mkRow "7" "it" "Quote[5]|Term[6]" [("Quote", 5); ("Term", 6)]].

End Sample2.

(** ** What a simplified row is made of *)

Module Simplified.

(** [made_from row out]: the simplified row [out] has three cells, the
    sentence number and the token that [process_sentence] reads in [row],
    and [_] or, for some offset, the pieces of the parsed label of [row]
    joined by pipes. *)
Definition made_from (row out : string) : Prop :=
  exists sent_num token label,
    Tsv.row_fields row = Some (sent_num, token, label)
    /\ ((String.eqb label "_" = true
         /\ Py.split (ascii_of_nat 9) out = [sent_num; token; "_"])
        \/ (String.eqb label "_" = false
            /\ exists categories ids index_offset,
                 Tsv.process_compound_label label = Some (categories, ids)
                 /\ Py.split (ascii_of_nat 9) out
                    = [sent_num; token;
                       Py.join "|" (map (Offset.piece index_offset)
                                      (combine categories ids))])).

(** The sentences of a file, each one processed. *)
Fixpoint all_sentences (sentences : list (list string))
    : option (list (list string)) :=
  match sentences with
  | [] => Some []
  | rows :: rest =>
      simplified_rows <- Tsv.process_sentence rows ;;
      others <- all_sentences rest ;;
      Some (simplified_rows :: others)
  end.

End Simplified.

(** ** A sample file *)

Module SampleFile.

Definition header : list string :=
  ["#FORMAT=WebAnno TSV 3.3"; "#T_SP=webanno.custom.Metalanguage|Category";
   TsvFile.NEWLINE; TsvFile.NEWLINE].

Definition sentences : list (string * list string) :=
  [("=The term is", Sample.quoted); ("=So said it", Sample.bare_first)].

Definition data : list string := header ++ TsvFile.blocks sentences.

End SampleFile.

(** ** Renumbered documents *)

Module Shift.

(** [reference k p1 p2]: the same category, and the same id up to the shift
    [k] of the ids other than the sentinel. *)
Definition reference (k : Z) (p1 p2 : string * Z) : Prop :=
  fst p1 = fst p2
  /\ ((snd p1 = -1 /\ snd p2 = -1)
      \/ (snd p1 <> -1 /\ snd p2 <> -1 /\ snd p2 = snd p1 + k)).

(** [row k r1 r2]: the same sentence number and token, both with or both
    without annotation, and the same references up to the shift. *)
Definition row (k : Z) (r1 r2 : Offset.row) : Prop :=
  Offset.sent_num r1 = Offset.sent_num r2
  /\ Offset.token r1 = Offset.token r2
  /\ Offset.annotated r1 = Offset.annotated r2
  /\ Forall2 (reference k) (Offset.refs r1) (Offset.refs r2).

(** The sample sentence [Sample.quoted] with its ids increased by 77. *)
Definition quoted_later : list string :=
  [Sample.row ["3-1"; "200-203"; "The"; "_"; "_"];
   Sample.row ["3-2"; "204-208"; "term"; "_"; "Quote[82]|Cue"];
   Sample.row ["3-3"; "209-211"; "is"; "_"; "Quote[82]|Term[84]"]].

Definition quoted_later_rows : list Offset.row :=
  [Offset.mkRow "3" "The" "_" [];
   Offset.mkRow "3" "term" "Quote[82]|Cue" [("Quote", 82); ("Cue", -1)];
   Offset.mkRow "3" "is" "Quote[82]|Term[84]" [("Quote", 82); ("Term", 84)]].

End Shift.

(** ** The texts that [int] accepts

    A decimal integer, as [int] reads it in base ten: white space, an
    optional sign, digits with single underscores between digits, white
    space.  The definition does not refer to [Py.int]. *)

Module Numeral.

(** A text of white space only. *)
Definition blank (s : string) : Prop :=
  Render.all_chars Py.is_space s = true.

(** No sign, [+] or [-]. *)
Inductive sign : string -> Prop :=
| sign_none : sign EmptyString
| sign_plus : sign "+"
| sign_minus : sign "-".

(** One digit or more, where a digit may be followed by one underscore and
    a further digit. *)
Inductive grouped : string -> Prop :=
| grouped_digit (a : ascii) :
    Py.is_digit a = true -> grouped (String a EmptyString)
| grouped_cons (a : ascii) (s : string) :
    Py.is_digit a = true -> grouped s -> grouped (String a s)
| grouped_underscore (a : ascii) (s : string) :
    Py.is_digit a = true -> grouped s -> grouped (String a (String "_" s)).

Inductive decimal : string -> Prop :=
| decimal_of (before sg body after : string) :
    blank before -> sign sg -> grouped body -> blank after ->
    decimal (before ++ sg ++ body ++ after)%string.

End Numeral.

(** ** Labels that [get_annotations] cannot read *)

Module Unreadable.

(** A sub-label that is not a category and a decimal integer around one
    colon. *)
Definition sublabel (annotation : string) : Prop :=
  match Py.split ":" annotation with
  | [category; index] => ~ Numeral.decimal index
  | _ => True
  end.

(** A label other than [_] that contains [-1] but no colon, or that does
    not contain [-1] and has such a sub-label. *)
Definition label (l : string) : Prop :=
  String.eqb l "_" = false
  /\ ((Py.contains "-1" l = true /\ Py.index ":" l = None)
      \/ (Py.contains "-1" l = false
          /\ exists annotation,
               In annotation (Py.split "|" l) /\ sublabel annotation)).

(** A token without the annotation column, or with a label without marker
    that cannot be read. *)
Definition token (col : Z) (t : list string) : Prop :=
  Py.item t col = None
  \/ exists l, Py.item t col = Some l
               /\ Py.contains "*" l = false /\ label l.

End Unreadable.

(** * Properties *)

(** ** Strings *)

Section StringFacts.

Lemma prefix_char (a : ascii) (s : string) :
  String.prefix (String a EmptyString) s =
  match s with
  | String b _ => Ascii.eqb b a
  | EmptyString => false
  end.
Proof.
  destruct s as [|b r]; simpl; [reflexivity|].
  destruct (ascii_dec a b) as [->|Hne].
  - rewrite Ascii.eqb_refl. now destruct r.
  - symmetry. apply Ascii.eqb_neq. congruence.
Qed.

(** [c in s] for a one-character [c] holds exactly when [s.index(c)]
    succeeds. *)
Lemma contains_char_index (a : ascii) (s : string) :
  Py.contains (String a EmptyString) s =
  match Py.index a s with Some _ => true | None => false end.
Proof.
  induction s as [|b r IH].
  - reflexivity.
  - cbn [Py.contains Py.index]. rewrite prefix_char, IH.
    destruct (Ascii.eqb b a); simpl; [reflexivity|].
    now destruct (Py.index a r).
Qed.

Lemma contains_char_cons (a b : ascii) (s : string) :
  Py.contains (String a EmptyString) (String b s) =
  Ascii.eqb b a || Py.contains (String a EmptyString) s.
Proof.
  cbn [Py.contains]. now rewrite prefix_char.
Qed.

Lemma contains_char_app (a : ascii) (s t : string) :
  Py.contains (String a EmptyString) (s ++ t) =
  Py.contains (String a EmptyString) s || Py.contains (String a EmptyString) t.
Proof.
  induction s as [|b r IH].
  - simpl. reflexivity.
  - change (String b r ++ t)%string with (String b (r ++ t)).
    rewrite !contains_char_cons, IH. now rewrite orb_assoc.
Qed.

Lemma index_app_absent (a : ascii) (s t : string) :
  Py.contains (String a EmptyString) s = false ->
  Py.index a (s ++ String a t) = Some (String.length s).
Proof.
  induction s as [|b r IH]; intros H.
  - simpl. now rewrite Ascii.eqb_refl.
  - rewrite contains_char_cons in H. apply orb_false_iff in H as [Hb Hr].
    simpl. rewrite Hb, (IH Hr). reflexivity.
Qed.

Lemma take_app (s t : string) : Py.take (String.length s) (s ++ t) = s.
Proof.
  induction s as [|b r IH]; simpl.
  - now destruct t.
  - now rewrite IH.
Qed.

Lemma drop_app (s t : string) : Py.drop (String.length s) (s ++ t) = t.
Proof.
  induction s as [|b r IH]; simpl; [now destruct t | exact IH].
Qed.

Lemma drop_last_app_char (s : string) (a : ascii) :
  Py.drop_last (s ++ String a EmptyString) = s.
Proof.
  induction s as [|b r IH]; [reflexivity|].
  change (String b r ++ String a "")%string with (String b (r ++ String a "")).
  cbn [Py.drop_last]. rewrite IH.
  now destruct r.
Qed.

Lemma append_assoc (s t u : string) :
  ((s ++ t) ++ u = s ++ t ++ u)%string.
Proof.
  induction s as [|b r IH]; simpl; [reflexivity | now rewrite IH].
Qed.

Lemma length_append (s t : string) :
  String.length (s ++ t) = (String.length s + String.length t)%nat.
Proof.
  induction s as [|b r IH]; simpl; [reflexivity | now rewrite IH].
Qed.

Lemma append_nil_r (s : string) : (s ++ "")%string = s.
Proof.
  induction s as [|b r IH]; simpl; [reflexivity | now rewrite IH].
Qed.

End StringFacts.

(** Appends are compared after they have been nested to the right. *)
Ltac string_assoc :=
  repeat first [rewrite append_assoc | progress cbn [String.append]].

(** ** [int] accepts the decimal integers *)

Section Numerals.

Lemma digit_not_underscore (a : ascii) :
  Py.is_digit a = true -> Ascii.eqb a "_" = false.
Proof.
  intros H. apply Ascii.eqb_neq. intros ->. discriminate H.
Qed.

Lemma digit_not_space (a : ascii) :
  Py.is_digit a = true -> Py.is_space a = false.
Proof.
  unfold Py.is_digit, Py.is_space. intros H.
  apply andb_true_iff in H as [H1 H2]. apply Nat.leb_le in H1, H2.
  apply orb_false_iff. split.
  - apply andb_false_iff. right. apply Nat.leb_gt. lia.
  - apply Nat.eqb_neq. lia.
Qed.

Lemma grouped_not_empty (s : string) : Numeral.grouped s -> s <> EmptyString.
Proof. intros H. destruct H; discriminate. Qed.

(** *** What [Py.digits] accepts *)

Lemma digits_accepts (s : string) :
  Numeral.grouped s -> forall acc b, exists n, Py.digits acc b s = Some n.
Proof.
  induction 1 as [a Ha | a s Ha _ IH | a s Ha _ IH]; intros acc b;
    cbn [Py.digits]; rewrite (digit_not_underscore a Ha), Ha.
  - eauto.
  - apply IH.
  - cbn [Py.digits]. change (Ascii.eqb "_" "_") with true. cbv iota.
    apply IH.
Qed.

Lemma digits_only_accepts (s : string) :
  forall acc b n,
  Py.digits acc b s = Some n ->
  if b then
    s = EmptyString \/ Numeral.grouped s
    \/ exists rest, s = String "_" rest /\ Numeral.grouped rest
  else Numeral.grouped s.
Proof.
  induction s as [|a s IH]; intros acc b n H.
  - cbn [Py.digits] in H. destruct b; [now left | discriminate].
  - cbn [Py.digits] in H. destruct (Ascii.eqb a "_") eqn:Eu.
    + apply Ascii.eqb_eq in Eu. subst a.
      destruct b; [|discriminate].
      apply IH in H. right. right. now exists s.
    + destruct (Py.is_digit a) eqn:Ed; [|discriminate].
      apply IH in H.
      assert (Hg : Numeral.grouped (String a s)).
      { destruct H as [->|[Hg|(rest & -> & Hg)]].
        - now apply Numeral.grouped_digit.
        - now apply Numeral.grouped_cons.
        - now apply Numeral.grouped_underscore. }
      destruct b; [right; now left | exact Hg].
Qed.

(** *** White space around the numeral *)

Lemma lstrip_split (s : string) :
  exists before, Numeral.blank before /\ s = (before ++ Py.lstrip s)%string.
Proof.
  induction s as [|a s (before & Hb & IH)]; [now exists EmptyString|].
  cbn [Py.lstrip]. destruct (Py.is_space a) eqn:E.
  - exists (String a before). split.
    + unfold Numeral.blank in *. cbn [Render.all_chars]. now rewrite E, Hb.
    + cbn [String.append]. now rewrite <- IH.
  - now exists EmptyString.
Qed.

Lemma rstrip_split (s : string) :
  exists after, Numeral.blank after /\ s = (Py.rstrip s ++ after)%string.
Proof.
  induction s as [|a s (after & Hb & IH)]; [now exists EmptyString|].
  cbn [Py.rstrip]. destruct (Py.rstrip s) as [|k kept] eqn:Er.
  - cbn [String.append] in IH. subst after.
    destruct (Py.is_space a) eqn:E.
    + exists (String a s). split; [|reflexivity].
      unfold Numeral.blank in *. cbn [Render.all_chars]. now rewrite E, Hb.
    + now exists s.
  - exists after. split; [exact Hb|].
    cbn [String.append]. now rewrite IH at 1.
Qed.

Lemma rstrip_blank (s : string) : Numeral.blank s -> Py.rstrip s = EmptyString.
Proof.
  unfold Numeral.blank. induction s as [|a s IH]; [reflexivity|].
  cbn [Render.all_chars Py.rstrip]. intros H.
  apply andb_true_iff in H as [Ha Hs]. now rewrite (IH Hs), Ha.
Qed.

Lemma rstrip_app_blank (s after : string) :
  Numeral.blank after -> Py.rstrip (s ++ after) = Py.rstrip s.
Proof.
  intros Hb. induction s as [|a s IH].
  - cbn [String.append]. now apply rstrip_blank.
  - cbn [String.append Py.rstrip]. now rewrite IH.
Qed.

Lemma lstrip_blank_app (before s : string) :
  Numeral.blank before -> Py.lstrip (before ++ s) = Py.lstrip s.
Proof.
  unfold Numeral.blank. induction before as [|a before IH]; [reflexivity|].
  cbn [Render.all_chars String.append Py.lstrip]. intros H.
  apply andb_true_iff in H as [Ha Hs]. rewrite Ha. now apply IH.
Qed.

Lemma rstrip_cons (a : ascii) (s : string) :
  s <> EmptyString -> Py.rstrip s = s -> Py.rstrip (String a s) = String a s.
Proof.
  intros Hne Hs. cbn [Py.rstrip]. rewrite Hs.
  destruct s; [congruence | reflexivity].
Qed.

Lemma rstrip_grouped (s : string) : Numeral.grouped s -> Py.rstrip s = s.
Proof.
  induction 1 as [a Ha | a s Ha Hg IH | a s Ha Hg IH].
  - cbn [Py.rstrip]. now rewrite (digit_not_space a Ha).
  - apply rstrip_cons; [now apply grouped_not_empty | exact IH].
  - apply rstrip_cons; [discriminate|].
    apply rstrip_cons; [now apply grouped_not_empty | exact IH].
Qed.

(** The numeral of a signed body, with white space around it, is what
    [strip] keeps. *)
Lemma strip_decimal (before sg body after : string) :
  Numeral.blank before -> Numeral.sign sg -> Numeral.grouped body ->
  Numeral.blank after ->
  Py.strip (before ++ sg ++ body ++ after) = (sg ++ body)%string.
Proof.
  intros Hb Hs Hg Ha. unfold Py.strip. rewrite (lstrip_blank_app _ _ Hb).
  assert (Hl : Py.lstrip (sg ++ body ++ after) = (sg ++ body ++ after)%string).
  { destruct Hs; cbn [String.append]; [|reflexivity..].
    destruct Hg as [a Hd | a s Hd _ | a s Hd _]; cbn [String.append Py.lstrip];
      now rewrite (digit_not_space a Hd). }
  rewrite Hl, <- append_assoc, (rstrip_app_blank _ _ Ha).
  pose proof (rstrip_grouped _ Hg) as Hr.
  destruct Hs; cbn [String.append]; [exact Hr| |];
    (apply rstrip_cons; [now apply grouped_not_empty | exact Hr]).
Qed.

Lemma strip_split (s : string) :
  exists before after,
    Numeral.blank before /\ Numeral.blank after
    /\ s = (before ++ Py.strip s ++ after)%string.
Proof.
  destruct (lstrip_split s) as (before & Hb & Hs).
  destruct (rstrip_split (Py.lstrip s)) as (after & Ha & Hl).
  exists before, after. split; [exact Hb|]. split; [exact Ha|].
  unfold Py.strip. now rewrite <- Hl.
Qed.

(** *** The sign *)

Lemma int_by_sign (s : string) :
  Py.int s =
  match Py.strip s with
  | EmptyString => None
  | String a rest =>
      if Ascii.eqb a "-" then n <- Py.digits 0 false rest ;; Some (- n)
      else if Ascii.eqb a "+" then Py.digits 0 false rest
      else Py.digits 0 false (String a rest)
  end.
Proof.
  unfold Py.int. destruct (Py.strip s) as [|a rest]; [reflexivity|].
  destruct a as [[] [] [] [] [] [] [] []]; reflexivity.
Qed.

(** [int] returns exactly on the decimal integers. *)
Lemma int_accepts (s : string) :
  Numeral.decimal s -> exists n, Py.int s = Some n.
Proof.
  intros [before sg body after Hb Hs Hg Ha].
  rewrite int_by_sign, (strip_decimal _ _ _ _ Hb Hs Hg Ha).
  destruct Hs; cbn [String.append].
  - destruct (digits_accepts _ Hg 0 false) as [n Hn].
    destruct Hg as [a Hd | a r Hd _ | a r Hd _];
      (replace (Ascii.eqb a "-") with false
         by (symmetry; apply Ascii.eqb_neq; intros ->; discriminate Hd));
      (replace (Ascii.eqb a "+") with false
         by (symmetry; apply Ascii.eqb_neq; intros ->; discriminate Hd));
      eauto.
  - change (Ascii.eqb "+" "-") with false.
    change (Ascii.eqb "+" "+") with true. cbv iota.
    apply (digits_accepts _ Hg).
  - change (Ascii.eqb "-" "-") with true. cbv iota.
    destruct (digits_accepts _ Hg 0 false) as [n ->]. eauto.
Qed.

Lemma int_only_accepts (s : string) (n : Z) :
  Py.int s = Some n -> Numeral.decimal s.
Proof.
  rewrite int_by_sign. intros H.
  destruct (strip_split s) as (before & after & Hb & Ha & Hs).
  rewrite Hs. destruct (Py.strip s) as [|a rest]; [discriminate|].
  destruct (Ascii.eqb a "-") eqn:Em.
  - apply Ascii.eqb_eq in Em. subst a.
    destruct (Py.digits 0 false rest) as [m|] eqn:Hd; [|discriminate].
    apply digits_only_accepts in Hd.
    exact (Numeral.decimal_of before "-" rest after Hb Numeral.sign_minus Hd Ha).
  - destruct (Ascii.eqb a "+") eqn:Ep.
    + apply Ascii.eqb_eq in Ep. subst a.
      apply digits_only_accepts in H.
      exact (Numeral.decimal_of before "+" rest after Hb Numeral.sign_plus H Ha).
    + apply digits_only_accepts in H.
      exact (Numeral.decimal_of before "" (String a rest) after
               Hb Numeral.sign_none H Ha).
Qed.

(** [int] raises exactly on the texts that are not decimal integers. *)
Lemma int_raises (s : string) : Py.int s = None <-> ~ Numeral.decimal s.
Proof.
  split.
  - intros H Hd. destruct (int_accepts s Hd) as [n Hn]. congruence.
  - intros H. destruct (Py.int s) as [n|] eqn:E; [|reflexivity].
    elim H. exact (int_only_accepts s n E).
Qed.

End Numerals.

(** ** The compound label parser *)

Section CompoundLabel.

Lemma bracket_text_indexed (category text : string) :
  Py.contains "[" category = false ->
  Py.index "[" (category ++ "[" ++ text ++ "]") = Some (String.length category)
  /\ Py.take (String.length category) (category ++ "[" ++ text ++ "]") = category
  /\ Py.slice_to_last (S (String.length category)) (category ++ "[" ++ text ++ "]")
     = text.
Proof.
  intros Hc. split; [|split].
  - now apply index_app_absent.
  - apply take_app.
  - unfold Py.slice_to_last.
    change (S (String.length category))
      with (String.length (String "[" EmptyString) + String.length category)%nat.
    replace (category ++ "[" ++ text ++ "]")%string
      with ((category ++ "[") ++ (text ++ "]"))%string
      by (now rewrite append_assoc).
    replace (String.length "[" + String.length category)%nat
      with (String.length (category ++ "[")%string).
    + rewrite drop_app. apply drop_last_app_char.
    + rewrite length_append. simpl. lia.
Qed.

(** One sub-label of a known shape extends the two lists by its category and
    its id. *)
Lemma compound_loop_shapes (sublabels : list string) :
  forall (pairs : list (string * Z)) (categories : list string) (ids : list Z),
  Forall2 (fun s p => Label.shape s (fst p) (snd p)) sublabels pairs ->
  Tsv.compound_loop sublabels categories ids =
  Some (categories ++ map fst pairs, ids ++ map snd pairs).
Proof.
  induction sublabels as [|s rest IH]; intros pairs categories ids HF.
  - inversion HF; subst. simpl. now rewrite !app_nil_r.
  - inversion HF as [|s' p rest' pairs' Hs Hrest]; subst.
    destruct p as [c n]; simpl in Hs.
    cbn [Tsv.compound_loop].
    inversion Hs as [s0 Hbare | c0 text n0 Hc Hint]; subst.
    + rewrite Hbare. cbn [negb].
      rewrite (IH _ _ _ Hrest). cbn [map fst snd].
      now rewrite <- !app_assoc.
    + destruct (bracket_text_indexed c text Hc) as (Hi & Ht & Hs').
      rewrite contains_char_index, Hi. cbn [negb].
      rewrite Ht, Hs', Hint.
      rewrite (IH _ _ _ Hrest). cbn [map fst snd].
      now rewrite <- !app_assoc.
Qed.

(** The loop fails exactly when one of its sub-labels has a [[] and the
    text after it does not read as an integer. *)
Lemma compound_loop_fails (sublabels : list string) :
  forall (categories : list string) (ids : list Z),
  Tsv.compound_loop sublabels categories ids = None <->
  exists sublabel text,
    In sublabel sublabels /\ Label.bracket_text sublabel = Some text /\
    Py.int text = None.
Proof.
  induction sublabels as [|s rest IH]; intros categories ids.
  - simpl. split; [discriminate | intros (? & ? & [] & _)].
  - cbn [Tsv.compound_loop].
    pose proof (contains_char_index "[" s) as Hci.
    destruct (Py.contains "[" s) eqn:Hc; cbn [negb].
    + destruct (Py.index "[" s) as [b|] eqn:Hb; [|discriminate].
      destruct (Py.int (Py.slice_to_last (S b) s)) as [n|] eqn:Hn.
      * rewrite IH. split.
        -- intros (sl & text & Hin & Ht & Hi). exists sl, text. simpl. auto.
        -- intros (sl & text & [<-|Hin] & Ht & Hi).
           ++ unfold Label.bracket_text in Ht. rewrite Hb in Ht.
              injection Ht as <-. congruence.
           ++ exists sl, text. auto.
      * split; [intros _ | reflexivity].
        exists s, (Py.slice_to_last (S b) s). simpl.
        unfold Label.bracket_text. rewrite Hb. auto.
    + destruct (Py.index "[" s) as [b|] eqn:Hb; [discriminate|].
      rewrite IH. split.
      * intros (sl & text & Hin & Ht & Hi). exists sl, text. simpl. auto.
      * intros (sl & text & [<-|Hin] & Ht & Hi).
        -- unfold Label.bracket_text in Ht. now rewrite Hb in Ht.
        -- exists sl, text. auto.
Qed.

(** C3.  A label whose sub-labels are bare categories or of the form
    [Category[N]] is parsed into two lists of the same length, in the order
    of the sub-labels: a bare sub-label gives itself and the id -1, an
    indexed one gives its category and the integer read between the first
    [[] and the final []]. *)
Theorem process_compound_label_shapes (label : string)
    (pairs : list (string * Z)) :
  Forall2 (fun s p => Label.shape s (fst p) (snd p)) (Py.split "|" label) pairs ->
  Tsv.process_compound_label label = Some (map fst pairs, map snd pairs)
  /\ List.length (map fst pairs) = List.length (Py.split "|" label)
  /\ List.length (map snd pairs) = List.length (map fst pairs).
Proof.
  intros HF. split; [|split].
  - unfold Tsv.process_compound_label.
    now rewrite (compound_loop_shapes _ _ [] [] HF).
  - rewrite length_map. symmetry. exact (Forall2_length HF).
  - now rewrite !length_map.
Qed.

(** The label [A[3]|B[3]|C[7]] has categories [A, B, C] and ids
    [3, 3, 7]. *)
Lemma process_compound_label_shapes_witness :
  Forall2 (fun s p => Label.shape s (fst p) (snd p))
    (Py.split "|" "A[3]|B[3]|C[7]") [("A", 3); ("B", 3); ("C", 7)]
  /\ Tsv.process_compound_label "A[3]|B[3]|C[7]"
     = Some (["A"; "B"; "C"], [3; 3; 7]).
Proof.
  assert (H : Forall2 (fun s p => Label.shape s (fst p) (snd p))
                (Py.split "|" "A[3]|B[3]|C[7]") [("A", 3); ("B", 3); ("C", 7)]).
  { change (Py.split "|" "A[3]|B[3]|C[7]") with ["A[3]"; "B[3]"; "C[7]"].
    constructor; [exact (Label.shape_indexed "A" "3" 3 eq_refl eq_refl)|].
    constructor; [exact (Label.shape_indexed "B" "3" 3 eq_refl eq_refl)|].
    constructor; [exact (Label.shape_indexed "C" "7" 7 eq_refl eq_refl)|].
    constructor. }
  split; [exact H|].
  exact (proj1 (process_compound_label_shapes _ _ H)).
Defined.

(** C9.  [process_compound_label] raises exactly when some sub-label has a
    [[] and the text between that [[] and the last character of the
    sub-label is not a decimal integer ([Numeral.decimal]: digits, which
    single underscores may group, after an optional sign, with white space
    around): a malformed bracket never yields a result, and a result is
    only reached when every bracketed sub-label carries an integer. *)
Theorem process_compound_label_raises (label : string) :
  Tsv.process_compound_label label = None <->
  exists sublabel text,
    In sublabel (Py.split "|" label) /\
    Label.bracket_text sublabel = Some text /\
    ~ Numeral.decimal text.
Proof.
  unfold Tsv.process_compound_label.
  rewrite compound_loop_fails. split.
  - intros (sublabel & text & Hin & Ht & Hint).
    exists sublabel, text. split; [exact Hin|]. split; [exact Ht|].
    now apply int_raises.
  - intros (sublabel & text & Hin & Ht & Hd).
    exists sublabel, text. split; [exact Hin|]. split; [exact Ht|].
    now apply int_raises.
Qed.

(** The sub-label [B[x]] has no integer between its brackets, the
    sub-label [B[5] has nothing between its [[] and its last character,
    and neither has [B[]]. *)
Lemma process_compound_label_raises_witness :
  Tsv.process_compound_label "A[3]|B[x]" = None
  /\ Tsv.process_compound_label "A[3]|B[5" = None
  /\ Tsv.process_compound_label "A[3]|B[]" = None.
Proof.
  split; [|split]; apply process_compound_label_raises.
  - exists "B[x]", "x".
    split; [right; left; reflexivity|].
    split; [reflexivity | apply int_raises; reflexivity].
  - exists "B[5", "".
    split; [right; left; reflexivity|].
    split; [reflexivity | apply int_raises; reflexivity].
  - exists "B[]", "".
    split; [right; left; reflexivity|].
    split; [reflexivity | apply int_raises; reflexivity].
Defined.

End CompoundLabel.

(** ** The offset normaliser *)

Section OffsetNormalizer.

Lemma split_not_nil (c : ascii) (s : string) : Py.split c s <> [].
Proof.
  destruct s as [|a r]; simpl; [discriminate|].
  destruct (Ascii.eqb a c); [discriminate|].
  destruct (Py.split c r); discriminate.
Qed.

Lemma compound_loop_lengths (sublabels : list string) :
  forall categories ids categories' ids',
  Tsv.compound_loop sublabels categories ids = Some (categories', ids') ->
  List.length categories' = (List.length categories + List.length sublabels)%nat
  /\ List.length ids' = (List.length ids + List.length sublabels)%nat.
Proof.
  induction sublabels as [|s rest IH]; intros categories ids categories' ids' H.
  - simpl in H. injection H as <- <-. simpl. lia.
  - cbn [Tsv.compound_loop] in H.
    destruct (negb (Py.contains "[" s)).
    + apply IH in H. rewrite !length_app in H. simpl in *. lia.
    + destruct (Py.index "[" s) as [b|]; [|discriminate].
      destruct (Py.int _) as [n|]; [|discriminate].
      apply IH in H. rewrite !length_app in H. simpl in *. lia.
Qed.

(** A parsed label has as many ids as categories, and at least one. *)
Lemma process_compound_label_lengths (label : string) categories ids :
  Tsv.process_compound_label label = Some (categories, ids) ->
  List.length categories = List.length ids /\ ids <> [].
Proof.
  unfold Tsv.process_compound_label. intros H.
  apply compound_loop_lengths in H. simpl in H. destruct H as [Hc Hi].
  split; [congruence|].
  pose proof (split_not_nil "|" label) as Hne.
  destruct (Py.split "|" label); [congruence|].
  destruct ids; [simpl in Hi; discriminate | discriminate].
Qed.

Lemma drop_last_app (s t : string) :
  t <> EmptyString -> Py.drop_last (s ++ t) = (s ++ Py.drop_last t)%string.
Proof.
  intros Ht. induction s as [|a r IH]; [reflexivity|].
  change (String a r ++ t)%string with (String a (r ++ t)).
  cbn [Py.drop_last]. rewrite IH.
  destruct (r ++ t)%string eqn:E; [|reflexivity].
  destruct r; simpl in E; [congruence | discriminate].
Qed.

Lemma relabel_loop_acc (pairs : list (string * Z)) (off : Z) :
  forall acc, Tsv.relabel_loop pairs off acc
              = (acc ++ Tsv.relabel_loop pairs off "")%string.
Proof.
  induction pairs as [|[c i] rest IH]; intros acc.
  - simpl. now rewrite append_nil_r.
  - cbn [Tsv.relabel_loop].
    destruct (i =? -1);
      rewrite IH; symmetry; rewrite IH; now string_assoc.
Qed.

Lemma relabel_loop_cons (p : string * Z) (rest : list (string * Z)) (off : Z) :
  Tsv.relabel_loop (p :: rest) off ""
  = ((Offset.piece off p ++ "|") ++ Tsv.relabel_loop rest off "")%string.
Proof.
  destruct p as [c i]. cbn [Tsv.relabel_loop].
  unfold Offset.piece, Offset.local_id. cbn [fst snd String.append].
  destruct (i =? -1) eqn:E.
  - apply Z.eqb_eq in E. subst i.
    rewrite relabel_loop_acc. now string_assoc.
  - rewrite relabel_loop_acc. now string_assoc.
Qed.

(** The new label with its last pipe removed is the pieces joined by
    pipes. *)
Lemma relabel_loop_join (pairs : list (string * Z)) (off : Z) :
  Py.drop_last (Tsv.relabel_loop pairs off "")
  = Py.join "|" (map (Offset.piece off) pairs).
Proof.
  induction pairs as [|p rest IH]; [reflexivity|].
  rewrite relabel_loop_cons.
  destruct rest as [|q rest'].
  - cbn [Tsv.relabel_loop map Py.join]. rewrite append_nil_r.
    apply drop_last_app_char.
  - rewrite drop_last_app.
    + rewrite IH. cbn [map Py.join]. now rewrite append_assoc.
    + rewrite relabel_loop_cons. destruct (Offset.piece off q); discriminate.
Qed.

Lemma parse_row_fields (tsv_row : string) (r : Offset.row) :
  Offset.parse_row tsv_row = Some r ->
  Tsv.row_fields tsv_row
  = Some (Offset.sent_num r, Offset.token r, Offset.label r)
  /\ (if String.eqb (Offset.label r) "_" then Offset.refs r = []
      else exists categories ids,
          Tsv.process_compound_label (Offset.label r) = Some (categories, ids)
          /\ Offset.refs r = combine categories ids
          /\ exists first, Py.item ids 0 = Some first
                           /\ hd_error (Offset.refs r)
                              = Some (hd EmptyString categories, first)).
Proof.
  unfold Offset.parse_row. intros H.
  destruct (Tsv.row_fields tsv_row) as [[[sn tk] lb]|]; [|discriminate].
  destruct (String.eqb lb "_") eqn:E.
  - injection H as <-. simpl. now rewrite E.
  - destruct (Tsv.process_compound_label lb) as [[cs ids]|] eqn:P; [|discriminate].
    injection H as <-. simpl. rewrite E. split; [reflexivity|].
    destruct (process_compound_label_lengths _ _ _ P) as [Hlen Hne].
    destruct ids as [|i ids]; [congruence|].
    destruct cs as [|c cs]; [discriminate|].
    exists (c :: cs), (i :: ids).
    split; [exact P|]. split; [reflexivity|].
    exists i. split; reflexivity.
Qed.

Lemma simplified_plain (off : Z) (r : Offset.row) :
  String.eqb (Offset.label r) "_" = true ->
  Offset.simplified off r
  = (Offset.sent_num r ++ Tsv.TAB ++ Offset.token r ++ Tsv.TAB ++ "_")%string.
Proof.
  intros E. unfold Offset.simplified, Offset.annotated. now rewrite E.
Qed.

Lemma simplified_labelled (off : Z) (r : Offset.row) :
  String.eqb (Offset.label r) "_" = false ->
  Offset.simplified off r
  = (Offset.sent_num r ++ Tsv.TAB ++ Offset.token r ++ Tsv.TAB ++
     Py.join "|" (map (Offset.piece off) (Offset.refs r)))%string.
Proof.
  intros E. unfold Offset.simplified, Offset.annotated. now rewrite E.
Qed.

(** Once the offset is set, the loop maps every remaining row with it. *)
Lemma sentence_loop_set (tsv_rows : list string) :
  forall rows acc off,
  Offset.parse_rows tsv_rows = Some rows ->
  off <> Tsv.UNSET ->
  Tsv.sentence_loop tsv_rows acc off
  = Some (acc ++ map (Offset.simplified off) rows).
Proof.
  induction tsv_rows as [|tsv_row rest IH]; intros rows acc off HP Hoff.
  - injection HP as <-. simpl. now rewrite app_nil_r.
  - cbn [Offset.parse_rows] in HP.
    destruct (Offset.parse_row tsv_row) as [r|] eqn:Hr; [|discriminate].
    destruct (Offset.parse_rows rest) as [rs|] eqn:Hrs; [|discriminate].
    injection HP as <-.
    destruct (parse_row_fields _ _ Hr) as [Hf Hl].
    cbn [Tsv.sentence_loop map]. rewrite Hf.
    destruct (String.eqb (Offset.label r) "_") eqn:E.
    + rewrite (IH rs _ off eq_refl Hoff), (simplified_plain _ _ E).
      now rewrite <- app_assoc.
    + destruct Hl as (cs & ids & HP & Hrefs & first & Hfirst & _).
      rewrite HP. pose proof Hoff as Hoff'.
      apply Z.eqb_neq in Hoff'. rewrite Hoff'.
      rewrite (IH rs _ off eq_refl Hoff), (simplified_labelled _ _ E).
      rewrite <- Hrefs, relabel_loop_join.
      now rewrite <- app_assoc.
Qed.

(** From the start, the loop maps every row with the offset of the
    sentence, provided that offset is not the value that marks it as not
    yet set. *)
Lemma sentence_loop_unset (tsv_rows : list string) :
  forall rows acc,
  Offset.parse_rows tsv_rows = Some rows ->
  Offset.first_id rows <> Some (Tsv.UNSET + 1) ->
  Tsv.sentence_loop tsv_rows acc Tsv.UNSET
  = Some (acc ++ map (Offset.simplified (Offset.offset rows)) rows).
Proof.
  induction tsv_rows as [|tsv_row rest IH]; intros rows acc HP Hid.
  - injection HP as <-. simpl. now rewrite app_nil_r.
  - cbn [Offset.parse_rows] in HP.
    destruct (Offset.parse_row tsv_row) as [r|] eqn:Hr; [|discriminate].
    destruct (Offset.parse_rows rest) as [rs|] eqn:Hrs; [|discriminate].
    injection HP as <-.
    destruct (parse_row_fields _ _ Hr) as [Hf Hl].
    cbn [Tsv.sentence_loop map]. rewrite Hf.
    destruct (String.eqb (Offset.label r) "_") eqn:E.
    + assert (Hsame : Offset.first_id (r :: rs) = Offset.first_id rs).
      { unfold Offset.first_id. cbn [find]. unfold Offset.annotated at 1.
        now rewrite E. }
      unfold Offset.offset. rewrite Hsame in *.
      fold (Offset.offset rs).
      rewrite (IH rs _ eq_refl Hid), (simplified_plain _ _ E).
      now rewrite <- app_assoc.
    + destruct Hl as (cs & ids & HP & Hrefs & first & Hfirst & Hhd).
      assert (Hthis : Offset.first_id (r :: rs) = Some first).
      { unfold Offset.first_id. cbn [find]. unfold Offset.annotated at 1.
        rewrite E. cbn [negb]. now rewrite Hhd. }
      unfold Offset.offset. rewrite Hthis in *.
      assert (Hoff : first - 1 <> Tsv.UNSET).
      { intros Heq. apply Hid. f_equal. lia. }
      rewrite HP, Z.eqb_refl, Hfirst.
      rewrite (sentence_loop_set rest rs _ (first - 1) Hrs Hoff).
      rewrite (simplified_labelled _ _ E), <- Hrefs, relabel_loop_join.
      now rewrite <- app_assoc.
Qed.

Lemma first_id_in_model (rows : list Offset.row) (id : Z) :
  Offset.ids_in_model rows -> Offset.first_id rows = Some id -> -1 <= id.
Proof.
  unfold Offset.first_id, Offset.ids_in_model. intros HF H.
  destruct (find Offset.annotated rows) as [r|] eqn:Hfind; [|discriminate].
  apply find_some in Hfind as [Hin _].
  rewrite Forall_forall in HF. specialize (HF r Hin).
  destruct (Offset.refs r) as [|p ps]; [discriminate|].
  injection H as <-. now inversion HF.
Qed.

(** C4.  For the rows of a sentence that parse, with ids of the data model,
    [process_sentence] computes one offset, the first annotation id of the
    first label other than [_] minus one, and emits every row with each id
    other than the sentinel reduced by that offset and each sentinel id
    unchanged; hence the id of that first label becomes the local id 1. *)
Theorem process_sentence_offset (tsv_rows : list string)
    (rows : list Offset.row) :
  Offset.parse_rows tsv_rows = Some rows ->
  Offset.ids_in_model rows ->
  Tsv.process_sentence tsv_rows
  = Some (map (Offset.simplified (Offset.offset rows)) rows)
  /\ Offset.local_id (Offset.offset rows) (-1) = -1
  /\ (forall id, id <> -1 ->
        Offset.local_id (Offset.offset rows) id = id - Offset.offset rows)
  /\ (forall id, Offset.first_id rows = Some id -> id <> -1 ->
        Offset.offset rows = id - 1
        /\ Offset.local_id (Offset.offset rows) id = 1).
Proof.
  intros HP Hids. split; [|split; [|split]].
  - unfold Tsv.process_sentence.
    rewrite (sentence_loop_unset tsv_rows rows [] HP); [reflexivity|].
    intros H. apply (first_id_in_model _ _ Hids) in H.
    unfold Tsv.UNSET in H. lia.
  - reflexivity.
  - intros id Hid. unfold Offset.local_id.
    apply Z.eqb_neq in Hid. now rewrite Hid.
  - intros id Hfirst Hid. unfold Offset.offset, Offset.local_id.
    rewrite Hfirst. apply Z.eqb_neq in Hid. rewrite Hid.
    split; [reflexivity | lia].
Qed.

(** The sentence whose first annotated label is [Quote[5]|Cue]: the id 5
    is emitted as 1, the id 7 as 3, the sentinel as -1. *)
Lemma process_sentence_offset_witness :
  Offset.parse_rows Sample.quoted = Some Sample.quoted_rows
  /\ Offset.ids_in_model Sample.quoted_rows
  /\ Tsv.process_sentence Sample.quoted
     = Some [Sample.row ["3"; "The"; "_"];
             Sample.row ["3"; "term"; "Quote:1|Cue:-1"];
             Sample.row ["3"; "is"; "Quote:1|Term:3"]].
Proof.
  assert (HP : Offset.parse_rows Sample.quoted = Some Sample.quoted_rows)
    by reflexivity.
  assert (Hids : Offset.ids_in_model Sample.quoted_rows)
    by (repeat constructor; simpl; lia).
  split; [exact HP|]. split; [exact Hids|].
  exact (proj1 (process_sentence_offset _ _ HP Hids)).
Defined.

Lemma compound_loop_extends (sublabels : list string) :
  forall categories ids categories' ids',
  Tsv.compound_loop sublabels categories ids = Some (categories', ids') ->
  exists more, ids' = ids ++ more.
Proof.
  induction sublabels as [|s rest IH]; intros categories ids categories' ids' H.
  - simpl in H. injection H as _ <-. exists []. now rewrite app_nil_r.
  - cbn [Tsv.compound_loop] in H.
    destruct (negb (Py.contains "[" s)).
    + apply IH in H as [more ->]. exists (-1 :: more). now rewrite <- app_assoc.
    + destruct (Py.index "[" s) as [b|]; [|discriminate].
      destruct (Py.int _) as [n|]; [|discriminate].
      apply IH in H as [more ->]. exists (n :: more). now rewrite <- app_assoc.
Qed.

(** A label that starts with a bare sub-label has the sentinel as its first
    id. *)
Lemma process_compound_label_bare_first (label : string) categories ids :
  Tsv.process_compound_label label = Some (categories, ids) ->
  Py.contains "[" (hd EmptyString (Py.split "|" label)) = false ->
  Py.item ids 0 = Some (-1).
Proof.
  unfold Tsv.process_compound_label. intros H Hbare.
  pose proof (split_not_nil "|" label) as Hne.
  destruct (Py.split "|" label) as [|s rest]; [congruence|].
  cbn [hd] in Hbare. cbn [Tsv.compound_loop] in H. rewrite Hbare in H.
  cbn [negb app] in H. apply compound_loop_extends in H as [more ->].
  reflexivity.
Qed.

Lemma parse_rows_in (tsv_rows : list string) :
  forall rows r,
  Offset.parse_rows tsv_rows = Some rows -> In r rows ->
  exists tsv_row, Offset.parse_row tsv_row = Some r.
Proof.
  induction tsv_rows as [|t rest IH]; intros rows r HP Hin.
  - injection HP as <-. destruct Hin.
  - cbn [Offset.parse_rows] in HP.
    destruct (Offset.parse_row t) as [r0|] eqn:Hr; [|discriminate].
    destruct (Offset.parse_rows rest) as [rs|] eqn:Hrs; [|discriminate].
    injection HP as <-. destruct Hin as [<-|Hin].
    + now exists t.
    + now apply (IH rs).
Qed.

(** C10.  When the first label other than [_] starts with a bare sub-label,
    the offset of the sentence is computed from the sentinel and is -2:
    every id other than the sentinel is emitted increased by 2, and the
    sentinel is emitted as -1. *)
Theorem process_sentence_bare_first (tsv_rows : list string)
    (rows : list Offset.row) (r : Offset.row) :
  Offset.parse_rows tsv_rows = Some rows ->
  find Offset.annotated rows = Some r ->
  Py.contains "[" (hd EmptyString (Py.split "|" (Offset.label r))) = false ->
  Offset.first_id rows = Some (-1)
  /\ Offset.offset rows = -2
  /\ Tsv.process_sentence tsv_rows = Some (map (Offset.simplified (-2)) rows)
  /\ Offset.local_id (-2) (-1) = -1
  /\ (forall id, id <> -1 -> Offset.local_id (-2) id = id + 2).
Proof.
  intros HP Hfind Hbare.
  assert (Hfirst : Offset.first_id rows = Some (-1)).
  { unfold Offset.first_id. rewrite Hfind.
    pose proof (find_some _ _ Hfind) as [Hin Hann].
    destruct (parse_rows_in _ _ _ HP Hin) as [t Ht].
    destruct (parse_row_fields _ _ Ht) as [_ Hl].
    unfold Offset.annotated in Hann.
    destruct (String.eqb (Offset.label r) "_"); [discriminate|].
    destruct Hl as (cs & ids & Hparse & _ & first & Hitem & ->).
    rewrite (process_compound_label_bare_first _ _ _ Hparse Hbare) in Hitem.
    now injection Hitem as <-. }
  assert (Hoff : Offset.offset rows = -2)
    by (unfold Offset.offset; now rewrite Hfirst).
  split; [exact Hfirst|]. split; [exact Hoff|]. split; [|split].
  - unfold Tsv.process_sentence.
    rewrite (sentence_loop_unset tsv_rows rows [] HP).
    + now rewrite Hoff.
    + rewrite Hfirst. discriminate.
  - reflexivity.
  - intros id Hid. unfold Offset.local_id.
    apply Z.eqb_neq in Hid. rewrite Hid. lia.
Qed.

(** The sentence whose first annotated label is [Cue|Quote[9]]: the id 9 is
    emitted as 11. *)
Lemma process_sentence_bare_first_witness :
  Offset.parse_rows Sample.bare_first = Some Sample.bare_first_rows
  /\ find Offset.annotated Sample.bare_first_rows
     = Some (Offset.mkRow "4" "said" "Cue|Quote[9]" [("Cue", -1); ("Quote", 9)])
  /\ Tsv.process_sentence Sample.bare_first
     = Some [Sample.row ["4"; "So"; "_"];
             Sample.row ["4"; "said"; "Cue:-1|Quote:11"];
             Sample.row ["4"; "it"; "Quote:11"]].
Proof.
  assert (HP : Offset.parse_rows Sample.bare_first = Some Sample.bare_first_rows)
    by reflexivity.
  split; [exact HP|]. split; [reflexivity|].
  exact (proj1 (proj2 (proj2
    (process_sentence_bare_first _ _ _ HP eq_refl eq_refl)))).
Defined.

End OffsetNormalizer.

(** ** The two-phase order of the aggregation *)

Section SpanFacts.

Context {K : Type}.
Variable eqb : K -> K -> bool.
Hypothesis eqb_eq : forall a b, eqb a b = true <-> a = b.

Lemma eqb_refl (a : K) : eqb a a = true.
Proof. now apply eqb_eq. Qed.

Lemma eqb_sym (a b : K) : eqb a b = eqb b a.
Proof.
  destruct (eqb a b) eqn:E1, (eqb b a) eqn:E2; try reflexivity.
  - apply eqb_eq in E1. subst. now rewrite eqb_refl in E2.
  - apply eqb_eq in E2. subst. now rewrite eqb_refl in E1.
Qed.

Lemma existsb_eqb_In (k : K) (l : list K) :
  existsb (fun k' => eqb k' k) l = true <-> In k l.
Proof.
  rewrite existsb_exists. split.
  - intros (k' & Hin & E). apply eqb_eq in E. now subst.
  - intros Hin. exists k. split; [exact Hin | apply eqb_refl].
Qed.

(** *** Dictionaries built by mapping over their keys *)

Lemma get_map (f : K -> Tsv.entry) (l : list K) (k : K) :
  Dict.get eqb (map (fun k' => (k', f k')) l) k
  = if existsb (fun k' => eqb k' k) l then Some (f k) else None.
Proof.
  induction l as [|a l IH]; [reflexivity|].
  cbn [map Dict.get existsb]. destruct (eqb a k) eqn:E; cbn [orb].
  - apply eqb_eq in E. now subst.
  - exact IH.
Qed.

Lemma set_map_absent (g : K -> K * Tsv.entry) (l : list K) (k : K) v :
  (forall k', fst (g k') = k') ->
  ~ In k l ->
  Dict.set eqb (map g l) k v = map g l ++ [(k, v)].
Proof.
  intros Hg. induction l as [|a l IH]; intros Hin; [reflexivity|].
  cbn [map Dict.set]. destruct (g a) as [ka va] eqn:Ega.
  assert (ka = a) by (rewrite <- (Hg a), Ega; reflexivity). subst ka.
  destruct (eqb a k) eqn:E.
  - apply eqb_eq in E. subst. exfalso. apply Hin. now left.
  - cbn [app]. f_equal. apply IH. intros H. apply Hin. now right.
Qed.

Lemma set_map_present (f : K -> Tsv.entry) (l : list K) (k : K) v :
  NoDup l -> In k l ->
  Dict.set eqb (map (fun k' => (k', f k')) l) k v
  = map (fun k' => (k', if eqb k' k then v else f k')) l.
Proof.
  induction l as [|a l IH]; intros Hnd Hin; [destruct Hin|].
  inversion Hnd as [|a' l' Ha Hl]; subst.
  cbn [map Dict.set]. destruct (eqb a k) eqn:E.
  - apply eqb_eq in E. subst a. f_equal.
    apply map_ext_in. intros k' Hk'.
    destruct (eqb k' k) eqn:E'; [|reflexivity].
    apply eqb_eq in E'. subst. contradiction.
  - f_equal. apply IH; [exact Hl|].
    destruct Hin as [->|Hin]; [|exact Hin].
    now rewrite eqb_refl in E.
Qed.

(** *** First occurrences *)

Lemma first_occurrences_In (k : K) (ks : list K) :
  In k (Span.first_occurrences eqb ks) <-> In k ks.
Proof.
  induction ks as [|a ks IH]; [reflexivity|].
  cbn [Span.first_occurrences]. split.
  - intros [->|Hin]; [now left|].
    apply filter_In in Hin as [Hin _]. right. now apply IH.
  - intros [->|Hin]; [now left|].
    destruct (eqb k a) eqn:E.
    + apply eqb_eq in E. subst. now left.
    + right. apply filter_In. split; [now apply IH | now rewrite E].
Qed.

Lemma first_occurrences_NoDup (ks : list K) :
  NoDup (Span.first_occurrences eqb ks).
Proof.
  induction ks as [|a ks IH]; [constructor|].
  cbn [Span.first_occurrences]. constructor.
  - intros Hin. apply filter_In in Hin as [_ E].
    now rewrite eqb_refl in E.
  - now apply NoDup_filter.
Qed.

Lemma first_occurrences_snoc (ks : list K) (k : K) :
  Span.first_occurrences eqb (ks ++ [k])
  = Span.first_occurrences eqb ks
    ++ (if existsb (fun k' => eqb k' k) ks then [] else [k]).
Proof.
  induction ks as [|a ks IH]; [reflexivity|].
  cbn [app Span.first_occurrences existsb]. rewrite IH, filter_app.
  f_equal. f_equal.
  destruct (existsb (fun k' => eqb k' k) ks).
  - now rewrite orb_true_r.
  - rewrite orb_false_r. cbn [filter]. rewrite (eqb_sym k a).
    now destruct (eqb a k).
Qed.

(** *** The spans of a stream extended by one event *)

Lemma occurrences_absent (k : K) (events : list (Span.event K)) :
  ~ In k (Span.grouped_keys events) -> Span.occurrences eqb k events = [].
Proof.
  induction events as [|[i [c|k' c]] events IH]; intros Hin.
  - reflexivity.
  - apply IH. exact Hin.
  - unfold Span.occurrences, Span.grouped_keys in *. cbn [flat_map app] in *.
    destruct (eqb k' k) eqn:E.
    + apply eqb_eq in E. subst. exfalso. apply Hin. now left.
    + apply IH. intros H. apply Hin. now right.
Qed.

Lemma occurrences_present (k : K) (events : list (Span.event K)) :
  In k (Span.grouped_keys events) -> Span.occurrences eqb k events <> [].
Proof.
  induction events as [|[i [c|k' c]] events IH]; intros Hin.
  - destruct Hin.
  - apply IH. exact Hin.
  - unfold Span.occurrences, Span.grouped_keys in *. cbn [flat_map app] in *.
    destruct (eqb k' k) eqn:E; [discriminate|].
    apply IH. destruct Hin as [->|Hin]; [|exact Hin].
    now rewrite eqb_refl in E.
Qed.

Lemma occurrences_app (k : K) (e1 e2 : list (Span.event K)) :
  Span.occurrences eqb k (e1 ++ e2)
  = Span.occurrences eqb k e1 ++ Span.occurrences eqb k e2.
Proof. apply flat_map_app. Qed.

Lemma group_span_other (k k' : K) (events : list (Span.event K)) i c :
  eqb k k' = false ->
  Span.group_span eqb k' (events ++ [(i, Span.Grouped k c)])
  = Span.group_span eqb k' events.
Proof.
  intros E. unfold Span.group_span. rewrite occurrences_app.
  unfold Span.occurrences at 2. cbn [flat_map]. rewrite E.
  now rewrite !app_nil_r.
Qed.

Lemma group_span_standalone (k : K) (events : list (Span.event K)) i c :
  Span.group_span eqb k (events ++ [(i, Span.Standalone c)])
  = Span.group_span eqb k events.
Proof.
  unfold Span.group_span. rewrite occurrences_app.
  unfold Span.occurrences at 2. cbn [flat_map].
  now rewrite !app_nil_r.
Qed.

Lemma group_span_first (k : K) (events : list (Span.event K)) i c :
  ~ In k (Span.grouped_keys events) ->
  Span.group_span eqb k (events ++ [(i, Span.Grouped k c)]) = (c, i, i).
Proof.
  intros Hin. unfold Span.group_span.
  rewrite occurrences_app, (occurrences_absent _ _ Hin).
  unfold Span.occurrences. cbn [flat_map]. now rewrite eqb_refl.
Qed.

Lemma group_span_again (k : K) (events : list (Span.event K)) i c :
  In k (Span.grouped_keys events) ->
  Span.group_span eqb k (events ++ [(i, Span.Grouped k c)])
  = Tsv.set_end (Span.group_span eqb k events) i.
Proof.
  intros Hin. unfold Span.group_span. rewrite occurrences_app.
  pose proof (occurrences_present _ _ Hin) as Hne.
  destruct (Span.occurrences eqb k events) as [|[i0 c0] later]; [congruence|].
  unfold Span.occurrences. cbn [flat_map app]. rewrite eqb_refl.
  cbn [app Tsv.set_end]. rewrite map_app. cbn [map fst].
  now rewrite last_last.
Qed.

Lemma standalone_spans_snoc (events : list (Span.event K)) (ev : Span.event K) :
  Span.standalone_spans (events ++ [ev])
  = Span.standalone_spans events ++ Span.standalone_spans [ev].
Proof. apply flat_map_app. Qed.

Lemma grouped_keys_snoc (events : list (Span.event K)) (ev : Span.event K) :
  Span.grouped_keys (events ++ [ev])
  = Span.grouped_keys events ++ Span.grouped_keys [ev].
Proof. apply flat_map_app. Qed.

(** One more event changes the accumulator as a step of the scan does. *)
Lemma accumulator_snoc (events : list (Span.event K)) (ev : Span.event K) :
  Span.step eqb (Span.standalone_spans events, Span.accumulator eqb events) ev
  = (Span.standalone_spans (events ++ [ev]),
     Span.accumulator eqb (events ++ [ev])).
Proof.
  rewrite standalone_spans_snoc. unfold Span.accumulator at 2.
  rewrite grouped_keys_snoc.
  destruct ev as [i [c|k c]]; cbn [Span.step].
  - unfold Span.accumulator, Span.standalone_spans at 3, Span.grouped_keys at 3.
    cbn [flat_map]. rewrite !app_nil_r.
    f_equal. apply map_ext. intros k. now rewrite group_span_standalone.
  - unfold Span.accumulator at 1. rewrite get_map.
    unfold Span.standalone_spans at 4, Span.grouped_keys at 3.
    cbn [flat_map]. rewrite !app_nil_r.
    unfold Span.accumulator. rewrite first_occurrences_snoc.
    destruct (existsb (fun k' => eqb k' k)
                (Span.first_occurrences eqb (Span.grouped_keys events))) eqn:Hex.
    + apply existsb_eqb_In in Hex.
      apply (proj1 (first_occurrences_In _ _)) in Hex.
      assert (Hex' : existsb (fun k' => eqb k' k) (Span.grouped_keys events) = true)
        by now apply existsb_eqb_In.
      rewrite Hex', app_nil_r. f_equal.
      rewrite set_map_present;
        [|apply first_occurrences_NoDup | now apply first_occurrences_In].
      apply map_ext. intros k'. f_equal.
      destruct (eqb k' k) eqn:E.
      * apply eqb_eq in E. subst k'. symmetry. now apply group_span_again.
      * symmetry. apply group_span_other. now rewrite eqb_sym.
    + assert (Hnin : ~ In k (Span.grouped_keys events)).
      { intros Hin. apply (proj2 (first_occurrences_In _ _)) in Hin.
        apply (proj2 (existsb_eqb_In _ _)) in Hin. congruence. }
      assert (Hex' : existsb (fun k' => eqb k' k) (Span.grouped_keys events) = false).
      { destruct (existsb _ (Span.grouped_keys events)) eqn:E; [|reflexivity].
        apply existsb_eqb_In in E. contradiction. }
      rewrite Hex'. f_equal.
      rewrite (set_map_absent (fun k0 => (k0, Span.group_span eqb k0 events)));
        [|reflexivity | now rewrite first_occurrences_In].
      rewrite map_app. cbn [map]. rewrite (group_span_first _ _ _ _ Hnin).
      f_equal. apply map_ext_in. intros k' Hk'. f_equal.
      symmetry. apply group_span_other.
      destruct (eqb k k') eqn:E; [|reflexivity].
      apply eqb_eq in E. subst k'.
      apply (proj1 (first_occurrences_In _ _)) in Hk'. contradiction.
Qed.

(** The scan of a stream ends with the standalone spans emitted and the
    grouped spans in the accumulator. *)
Lemma fold_step_spec (events : list (Span.event K)) :
  fold_left (Span.step eqb) events ([], [])
  = (Span.standalone_spans events, Span.accumulator eqb events).
Proof.
  induction events as [|ev events IH] using rev_ind; [reflexivity|].
  rewrite fold_left_app. cbn [fold_left]. rewrite IH.
  apply accumulator_snoc.
Qed.

(** The aggregation of a stream is the standalone spans in scan order
    followed by the grouped spans in the order of the first occurrence of
    their keys. *)
Lemma aggregate_two_phase (events : list (Span.event K)) :
  Span.aggregate eqb events = Span.two_phase eqb events.
Proof.
  unfold Span.aggregate, Span.two_phase. rewrite fold_step_spec.
  unfold Span.accumulator, Span.grouped_spans, Dict.values.
  now rewrite map_map.
Qed.

End SpanFacts.

(** ** [Sentence.get_annotations] aggregates the stream of its annotator *)

Section DocAggregation.

Lemma get_lift (d : Dict.t Z Tsv.entry) (k : Z) :
  Dict.get Z.eqb (DocStream.lift d) k
  = option_map DocStream.of_triple (Dict.get Z.eqb d k).
Proof.
  induction d as [|[k' v] d IH]; [reflexivity|].
  cbn [DocStream.lift map Dict.get fst snd].
  destruct (k' =? k); [reflexivity | exact IH].
Qed.

Lemma set_lift (d : Dict.t Z Tsv.entry) (k : Z) (v : Tsv.entry) :
  Dict.set Z.eqb (DocStream.lift d) k (DocStream.of_triple v)
  = DocStream.lift (Dict.set Z.eqb d k v).
Proof.
  induction d as [|[k' v'] d IH]; [reflexivity|].
  cbn [DocStream.lift map Dict.set fst snd].
  destruct (k' =? k); [reflexivity|].
  cbn [map fst snd]. f_equal. exact IH.
Qed.

Lemma values_lift (d : Dict.t Z Tsv.entry) :
  Dict.values (DocStream.lift d) = map DocStream.of_triple (Dict.values d).
Proof.
  unfold Dict.values, DocStream.lift. rewrite !map_map. reflexivity.
Qed.

Lemma with_end_of_triple (e : Tsv.entry) (i : Z) :
  Doc.with_end (DocStream.of_triple e) i = DocStream.of_triple (Tsv.set_end e i).
Proof. now destruct e as [[c s] e]. Qed.

Lemma doc_token_loop (annotator : string) (token : Doc.Token)
    (tas : list Doc.TokenAnnotation) :
  forall st,
  Doc.token_loop annotator token tas (fst (DocStream.state st)) (snd (DocStream.state st))
  = DocStream.state
      (fold_left (Span.step Z.eqb)
         (map (fun ta => (Doc.t_id token, DocStream.ref_of ta))
            (filter (DocStream.by_annotator annotator) tas)) st).
Proof.
  induction tas as [|ta tas IH]; intros [anns d]; [reflexivity|].
  cbn [Doc.token_loop filter]. unfold DocStream.by_annotator at 1.
  destruct (String.eqb (Doc.ta_annotator ta) annotator); [|apply IH].
  cbn [map fold_left]. unfold DocStream.ref_of at 2.
  destruct (Doc.ta_id ta =? -1).
  - cbn [Span.step]. rewrite <- IH. cbn [DocStream.state fst snd].
    now rewrite map_app.
  - cbn [Span.step DocStream.state fst snd]. rewrite get_lift.
    destruct (Dict.get Z.eqb d (Doc.ta_id ta)) as [e|]; cbn [option_map].
    + rewrite with_end_of_triple, set_lift. apply (IH (anns, _)).
    + change (Doc.new_annotation (Doc.ta_category ta) (Doc.t_id token)
                (Doc.t_id token))
        with (DocStream.of_triple
                (Doc.ta_category ta, Doc.t_id token, Doc.t_id token)).
      rewrite set_lift. apply (IH (anns, _)).
Qed.

Lemma doc_scan (annotator : string) (tokens : list Doc.Token) :
  forall st,
  Doc.scan annotator tokens (fst (DocStream.state st)) (snd (DocStream.state st))
  = DocStream.state
      (fold_left (Span.step Z.eqb)
         (flat_map (DocStream.token_events annotator) tokens) st).
Proof.
  induction tokens as [|token tokens IH]; intros st; [reflexivity|].
  cbn [Doc.scan flat_map]. rewrite doc_token_loop, fold_left_app.
  fold (DocStream.token_events annotator token).
  rewrite <- IH.
  now destruct (DocStream.state _) as [anns d].
Qed.

(** The result of [Sentence.get_annotations] is the aggregation of the
    stream of the annotator. *)
Lemma doc_get_annotations_aggregate (self : Doc.Sentence) (annotator : string) :
  Doc.get_annotations self annotator
  = map DocStream.of_triple
      (Span.aggregate Z.eqb (DocStream.stream self annotator)).
Proof.
  unfold Doc.get_annotations, Span.aggregate, DocStream.stream.
  pose proof (doc_scan annotator (Doc.s_tokens self) ([], [])) as H.
  cbn [DocStream.state fst snd map DocStream.lift] in H. rewrite H.
  destruct (fold_left _ _ _) as [anns d].
  cbn [DocStream.state fst snd]. now rewrite map_app, values_lift.
Qed.

Lemma triple_of_triple (e : Tsv.entry) :
  DocStream.triple (DocStream.of_triple e) = e.
Proof. now destruct e as [[c s] e]. Qed.

Lemma doc_get_annotations_triples (self : Doc.Sentence) (annotator : string) :
  map DocStream.triple (Doc.get_annotations self annotator)
  = Span.two_phase Z.eqb (DocStream.stream self annotator).
Proof.
  rewrite doc_get_annotations_aggregate, map_map.
  rewrite (map_ext _ (fun e => e) triple_of_triple), map_id.
  apply aggregate_two_phase. exact Z.eqb_eq.
Qed.

End DocAggregation.

(** ** [get_annotations] aggregates the stream of its labels *)

Section TsvAggregation.

Lemma tsv_token_loop (token_annotations : list string) (i : Z) :
  forall anns d,
  option_map (pair anns) (Tsv.token_loop token_annotations i d)
  = option_map
      (fun refs => fold_left (Span.step String.eqb) (map (pair i) refs) (anns, d))
      (TsvStream.sublabel_refs token_annotations).
Proof.
  induction token_annotations as [|annotation rest IH]; intros anns d.
  - reflexivity.
  - cbn [Tsv.token_loop TsvStream.sublabel_refs].
    destruct (Py.split ":" annotation) as [|category [|index [|x xs]]];
      try reflexivity.
    destruct (Py.int index) as [n|]; [|reflexivity].
    destruct (Dict.get String.eqb d annotation) as [e|] eqn:G.
    + rewrite IH.
      destruct (TsvStream.sublabel_refs rest) as [refs|]; [|reflexivity].
      cbn [option_map map fold_left Span.step]. now rewrite G.
    + rewrite IH.
      destruct (TsvStream.sublabel_refs rest) as [refs|]; [|reflexivity].
      cbn [option_map map fold_left Span.step]. now rewrite G.
Qed.

Lemma tsv_scan (sentence : list (list string)) (col : Z) :
  forall i anns d,
  option_map fst (Tsv.scan sentence col i anns d)
  = option_map (fun events => fold_left (Span.step String.eqb) events (anns, d))
      (TsvStream.stream_from sentence col i).
Proof.
  induction sentence as [|token rest IH]; intros i anns d; [reflexivity|].
  cbn [Tsv.scan TsvStream.stream_from].
  destruct (Py.item token col) as [label|]; [|reflexivity].
  destruct (Py.contains "*" label); [reflexivity|].
  unfold TsvStream.label_refs.
  destruct (String.eqb label "_").
  - rewrite IH.
    now destruct (TsvStream.stream_from rest col (i + 1)).
  - destruct (Py.contains "-1" label).
    + destruct (Py.index ":" label) as [colon|]; [|reflexivity].
      rewrite IH.
      now destruct (TsvStream.stream_from rest col (i + 1)).
    + pose proof (tsv_token_loop (Py.split "|" label) i anns d) as Ht.
      destruct (TsvStream.sublabel_refs (Py.split "|" label)) as [refs|];
        destruct (Tsv.token_loop (Py.split "|" label) i d) as [d'|];
        try discriminate; [|reflexivity].
      cbn [option_map] in Ht. injection Ht as Ht.
      rewrite IH.
      destruct (TsvStream.stream_from rest col (i + 1)) as [events|];
        [|reflexivity].
      cbv beta iota delta [option_map]. rewrite fold_left_app.
      apply f_equal, (f_equal (fold_left _ events)). exact Ht.
Qed.

(** The result of [get_annotations] is the aggregation of the stream read
    from the labels, and there is no result exactly when reading them
    raises. *)
Lemma tsv_get_annotations_aggregate (sentence : list (list string)) (col : Z) :
  Tsv.get_annotations sentence col
  = option_map (Span.aggregate String.eqb) (TsvStream.stream sentence col).
Proof.
  unfold Tsv.get_annotations, Tsv.get_annotations_run, TsvStream.stream,
    Span.aggregate.
  pose proof (tsv_scan sentence col 0 [] []) as H.
  destruct (Tsv.scan sentence col 0 [] []) as [[[anns d] printed]|];
    destruct (TsvStream.stream_from sentence col 0) as [events|];
    try discriminate; [|reflexivity].
  cbn [option_map fst] in *. injection H as H.
  cbv beta iota delta [option_map]. apply f_equal.
  match goal with
  | |- _ = (let '(_, _) := ?t in _) => replace t with (anns, d) by exact H
  end.
  reflexivity.
Qed.

Lemma string_eqb_eq (a b : string) : String.eqb a b = true <-> a = b.
Proof. apply String.eqb_eq. Qed.

Lemma tsv_get_annotations_two_phase (sentence : list (list string)) (col : Z) :
  Tsv.get_annotations sentence col
  = option_map (Span.two_phase String.eqb) (TsvStream.stream sentence col).
Proof.
  rewrite tsv_get_annotations_aggregate.
  destruct (TsvStream.stream sentence col) as [events|]; [|reflexivity].
  cbn [option_map]. f_equal. apply aggregate_two_phase. exact string_eqb_eq.
Qed.

(** *** The marker *)

(** A token whose label contains the marker ends the scan: the tokens after
    it are not read, and it is the token that is printed. *)
Lemma scan_marker (pre post : list (list string)) (token : list string)
    (col : Z) (label : string) :
  TsvStream.has_marker pre col = false ->
  Py.item token col = Some label ->
  Py.contains "*" label = true ->
  forall i anns d,
  Tsv.scan (pre ++ token :: post) col i anns d
  = option_map (fun st => (fst st, [token])) (Tsv.scan pre col i anns d).
Proof.
  intros Hpre Hitem Hstar.
  induction pre as [|t pre IH]; intros i anns d.
  - cbn [app Tsv.scan option_map fst]. now rewrite Hitem, Hstar.
  - cbn [TsvStream.has_marker existsb] in Hpre.
    apply orb_false_iff in Hpre as [Ht Hpre].
    unfold TsvStream.marked in Ht.
    cbn [app Tsv.scan].
    destruct (Py.item t col) as [l|]; [|reflexivity].
    rewrite Ht.
    destruct (String.eqb l "_"); [now apply IH|].
    destruct (Py.contains "-1" l).
    + destruct (Py.index ":" l); [now apply IH | reflexivity].
    + destruct (Tsv.token_loop (Py.split "|" l) i d); [now apply IH | reflexivity].
Qed.

Lemma stream_marker (pre post : list (list string)) (token : list string)
    (col : Z) (label : string) :
  Py.item token col = Some label ->
  Py.contains "*" label = true ->
  forall i,
  TsvStream.stream_from (pre ++ token :: post) col i
  = TsvStream.stream_from pre col i.
Proof.
  intros Hitem Hstar.
  induction pre as [|t pre IH]; intros i.
  - cbn [app TsvStream.stream_from]. now rewrite Hitem, Hstar.
  - cbn [app TsvStream.stream_from].
    destruct (Py.item t col) as [l|]; [|reflexivity].
    destruct (Py.contains "*" l); [reflexivity|].
    destruct (TsvStream.label_refs l); [|reflexivity].
    now rewrite IH.
Qed.

End TsvAggregation.

(** ** The order of the output *)

Section Ordering.

Lemma references_without_marker (sentence : list (list string)) (col : Z) :
  TsvStream.has_marker sentence col = false ->
  forall i,
  TsvStream.stream_from sentence col i = TsvStream.references_from sentence col i.
Proof.
  induction sentence as [|token rest IH]; intros H i; [reflexivity|].
  cbn [TsvStream.has_marker existsb] in H.
  apply orb_false_iff in H as [Ht Hrest].
  unfold TsvStream.marked in Ht.
  cbn [TsvStream.stream_from TsvStream.references_from].
  destruct (Py.item token col) as [label|]; [|reflexivity].
  rewrite Ht, (IH Hrest). reflexivity.
Qed.

(** C2.  [Sentence.get_annotations] returns, for every sentence, the
    standalone spans in scan order followed by the grouped spans in the
    order in which their ids first occur, and both aggregators return
    [(Cue,0,0), (Cue,3,3), (Quote,1,2)] on the stream of the specification.
    [get_annotations] breaks the order on a sentence without marker in
    which a label combines a standalone reference with a grouped one: on
    the rows that [process_sentence] writes for the labels [Cue|Quote[1]]
    and [Quote[1]], whose references give [(Cue,0,0), (Quote,0,1)], it
    returns [(Cue,0,0), (Quote,1,1)], the group opening one token late. *)
Theorem mixed_label_breaks_order :
  (forall self annotator,
     map DocStream.triple (Doc.get_annotations self annotator)
     = Span.two_phase Z.eqb (DocStream.stream self annotator))
  /\ map DocStream.triple (Doc.get_annotations Sample.cue_quote "alice")
     = [("Cue", 0, 0); ("Cue", 3, 3); ("Quote", 1, 2)]
  /\ Tsv.get_annotations Sample.cue_quote_rows 2
     = Some [("Cue", 0, 0); ("Cue", 3, 3); ("Quote", 1, 2)]
  /\ Tsv.process_sentence Sample.mixed_then_grouped_raw
     = Some (map Sample.row Sample.mixed_then_grouped_rows)
  /\ Render.equivalent Sample.mixed_then_grouped_rows 2
       Sample.mixed_then_grouped "alice"
  /\ TsvStream.has_marker Sample.mixed_then_grouped_rows 2 = false
  /\ map DocStream.triple (Doc.get_annotations Sample.mixed_then_grouped "alice")
     = [("Cue", 0, 0); ("Quote", 0, 1)]
  /\ Span.two_phase String.eqb
       (Render.row_events "alice" (Doc.s_tokens Sample.mixed_then_grouped))
     = [("Cue", 0, 0); ("Quote", 0, 1)]
  /\ Tsv.get_annotations Sample.mixed_then_grouped_rows 2
     = Some [("Cue", 0, 0); ("Quote", 1, 1)].
Proof.
  split; [apply doc_get_annotations_triples|].
  split; [reflexivity|]. split; [reflexivity|]. split; [reflexivity|].
  split; [repeat constructor|].
  split; [reflexivity|]. split; [reflexivity|]. split; reflexivity.
Qed.

(** C5.  When a token's label contains the marker and no earlier one does,
    the scan stops there: the token is printed, no later token is read, and
    the result is the one of the tokens before it, that is their standalone
    spans followed by their grouped spans, which end where they ended
    before the marker. *)
Theorem marker_truncates (pre post : list (list string)) (token : list string)
    (col : Z) (label : string) :
  TsvStream.has_marker pre col = false ->
  Py.item token col = Some label ->
  Py.contains "*" label = true ->
  Tsv.get_annotations_run (pre ++ token :: post) col
  = option_map (fun r => (fst r, [token])) (Tsv.get_annotations_run pre col)
  /\ Tsv.get_annotations (pre ++ token :: post) col
     = Tsv.get_annotations pre col
  /\ Tsv.get_annotations (pre ++ token :: post) col
     = option_map (Span.two_phase String.eqb) (TsvStream.references pre col).
Proof.
  intros Hpre Hitem Hstar.
  assert (Hrun : Tsv.get_annotations_run (pre ++ token :: post) col
                 = option_map (fun r => (fst r, [token]))
                     (Tsv.get_annotations_run pre col)).
  { unfold Tsv.get_annotations_run.
    rewrite (scan_marker pre post token col label Hpre Hitem Hstar).
    now destruct (Tsv.scan pre col 0 [] []) as [[[anns d] printed]|]. }
  assert (Hsame : Tsv.get_annotations (pre ++ token :: post) col
                  = Tsv.get_annotations pre col).
  { unfold Tsv.get_annotations. rewrite Hrun.
    now destruct (Tsv.get_annotations_run pre col) as [[spans printed]|]. }
  split; [exact Hrun|]. split; [exact Hsame|].
  rewrite Hsame, tsv_get_annotations_two_phase.
  unfold TsvStream.stream, TsvStream.references.
  now rewrite references_without_marker.
Qed.

(** The token after the marked one has no label column at all, and is
    not read. *)
Lemma marker_truncates_witness :
  TsvStream.has_marker [["1"; "He"; "Cue:-1"]; ["1"; "said"; "Quote:7"]] 2 = false
  /\ Py.item ["1"; "so"; "*:7"] 2 = Some "*:7"
  /\ Py.contains "*" "*:7" = true
  /\ Tsv.get_annotations_run
       [["1"; "He"; "Cue:-1"]; ["1"; "said"; "Quote:7"]; ["1"; "so"; "*:7"];
        ["1"; "again"]; ["1"; "he"; "Quote:7"]] 2
     = Some ([("Cue", 0, 0); ("Quote", 1, 1)], [["1"; "so"; "*:7"]]).
Proof.
  split; [reflexivity|]. split; [reflexivity|]. split; [reflexivity|].
  exact (proj1 (marker_truncates
                  [["1"; "He"; "Cue:-1"]; ["1"; "said"; "Quote:7"]]
                  [["1"; "again"]; ["1"; "he"; "Quote:7"]]
                  ["1"; "so"; "*:7"] 2 "*:7"
                  eq_refl eq_refl eq_refl)).
Defined.

End Ordering.

(** ** The annotator filter *)

Section AnnotatorFilter.

Lemma stream_of_view (self : Doc.Sentence) (annotator : string) :
  DocStream.stream self annotator
  = flat_map (fun p : Z * list Doc.TokenAnnotation =>
                map (fun ta => (fst p, DocStream.ref_of ta)) (snd p))
      (DocStream.view self annotator).
Proof.
  unfold DocStream.stream, DocStream.view.
  induction (Doc.s_tokens self) as [|token tokens IH]; [reflexivity|].
  cbn [flat_map map fst snd]. now rewrite IH.
Qed.

Lemma filter_idempotent {A : Type} (f : A -> bool) (l : list A) :
  filter f (filter f l) = filter f l.
Proof.
  induction l as [|a l IH]; [reflexivity|].
  cbn [filter]. destruct (f a) eqn:E; [|exact IH].
  cbn [filter]. now rewrite E, IH.
Qed.

Lemma view_restrict (self : Doc.Sentence) (annotator : string) :
  DocStream.view (DocStream.restrict self annotator) annotator
  = DocStream.view self annotator.
Proof.
  unfold DocStream.view, DocStream.restrict. cbn [Doc.s_tokens].
  rewrite map_map. apply map_ext. intros token.
  cbn [Doc.t_id Doc.t_annotations]. now rewrite filter_idempotent.
Qed.

(** C6.  [Sentence.get_annotations(a)] depends only on the annotations of
    [a]: two sentences with the same annotations of [a] on the same tokens,
    in the same order, have the same output, and the output does not change
    when the annotations of the other annotators are removed, whatever
    their ids. *)
Theorem get_annotations_by_annotator :
  (forall (s1 s2 : Doc.Sentence) (annotator : string),
     DocStream.view s1 annotator = DocStream.view s2 annotator ->
     Doc.get_annotations s1 annotator = Doc.get_annotations s2 annotator)
  /\ (forall (self : Doc.Sentence) (annotator : string),
        Doc.get_annotations self annotator
        = Doc.get_annotations (DocStream.restrict self annotator) annotator).
Proof.
  assert (H : forall s1 s2 annotator,
             DocStream.view s1 annotator = DocStream.view s2 annotator ->
             Doc.get_annotations s1 annotator = Doc.get_annotations s2 annotator).
  { intros s1 s2 annotator Hview.
    rewrite !doc_get_annotations_aggregate, !stream_of_view.
    now rewrite Hview. }
  split; [exact H|].
  intros self annotator. apply H. symmetry. apply view_restrict.
Qed.

(** Bob's annotation with alice's id 7 on the next token does not extend
    alice's span. *)
Lemma get_annotations_by_annotator_witness :
  DocStream.view Sample.alice_only "alice"
  = DocStream.view Sample.alice_and_bob "alice"
  /\ Doc.get_annotations Sample.alice_and_bob "alice"
     = [Doc.mkAnnotation "Quote" 0 0 ""].
Proof.
  split; [reflexivity|].
  exact (eq_sym (proj1 get_annotations_by_annotator
                   Sample.alice_only Sample.alice_and_bob "alice" eq_refl)).
Defined.

End AnnotatorFilter.

(** ** Spans end at or after their start *)

Section SpansOrdered.

Context {K : Type}.
Variable eqb : K -> K -> bool.

Lemma occurrences_bound (lo : Z) (k : K) (events : list (Span.event K)) :
  Forall (fun i => lo <= i) (map fst events) ->
  Forall (fun i => lo <= i) (map fst (Span.occurrences eqb k events)).
Proof.
  induction events as [|[i [c|k' c]] events IH]; intros H.
  - constructor.
  - inversion H; subst. now apply IH.
  - inversion H; subst. unfold Span.occurrences. cbn [flat_map].
    destruct (eqb k' k); cbn [app map fst].
    + constructor; [assumption | now apply IH].
    + now apply IH.
Qed.

Lemma occurrences_sorted (k : K) (events : list (Span.event K)) :
  StronglySorted Z.le (map fst events) ->
  StronglySorted Z.le (map fst (Span.occurrences eqb k events)).
Proof.
  induction events as [|[i [c|k' c]] events IH]; intros H.
  - constructor.
  - inversion H; subst. now apply IH.
  - inversion H as [|a l Hl Hi]; subst. unfold Span.occurrences. cbn [flat_map].
    destruct (eqb k' k); cbn [app map fst].
    + constructor; [now apply IH | now apply occurrences_bound].
    + now apply IH.
Qed.

Lemma last_bound (lo : Z) (l : list Z) :
  Forall (fun i => lo <= i) l -> lo <= last l lo.
Proof.
  induction l as [|a l IH]; intros H; [simpl; lia|].
  inversion H; subst. destruct l as [|b l]; [assumption|].
  change (last (a :: b :: l) lo) with (last (b :: l) lo). now apply IH.
Qed.

Lemma group_span_ordered (k : K) (events : list (Span.event K)) :
  StronglySorted Z.le (map fst events) ->
  Span.ordered (Span.group_span eqb k events).
Proof.
  intros H. apply (occurrences_sorted k) in H.
  unfold Span.group_span.
  destruct (Span.occurrences eqb k events) as [|[i c] later];
    [simpl; lia|].
  cbn [map fst] in H. inversion H; subst.
  unfold Span.ordered. now apply last_bound.
Qed.

(** The spans of a stream whose token indices never decrease are
    ordered. *)
Lemma two_phase_ordered (events : list (Span.event K)) :
  StronglySorted Z.le (map fst events) ->
  Forall Span.ordered (Span.two_phase eqb events).
Proof.
  intros H. unfold Span.two_phase. apply Forall_app. split.
  - clear H. unfold Span.standalone_spans.
    induction events as [|[i [c|k c]] events IH]; cbn [flat_map app].
    + constructor.
    + constructor; [unfold Span.ordered; lia | exact IH].
    + exact IH.
  - unfold Span.grouped_spans. apply Forall_forall. intros e He.
    apply in_map_iff in He as (k & <- & _). now apply group_span_ordered.
Qed.

End SpansOrdered.

(** A bound on every element follows from a stronger one. *)
Ltac weaken_bound H :=
  eapply Forall_impl; [|exact H]; cbv beta; intros; lia.

Section SpansOrderedSites.

Lemma sorted_app (l1 l2 : list Z) (lo : Z) :
  Forall (fun i => i = lo) l1 ->
  Forall (fun i => lo <= i) l2 ->
  StronglySorted Z.le l2 ->
  StronglySorted Z.le (l1 ++ l2).
Proof.
  intros H1 H2 H3. induction H1 as [|a l1 -> Hl1 IH]; [exact H3|].
  cbn [app]. constructor; [exact IH|].
  apply Forall_app. split; [|exact H2].
  weaken_bound Hl1.
Qed.

Lemma bound_app (l1 l2 : list Z) (lo hi : Z) :
  lo <= hi ->
  Forall (fun i => i = lo) l1 ->
  Forall (fun i => hi <= i) l2 ->
  Forall (fun i => lo <= i) (l1 ++ l2).
Proof.
  intros Hle H1 H2. apply Forall_app. split.
  - weaken_bound H1.
  - weaken_bound H2.
Qed.

Lemma indices_of_token {K A : Type} (i : Z) (f : A -> Span.ref K) (l : list A) :
  Forall (fun j => j = i) (map fst (map (fun a => (i, f a)) l)).
Proof.
  induction l; constructor; [reflexivity | assumption].
Qed.

(** The token indices of the stream of a row sentence never decrease. *)
Lemma tsv_stream_sorted (sentence : list (list string)) (col : Z) :
  forall i events,
  TsvStream.stream_from sentence col i = Some events ->
  StronglySorted Z.le (map fst events)
  /\ Forall (fun j => i <= j) (map fst events).
Proof.
  induction sentence as [|token rest IH]; intros i events H.
  - injection H as <-. split; constructor.
  - cbn [TsvStream.stream_from] in H.
    destruct (Py.item token col) as [label|]; [|discriminate].
    destruct (Py.contains "*" label).
    { injection H as <-. split; constructor. }
    destruct (TsvStream.label_refs label) as [refs|]; [|discriminate].
    destruct (TsvStream.stream_from rest col (i + 1)) as [later|] eqn:E;
      [|discriminate].
    injection H as <-. destruct (IH _ _ E) as [Hs Hb].
    rewrite map_app.
    assert (Hi : Forall (fun j => j = i) (map fst (map (pair i) refs)))
      by exact (indices_of_token i (fun r : Span.ref string => r) refs).
    split.
    + apply (sorted_app _ _ i); [exact Hi| |exact Hs].
      weaken_bound Hb.
    + apply (bound_app _ _ i (i + 1)); [lia | exact Hi | exact Hb].
Qed.

(** The token indices of the stream of a [Sentence] never decrease when the
    ids of its tokens never do. *)
Lemma doc_stream_sorted (annotator : string) (tokens : list Doc.Token) :
  StronglySorted Z.le (map Doc.t_id tokens) ->
  StronglySorted Z.le
    (map fst (flat_map (DocStream.token_events annotator) tokens)).
Proof.
  induction tokens as [|token tokens IH]; intros H; [constructor|].
  cbn [map] in H. inversion H as [|a l Hs Hb]; subst.
  cbn [flat_map]. rewrite map_app.
  apply (sorted_app _ _ (Doc.t_id token)).
  - apply indices_of_token.
  - clear IH H Hs. induction tokens as [|t ts IHt]; [constructor|].
    cbn [map] in Hb. inversion Hb as [|a l Hle Hrest]; subst.
    cbn [flat_map]. rewrite map_app.
    apply Forall_app. split.
    + pose proof (indices_of_token (K := Z) (Doc.t_id t) DocStream.ref_of
                    (filter (DocStream.by_annotator annotator)
                       (Doc.t_annotations t))) as Hi.
      weaken_bound Hi.
    + now apply IHt.
  - now apply IH.
Qed.

Lemma seq_sorted (n : nat) :
  forall a, StronglySorted Z.le (map Z.of_nat (seq a n)).
Proof.
  induction n as [|n IH]; intros a; [constructor|].
  cbn [seq map]. constructor; [apply IH|].
  apply Forall_forall. intros x Hx.
  apply in_map_iff in Hx as (y & <- & Hy). apply in_seq in Hy. lia.
Qed.

(** C8.  Every span that [get_annotations] returns ends at or after its
    start; so does every [Annotation] that [Sentence.get_annotations]
    returns when the tokens of the sentence carry the ids 0 .. N-1 in list
    order. *)
Theorem spans_ordered :
  (forall sentence col spans,
     Tsv.get_annotations sentence col = Some spans ->
     Forall Span.ordered spans)
  /\ (forall self annotator,
        DocStream.positional self ->
        Forall (fun a => Doc.a_start a <= Doc.a_end a)
          (Doc.get_annotations self annotator)).
Proof.
  split.
  - intros sentence col spans H.
    rewrite tsv_get_annotations_two_phase in H.
    destruct (TsvStream.stream sentence col) as [events|] eqn:E; [|discriminate].
    injection H as <-. apply two_phase_ordered.
    exact (proj1 (tsv_stream_sorted _ _ _ _ E)).
  - intros self annotator Hpos.
    assert (H : Forall Span.ordered
                  (map DocStream.triple (Doc.get_annotations self annotator))).
    { rewrite doc_get_annotations_triples. apply two_phase_ordered.
      apply doc_stream_sorted. rewrite Hpos. apply seq_sorted. }
    rewrite Forall_map in H. exact H.
Qed.

Lemma spans_ordered_witness :
  (Tsv.get_annotations Sample.cue_quote_rows 2
   = Some [("Cue", 0, 0); ("Cue", 3, 3); ("Quote", 1, 2)]
   /\ Forall Span.ordered [("Cue", 0, 0); ("Cue", 3, 3); ("Quote", 1, 2)])
  /\ (DocStream.positional Sample.cue_quote
      /\ Forall (fun a => Doc.a_start a <= Doc.a_end a)
           (Doc.get_annotations Sample.cue_quote "alice")).
Proof.
  split; (split; [reflexivity|]).
  - exact (proj1 spans_ordered Sample.cue_quote_rows 2 _ eq_refl).
  - exact (proj2 spans_ordered Sample.cue_quote "alice" eq_refl).
Defined.

End SpansOrderedSites.

(** ** Renaming the keys of a stream *)

Section Renaming.

Context {K1 K2 : Type}.
Variable eqb1 : K1 -> K1 -> bool.
Variable eqb2 : K2 -> K2 -> bool.
Hypothesis eqb1_eq : forall a b, eqb1 a b = true <-> a = b.
Hypothesis eqb2_eq : forall a b, eqb2 a b = true <-> a = b.
Variable f : K1 -> K2.
Hypothesis f_injective : forall a b, f a = f b -> a = b.

Lemma eqb_rename (a b : K1) : eqb2 (f a) (f b) = eqb1 a b.
Proof.
  destruct (eqb1 a b) eqn:E.
  - apply eqb1_eq in E. subst. now apply eqb2_eq.
  - destruct (eqb2 (f a) (f b)) eqn:E'; [|reflexivity].
    apply eqb2_eq, f_injective in E'. subst.
    now rewrite (proj2 (eqb1_eq b b) eq_refl) in E.
Qed.

Lemma get_rekeyed (d : Dict.t K1 Tsv.entry) (k : K1) :
  Dict.get eqb2 (Render.rekeyed f d) (f k) = Dict.get eqb1 d k.
Proof.
  induction d as [|[k' v] d IH]; [reflexivity|].
  cbn [Render.rekeyed map Dict.get fst snd]. rewrite eqb_rename.
  destruct (eqb1 k' k); [reflexivity | exact IH].
Qed.

Lemma set_rekeyed (d : Dict.t K1 Tsv.entry) (k : K1) (v : Tsv.entry) :
  Dict.set eqb2 (Render.rekeyed f d) (f k) v = Render.rekeyed f (Dict.set eqb1 d k v).
Proof.
  induction d as [|[k' v'] d IH]; [reflexivity|].
  cbn [Render.rekeyed map Dict.set fst snd]. rewrite eqb_rename.
  destruct (eqb1 k' k); [reflexivity|].
  cbn [map fst snd]. f_equal. exact IH.
Qed.

Lemma fold_rename (events : list (Span.event K1)) :
  forall anns d,
  fold_left (Span.step eqb2) (map (Render.rename f) events) (anns, Render.rekeyed f d)
  = (fst (fold_left (Span.step eqb1) events (anns, d)),
     Render.rekeyed f (snd (fold_left (Span.step eqb1) events (anns, d)))).
Proof.
  induction events as [|[i [c|k c]] events IH]; intros anns d.
  - reflexivity.
  - cbn [map fold_left Render.rename Span.step]. apply IH.
  - cbn [map fold_left Render.rename Span.step].
    rewrite get_rekeyed.
    destruct (Dict.get eqb1 d k) as [e|]; rewrite set_rekeyed; apply IH.
Qed.

(** Renaming the keys by an injective function does not change the
    aggregated spans. *)
Lemma aggregate_rename (events : list (Span.event K1)) :
  Span.aggregate eqb2 (map (Render.rename f) events)
  = Span.aggregate eqb1 events.
Proof.
  unfold Span.aggregate.
  pose proof (fold_rename events [] []) as H.
  cbn [Render.rekeyed map] in H.
  match goal with
  | |- (let '(_, _) := ?t in _) = _ => replace t with
      (fst (fold_left (Span.step eqb1) events ([], [])),
       Render.rekeyed f (snd (fold_left (Span.step eqb1) events ([], []))))
      by (symmetry; exact H)
  end.
  destruct (fold_left (Span.step eqb1) events ([], [])) as [anns d].
  cbn [fst snd]. f_equal. unfold Dict.values, Render.rekeyed.
  now rewrite map_map.
Qed.

End Renaming.

(** ** Decimal numerals *)

Section Decimal.

Lemma digits_cons (a : ascii) (s : string) (acc : Z) (b : bool) (v : Z) :
  Py.is_digit a = true -> Ascii.eqb a "_" = false -> Py.digit_value a = v ->
  Py.digits acc b (String a s) = Py.digits (10 * acc + v) true s.
Proof.
  intros Hd Hu <-. cbn [Py.digits]. now rewrite Hu, Hd.
Qed.

Ltac digit_step :=
  erewrite digits_cons by (vm_compute; reflexivity).

Lemma digits_uint (d : Decimal.uint) :
  forall acc,
  Py.digits acc true (NilEmpty.string_of_uint d) = Some (Render.uint_value acc d).
Proof.
  induction d; intros acc; cbn [NilEmpty.string_of_uint Render.uint_value];
    [reflexivity| | | | | | | | | |];
    digit_step; rewrite IHd; do 2 f_equal; lia.
Qed.

Lemma digits_uint_start (d : Decimal.uint) :
  d <> Decimal.Nil ->
  Py.digits 0 false (NilEmpty.string_of_uint d) = Some (Render.uint_value 0 d).
Proof.
  intros Hd. destruct d; [congruence| | | | | | | | | |];
    cbn [NilEmpty.string_of_uint Render.uint_value];
    digit_step; rewrite digits_uint; reflexivity.
Qed.

Lemma uint_value_acc (d : Decimal.uint) :
  forall acc, Z.pos (Pos.of_uint_acc d acc) = Render.uint_value (Z.pos acc) d.
Proof.
  induction d; intros acc; cbn [Pos.of_uint_acc Render.uint_value];
    [reflexivity| | | | | | | | | |];
    rewrite IHd; f_equal; lia.
Qed.

Lemma uint_value_of_uint (d : Decimal.uint) :
  Z.of_N (Pos.of_uint d) = Render.uint_value 0 d.
Proof.
  induction d; cbn [Pos.of_uint Render.uint_value];
    [reflexivity | exact IHd | | | | | | | | |];
    cbn [Z.of_N]; rewrite uint_value_acc; reflexivity.
Qed.

Lemma uint_value_to_uint (p : positive) :
  Render.uint_value 0 (Pos.to_uint p) = Z.pos p.
Proof.
  rewrite <- uint_value_of_uint, DecimalPos.Unsigned.of_to. reflexivity.
Qed.

Lemma string_of_uint_digits (d : Decimal.uint) :
  Render.all_chars Py.is_digit (NilEmpty.string_of_uint d) = true.
Proof.
  induction d; cbn [NilEmpty.string_of_uint Render.all_chars];
    [reflexivity| | | | | | | | | |]; rewrite IHd; reflexivity.
Qed.

Lemma all_chars_impl (p q : ascii -> bool) (s : string) :
  (forall a, p a = true -> q a = true) ->
  Render.all_chars p s = true -> Render.all_chars q s = true.
Proof.
  intros Hpq. induction s as [|a s IH]; [reflexivity|].
  cbn [Render.all_chars]. intros H. apply andb_true_iff in H as [Ha Hs].
  now rewrite (Hpq a Ha), (IH Hs).
Qed.

Lemma rstrip_no_space (s : string) :
  Render.all_chars (fun a => negb (Py.is_space a)) s = true -> Py.rstrip s = s.
Proof.
  induction s as [|a s IH]; [reflexivity|].
  cbn [Render.all_chars Py.rstrip]. intros H.
  apply andb_true_iff in H as [Ha Hs]. rewrite (IH Hs).
  apply negb_true_iff in Ha. rewrite Ha. now destruct s.
Qed.

Lemma strip_no_space (s : string) :
  Render.all_chars (fun a => negb (Py.is_space a)) s = true -> Py.strip s = s.
Proof.
  intros H. unfold Py.strip.
  assert (Hl : Py.lstrip s = s).
  { destruct s as [|a s]; [reflexivity|].
    cbn [Render.all_chars] in H. apply andb_true_iff in H as [Ha _].
    apply negb_true_iff in Ha. cbn [Py.lstrip]. now rewrite Ha. }
  rewrite Hl. now apply rstrip_no_space.
Qed.

(** [int] reads the decimal numeral of a non-negative integer. *)
Lemma int_unsigned (s : string) :
  s <> EmptyString ->
  Render.all_chars Py.is_digit s = true ->
  Py.int s = Py.digits 0 false s.
Proof.
  intros Hne Hd. unfold Py.int.
  rewrite strip_no_space.
  - destruct s as [|a rest]; [congruence|].
    cbn [Render.all_chars] in Hd. apply andb_true_iff in Hd as [Ha _].
    destruct a as [[] [] [] [] [] [] [] []];
      cbv in Ha; try discriminate Ha; reflexivity.
  - revert Hd. apply all_chars_impl. intros a Ha.
    now rewrite (digit_not_space a Ha).
Qed.

Lemma string_of_uint_nonempty (d : Decimal.uint) :
  d <> Decimal.Nil -> NilEmpty.string_of_uint d <> EmptyString.
Proof.
  destruct d; [congruence| | | | | | | | | |]; discriminate.
Qed.

Lemma str_pos (p : positive) :
  Py.str (Z.pos p) = NilEmpty.string_of_uint (Pos.to_uint p).
Proof. reflexivity. Qed.

(** [int(str(n))] is [n] for a non-negative [n]. *)
Lemma int_str (n : Z) : 0 <= n -> Py.int (Py.str n) = Some n.
Proof.
  intros Hn. destruct n as [|p|p]; [reflexivity| |lia].
  rewrite str_pos.
  pose proof (DecimalPos.Unsigned.to_uint_nonnil p) as Hnil.
  rewrite int_unsigned;
    [|now apply string_of_uint_nonempty | apply string_of_uint_digits].
  rewrite (digits_uint_start _ Hnil). f_equal. apply uint_value_to_uint.
Qed.

(** The numeral of a non-negative integer consists of digits. *)
Lemma str_digits (n : Z) :
  0 <= n -> Render.all_chars Py.is_digit (Py.str n) = true.
Proof.
  intros Hn. destruct n as [|p|p]; [reflexivity| |lia].
  rewrite str_pos. apply string_of_uint_digits.
Qed.

Lemma str_injective (n m : Z) : Py.str n = Py.str m -> n = m.
Proof.
  unfold Py.str. intros H.
  apply (f_equal NilEmpty.int_of_string) in H.
  rewrite !NilEmpty.isi in H. injection H as H.
  apply (f_equal Z.of_int) in H. now rewrite !DecimalZ.of_to in H.
Qed.

End Decimal.

(** ** Labels written from references are read back *)

Section RenderedLabels.

Lemma all_chars_free (p : ascii -> bool) (a : ascii) (s : string) :
  Render.all_chars p s = true -> p a = false ->
  Py.contains (String a EmptyString) s = false.
Proof.
  intros Hs Ha. induction s as [|b s IH]; [reflexivity|].
  cbn [Render.all_chars] in Hs. apply andb_true_iff in Hs as [Hb Hs].
  rewrite contains_char_cons, (IH Hs), orb_false_r.
  apply Ascii.eqb_neq. intros ->. congruence.
Qed.

Lemma split_free (c : ascii) (s : string) :
  Py.contains (String c EmptyString) s = false -> Py.split c s = [s].
Proof.
  induction s as [|a s IH]; intros H; [reflexivity|].
  rewrite contains_char_cons in H. apply orb_false_iff in H as [Ha Hs].
  cbn [Py.split]. now rewrite Ha, (IH Hs).
Qed.

Lemma split_app (c : ascii) (s t : string) :
  Py.contains (String c EmptyString) s = false ->
  Py.split c (s ++ String c t) = s :: Py.split c t.
Proof.
  induction s as [|a s IH]; intros H.
  - cbn [String.append Py.split]. now rewrite Ascii.eqb_refl.
  - rewrite contains_char_cons in H. apply orb_false_iff in H as [Ha Hs].
    change (String a s ++ String c t)%string with (String a (s ++ String c t)).
    cbn [Py.split]. now rewrite Ha, (IH Hs).
Qed.

Lemma split_join (c : ascii) (pieces : list string) :
  pieces <> [] ->
  Forall (fun p => Py.contains (String c EmptyString) p = false) pieces ->
  Py.split c (Py.join (String c EmptyString) pieces) = pieces.
Proof.
  induction pieces as [|p pieces IH]; intros Hne H; [congruence|].
  inversion H as [|p' l Hp Hl]; subst.
  destruct pieces as [|q pieces].
  - cbn [Py.join]. now apply split_free.
  - change (Py.join (String c "") (p :: q :: pieces))
      with (p ++ String c (Py.join (String c "") (q :: pieces)))%string.
    rewrite (split_app _ _ _ Hp), IH; [reflexivity | discriminate | exact Hl].
Qed.

Lemma contains_char_join (a c : ascii) (pieces : list string) :
  Ascii.eqb c a = false ->
  Forall (fun p => Py.contains (String a EmptyString) p = false) pieces ->
  Py.contains (String a EmptyString) (Py.join (String c EmptyString) pieces)
  = false.
Proof.
  intros Hc. induction pieces as [|p pieces IH]; intros H; [reflexivity|].
  inversion H as [|p' l Hp Hl]; subst.
  destruct pieces as [|q pieces]; [exact Hp|].
  change (Py.join (String c "") (p :: q :: pieces))
    with (p ++ String c (Py.join (String c "") (q :: pieces)))%string.
  rewrite contains_char_app, contains_char_cons, Hp, Hc, (IH Hl).
  reflexivity.
Qed.

(** A text without hyphen does not contain [-1]. *)
Lemma no_hyphen_no_sentinel (s : string) :
  Py.contains "-" s = false -> Py.contains "-1" s = false.
Proof.
  induction s as [|a s IH]; intros H; [reflexivity|].
  rewrite contains_char_cons in H. apply orb_false_iff in H as [Ha Hs].
  cbn [Py.contains String.prefix]. rewrite (IH Hs), orb_false_r.
  destruct (ascii_dec "-" a) as [<-|_]; [discriminate Ha | reflexivity].
Qed.

Lemma contains_suffix (needle s t : string) :
  Py.contains needle t = true -> Py.contains needle (s ++ t) = true.
Proof.
  intros H. induction s as [|a s IH]; [exact H|].
  change (String a s ++ t)%string with (String a (s ++ t)).
  cbn [Py.contains]. rewrite IH. apply orb_true_r.
Qed.

Lemma colon_not_blank (s : string) :
  Py.contains ":" s = true -> String.eqb s "_" = false.
Proof.
  intros H. apply String.eqb_neq. intros ->. discriminate H.
Qed.

(** The characters of a well-formed reference. *)
Lemma category_free (ta : Doc.TokenAnnotation) (a : ascii) :
  Render.well_formed ta -> Render.special a = true ->
  Py.contains (String a EmptyString) (Doc.ta_category ta) = false.
Proof.
  intros [Hc _] Ha. apply (all_chars_free _ _ _ Hc). now rewrite Ha.
Qed.

Lemma str_free (n : Z) (a : ascii) :
  0 <= n -> Py.is_digit a = false ->
  Py.contains (String a EmptyString) (Py.str n) = false.
Proof.
  intros Hn Ha. exact (all_chars_free _ _ _ (str_digits n Hn) Ha).
Qed.

Lemma reference_free (ta : Doc.TokenAnnotation) (a : ascii) :
  Render.well_formed ta -> Doc.ta_id ta <> -1 ->
  Render.special a = true -> Ascii.eqb ":" a = false ->
  Py.contains (String a EmptyString) (Render.reference ta) = false.
Proof.
  intros Hwf Hid Ha Hcolon. unfold Render.reference.
  rewrite contains_char_app, (category_free ta a Hwf Ha).
  cbn [String.append orb]. rewrite contains_char_cons, Hcolon.
  apply str_free; [destruct Hwf; lia|].
  unfold Render.special in Ha.
  repeat (apply orb_true_iff in Ha as [Ha|Ha]);
    apply Ascii.eqb_eq in Ha; subst a; reflexivity.
Qed.

Lemma reference_colon (ta : Doc.TokenAnnotation) (rest : string) :
  Py.contains ":" (Render.reference ta ++ rest) = true.
Proof.
  unfold Render.reference. rewrite append_assoc.
  apply contains_suffix. cbn [String.append].
  rewrite contains_char_cons. reflexivity.
Qed.

Lemma reference_split (ta : Doc.TokenAnnotation) :
  Render.well_formed ta -> Doc.ta_id ta <> -1 ->
  Py.split ":" (Render.reference ta)
  = [Doc.ta_category ta; Py.str (Doc.ta_id ta)].
Proof.
  intros Hwf Hid. unfold Render.reference. cbn [String.append].
  rewrite split_app by (now apply category_free).
  rewrite split_free; [reflexivity|].
  apply str_free; [destruct Hwf; lia | reflexivity].
Qed.

(** The grouped references of a token are read back one by one. *)
Lemma sublabel_refs_references (tas : list Doc.TokenAnnotation) :
  Forall Render.well_formed tas ->
  Forall (fun ta => Doc.ta_id ta <> -1) tas ->
  TsvStream.sublabel_refs (map Render.reference tas)
  = Some (map Render.row_ref tas).
Proof.
  induction tas as [|ta tas IH]; intros Hwf Hid; [reflexivity|].
  inversion Hwf as [|? ? Hwf1 Hwf2]; inversion Hid as [|? ? Hid1 Hid2]; subst.
  cbn [map TsvStream.sublabel_refs].
  rewrite (reference_split ta Hwf1 Hid1).
  rewrite int_str by (destruct Hwf1; lia).
  rewrite (IH Hwf2 Hid2). unfold Render.row_ref at 2.
  apply Z.eqb_neq in Hid1. now rewrite Hid1.
Qed.

Lemma references_free (tas : list Doc.TokenAnnotation) (a : ascii) :
  Forall Render.well_formed tas ->
  Forall (fun ta => Doc.ta_id ta <> -1) tas ->
  Render.special a = true -> Ascii.eqb ":" a = false ->
  Forall (fun p => Py.contains (String a EmptyString) p = false)
    (map Render.reference tas).
Proof.
  intros Hwf Hid Ha Hc. apply Forall_map.
  rewrite Forall_forall in *. intros ta Hin.
  apply reference_free; auto.
Qed.

(** The label of the references of a token has no marker, and
    [get_annotations] reads from it the references of the token. *)
Lemma label_refs_label_of (tas : list Doc.TokenAnnotation) :
  Forall Render.well_formed tas ->
  Render.unmixed tas ->
  Py.contains "*" (Render.label_of tas) = false
  /\ TsvStream.label_refs (Render.label_of tas) = Some (map Render.row_ref tas).
Proof.
  intros Hwf [(ta & -> & Hid)|Hid].
  - inversion Hwf as [|? ? Hwf1 _]; subst.
    cbn [Render.label_of map Py.join]. unfold Render.reference, Render.row_ref.
    rewrite Hid. cbn [Z.eqb Pos.eqb].
    change (Py.str (-1)) with "-1".
    split.
    + rewrite contains_char_app, (category_free ta "*" Hwf1 eq_refl).
      reflexivity.
    + unfold TsvStream.label_refs.
      rewrite colon_not_blank by (apply contains_suffix; reflexivity).
      rewrite (contains_suffix "-1" _ ":-1" eq_refl).
      cbn [String.append].
      rewrite index_app_absent by (now apply category_free).
      now rewrite take_app.
  - destruct tas as [|ta tas]; [split; reflexivity|].
    assert (Hlabel : Render.label_of (ta :: tas)
                     = Py.join "|" (map Render.reference (ta :: tas)))
      by reflexivity.
    rewrite Hlabel. split.
    + apply contains_char_join; [reflexivity|].
      now apply references_free.
    + unfold TsvStream.label_refs.
      rewrite colon_not_blank.
      2:{ cbn [map Py.join]. destruct (map Render.reference tas).
          - rewrite <- (append_nil_r (Render.reference ta)).
            apply reference_colon.
          - apply reference_colon. }
      rewrite no_hyphen_no_sentinel.
      2:{ apply contains_char_join; [reflexivity|].
          now apply references_free. }
      rewrite split_join; [now apply sublabel_refs_references | discriminate|].
      now apply references_free.
Qed.

End RenderedLabels.

(** ** The two aggregators on equivalent inputs *)

Section Agreement.

Variable annotator : string.

Lemma stream_of_rows (col : Z) (sentence : list (list string)) :
  forall (tokens : list Doc.Token) (start : nat),
  Forall2 (Render.carries col annotator) sentence tokens ->
  map Doc.t_id tokens = map Z.of_nat (seq start (List.length tokens)) ->
  Forall (fun t => Forall Render.well_formed (Render.on_token annotator t)) tokens ->
  Forall (fun t => Render.unmixed (Render.on_token annotator t)) tokens ->
  TsvStream.has_marker sentence col = false
  /\ TsvStream.stream_from sentence col (Z.of_nat start)
     = Some (flat_map
               (fun t => map (fun ta => (Doc.t_id t, Render.row_ref ta))
                           (Render.on_token annotator t))
               tokens).
Proof.
  induction sentence as [|row rows IH]; intros tokens start HF Hid Hwf Hun.
  - inversion HF; subst. split; reflexivity.
  - inversion HF as [|? token ? tokens' Hrow Hrows]; subst.
    inversion Hwf as [|? ? Hwf1 Hwf2]; inversion Hun as [|? ? Hun1 Hun2]; subst.
    cbn [List.length seq map] in Hid. injection Hid as Hid1 Hid2.
    destruct (label_refs_label_of _ Hwf1 Hun1) as [Hstar Hrefs].
    destruct (IH tokens' (S start) Hrows Hid2 Hwf2 Hun2) as [Hmark Hstream].
    unfold Render.carries, Render.label in Hrow.
    fold (Render.on_token annotator token) in Hrow.
    split.
    + cbn [TsvStream.has_marker existsb]. unfold TsvStream.marked.
      rewrite Hrow, Hstar. exact Hmark.
    + cbn [TsvStream.stream_from flat_map]. rewrite Hrow, Hstar, Hrefs.
      replace (Z.of_nat start + 1) with (Z.of_nat (S start)) by lia.
      rewrite Hstream, Hid1. do 2 f_equal. now rewrite map_map.
Qed.

Lemma category_of_mine (tas : list Doc.TokenAnnotation) (ta : Doc.TokenAnnotation) :
  Render.one_category tas -> In ta tas -> Doc.ta_id ta <> -1 ->
  Render.category_of tas (Doc.ta_id ta) = Doc.ta_category ta.
Proof.
  intros Hone Hin Hid. unfold Render.category_of.
  destruct (find _ tas) as [ta'|] eqn:E.
  - apply find_some in E as [Hin' Heq]. apply Z.eqb_eq in Heq.
    symmetry. now apply Hone.
  - apply (find_none _ _ E) in Hin. now rewrite Z.eqb_refl in Hin.
Qed.

Lemma category_of_free (tas : list Doc.TokenAnnotation) (id : Z) :
  Forall Render.well_formed tas ->
  Py.contains ":" (Render.category_of tas id) = false.
Proof.
  intros Hwf. unfold Render.category_of.
  destruct (find _ tas) as [ta|] eqn:E; [|reflexivity].
  apply find_some in E as [Hin _]. rewrite Forall_forall in Hwf.
  now apply category_free; [apply Hwf|].
Qed.

(** The key of a group determines its id. *)
Lemma key_injective (tas : list Doc.TokenAnnotation) (id id' : Z) :
  Forall Render.well_formed tas ->
  Render.key tas id = Render.key tas id' -> id = id'.
Proof.
  intros Hwf H. unfold Render.key in H. cbn [String.append] in H.
  pose proof (category_of_free tas id Hwf) as Hc.
  pose proof (category_of_free tas id' Hwf) as Hc'.
  assert (Hlen : String.length (Render.category_of tas id)
                 = String.length (Render.category_of tas id')).
  { pose proof (index_app_absent ":" _ (Py.str id) Hc) as H1.
    pose proof (index_app_absent ":" _ (Py.str id') Hc') as H2.
    rewrite H in H1. congruence. }
  apply (f_equal (Py.drop (String.length (Render.category_of tas id)))) in H.
  rewrite drop_app, Hlen, drop_app in H.
  injection H as H. now apply str_injective.
Qed.

Lemma row_ref_rename (tas : list Doc.TokenAnnotation)
    (ta : Doc.TokenAnnotation) (i : Z) :
  Render.one_category tas -> In ta tas ->
  (i, Render.row_ref ta)
  = Render.rename (Render.key tas) (i, DocStream.ref_of ta).
Proof.
  intros Hone Hin. unfold Render.row_ref, DocStream.ref_of.
  destruct (Doc.ta_id ta =? -1) eqn:E; [reflexivity|].
  apply Z.eqb_neq in E. cbn [Render.rename]. unfold Render.key.
  now rewrite (category_of_mine tas ta Hone Hin E).
Qed.

Lemma rows_rename (tas : list Doc.TokenAnnotation) (tokens : list Doc.Token) :
  Render.one_category tas ->
  (forall t ta, In t tokens -> In ta (Render.on_token annotator t) -> In ta tas) ->
  flat_map (fun t => map (fun ta => (Doc.t_id t, Render.row_ref ta))
                       (Render.on_token annotator t)) tokens
  = map (Render.rename (Render.key tas))
      (flat_map (DocStream.token_events annotator) tokens).
Proof.
  intros Hone Hsub. induction tokens as [|t tokens IH]; [reflexivity|].
  assert (Ht : map (fun ta => (Doc.t_id t, Render.row_ref ta))
                 (Render.on_token annotator t)
               = map (Render.rename (Render.key tas))
                   (DocStream.token_events annotator t)).
  { unfold DocStream.token_events. rewrite map_map.
    apply map_ext_in. intros ta Hin. apply row_ref_rename; [exact Hone|].
    apply (Hsub t ta); [now left | exact Hin]. }
  cbn [flat_map]. rewrite map_app, Ht, IH; [reflexivity|].
  intros t' ta Ht' Hta. apply (Hsub t' ta); [now right | exact Hta].
Qed.

Lemma forall_on_tokens (P : Doc.TokenAnnotation -> Prop) (self : Doc.Sentence) :
  Forall P (Render.mine self annotator) ->
  Forall (fun t => Forall P (Render.on_token annotator t)) (Doc.s_tokens self).
Proof.
  unfold Render.mine. induction (Doc.s_tokens self) as [|t ts IH]; intros H.
  - constructor.
  - cbn [flat_map] in H. apply Forall_app in H as [H1 H2].
    constructor; [exact H1 | now apply IH].
Qed.

(** C7, as amended.  On equivalent inputs, when the tokens carry the ids
    0 .. N-1, the categories have no special character and the ids are the
    sentinel or non-negative, no token mixes a standalone reference with
    other references, and an id goes with one category throughout the
    sentence, the two aggregators return the same triples in the same
    order; [get_annotations] groups by the text [category:id],
    [Sentence.get_annotations] by the id. *)
Theorem aggregators_agree (sentence : list (list string)) (col : Z)
    (self : Doc.Sentence) :
  Render.equivalent sentence col self annotator ->
  DocStream.positional self ->
  Forall Render.well_formed (Render.mine self annotator) ->
  Forall (fun t => Render.unmixed (Render.on_token annotator t))
    (Doc.s_tokens self) ->
  Render.one_category (Render.mine self annotator) ->
  TsvStream.has_marker sentence col = false
  /\ Tsv.get_annotations sentence col
     = Some (map DocStream.triple (Doc.get_annotations self annotator)).
Proof.
  intros Heq Hpos Hwf Hun Hone.
  destruct (stream_of_rows col sentence (Doc.s_tokens self) 0 Heq Hpos
              (forall_on_tokens _ _ Hwf) Hun) as [Hmark Hstream].
  split; [exact Hmark|].
  rewrite tsv_get_annotations_aggregate. unfold TsvStream.stream.
  change (Z.of_nat 0) with 0 in Hstream. rewrite Hstream.
  cbn [option_map]. f_equal.
  rewrite (rows_rename (Render.mine self annotator)); [|exact Hone|].
  - rewrite (aggregate_rename Z.eqb String.eqb Z.eqb_eq string_eqb_eq);
      [|intros a b; now apply key_injective].
    rewrite doc_get_annotations_aggregate, map_map.
    rewrite (map_ext _ (fun e => e) triple_of_triple), map_id.
    reflexivity.
  - intros t ta Ht Hta. unfold Render.mine. apply in_flat_map.
    exists t. split; [exact Ht | exact Hta].
Qed.

End Agreement.

Section AgreementSamples.

Lemma aggregators_agree_witness :
  Render.equivalent Sample.cue_quote_rows 2 Sample.cue_quote "alice"
  /\ Tsv.get_annotations Sample.cue_quote_rows 2
     = Some (map DocStream.triple
               (Doc.get_annotations Sample.cue_quote "alice")).
Proof.
  assert (Heq : Render.equivalent Sample.cue_quote_rows 2 Sample.cue_quote "alice")
    by (repeat constructor).
  assert (Hwf : Forall Render.well_formed (Render.mine Sample.cue_quote "alice"))
    by (repeat constructor; discriminate).
  assert (Hun : Forall (fun t => Render.unmixed (Render.on_token "alice" t))
                  (Doc.s_tokens Sample.cue_quote)).
  { constructor; [left; eexists; split; reflexivity|].
    constructor; [right; constructor; [discriminate | constructor]|].
    constructor; [right; constructor; [discriminate | constructor]|].
    constructor; [left; eexists; split; reflexivity | constructor]. }
  assert (Hone : Render.one_category (Render.mine Sample.cue_quote "alice")).
  { intros ta ta' Hin Hin' Hid Hne. simpl in Hin, Hin'.
    repeat destruct Hin as [<-|Hin]; try destruct Hin;
      repeat destruct Hin' as [<-|Hin']; try destruct Hin';
      try reflexivity; try (now elim Hne); discriminate Hid. }
  split; [exact Heq|].
  exact (proj2 (aggregators_agree "alice" _ 2 _ Heq eq_refl Hwf Hun Hone)).
Defined.

(** The claim C7 as stated fails: on the equivalent inputs in which the id 3
    goes with the category [A] on token 0 and with [B] on token 1,
    [get_annotations] returns two spans and [Sentence.get_annotations]
    one. *)
Lemma aggregators_disagree_on_shared_id :
  Render.equivalent Sample.shared_id_rows 2 Sample.shared_id "alice"
  /\ TsvStream.has_marker Sample.shared_id_rows 2 = false
  /\ Tsv.get_annotations Sample.shared_id_rows 2
     = Some [("A", 0, 0); ("B", 1, 1)]
  /\ map DocStream.triple (Doc.get_annotations Sample.shared_id "alice")
     = [("A", 0, 1)]
  /\ Tsv.get_annotations Sample.shared_id_rows 2
     <> Some (map DocStream.triple
                (Doc.get_annotations Sample.shared_id "alice")).
Proof.
  split; [repeat constructor|].
  split; [reflexivity|]. split; [reflexivity|]. split; [reflexivity|].
  discriminate.
Qed.

(** C1.  [Sentence.get_annotations] emits a span for the standalone
    reference of a token and still opens the group of its other reference;
    [get_annotations], on the row that [process_sentence] writes for the
    same token, emits the standalone span and drops the other reference,
    and when the standalone reference comes second it emits one span under
    the category of the first reference. *)
Theorem mixed_label_drops_references :
  Tsv.process_sentence [Sample.row ["1-1"; "0-4"; "said"; "_"; "Cue|Quote[1]"]]
  = Some [Sample.row ["1"; "said"; "Cue:-1|Quote:3"]]
  /\ Render.equivalent Sample.mixed_rows 2 Sample.mixed "alice"
  /\ map DocStream.triple (Doc.get_annotations Sample.mixed "alice")
     = [("Cue", 0, 0); ("Quote", 0, 0)]
  /\ Tsv.get_annotations Sample.mixed_rows 2 = Some [("Cue", 0, 0)]
  /\ Tsv.get_annotations [["1"; "said"; "Quote:3|Cue:-1"]] 2
     = Some [("Quote", 0, 0)].
Proof.
  split; [reflexivity|]. split; [repeat constructor|].
  split; [reflexivity|]. split; reflexivity.
Qed.

End AgreementSamples.

(** * Further properties of the code *)

(** ** More on the compound label parser *)

Section CompoundLabelMore.

(** X1.  When [process_compound_label] returns, its two lists have the same
    length, the number of sub-labels of the label, and are not empty: the
    first id that [process_sentence] reads always exists. *)
Theorem process_compound_label_counts (label : string)
    (categories : list string) (ids : list Z) :
  Tsv.process_compound_label label = Some (categories, ids) ->
  List.length categories = List.length (Py.split "|" label)
  /\ List.length ids = List.length (Py.split "|" label)
  /\ exists first, Py.item ids 0 = Some first.
Proof.
  intros H. pose proof H as H'.
  unfold Tsv.process_compound_label in H.
  apply compound_loop_lengths in H. cbn [List.length Nat.add] in H.
  destruct H as [Hc Hi]. split; [exact Hc|]. split; [exact Hi|].
  destruct (process_compound_label_lengths _ _ _ H') as [_ Hne].
  destruct ids as [|i ids]; [congruence|]. now exists i.
Qed.

Lemma process_compound_label_counts_witness :
  Tsv.process_compound_label "Cue|Quote[12]|Term[7]"
  = Some (["Cue"; "Quote"; "Term"], [-1; 12; 7])
  /\ exists first, Py.item [-1; 12; 7] 0 = Some first.
Proof.
  split; [reflexivity|].
  exact (proj2 (proj2 (process_compound_label_counts
                         "Cue|Quote[12]|Term[7]" _ _ eq_refl))).
Defined.

(** [int(str(n))] is [n] for every integer. *)
Lemma int_str_any (n : Z) : Py.int (Py.str n) = Some n.
Proof.
  destruct n as [|p|p]; [reflexivity | apply int_str; lia |].
  change (Py.str (Z.neg p))
    with (String "-" (NilEmpty.string_of_uint (Pos.to_uint p))).
  unfold Py.int. rewrite strip_no_space.
  - rewrite (digits_uint_start _ (DecimalPos.Unsigned.to_uint_nonnil p)).
    now rewrite uint_value_to_uint.
  - cbn [Render.all_chars]. apply andb_true_iff. split; [reflexivity|].
    generalize (string_of_uint_digits (Pos.to_uint p)).
    apply all_chars_impl. intros a Ha. now rewrite (digit_not_space a Ha).
Qed.

(** The numeral of an integer has digits and, in front, at most a
    hyphen. *)
Lemma str_chars (n : Z) :
  Render.all_chars (fun a => Py.is_digit a || Ascii.eqb a "-") (Py.str n) = true.
Proof.
  assert (Hu : forall d, Render.all_chars
                 (fun a => Py.is_digit a || Ascii.eqb a "-")
                 (NilEmpty.string_of_uint d) = true).
  { intros d. generalize (string_of_uint_digits d).
    apply all_chars_impl. intros a Ha. now rewrite Ha. }
  destruct n as [|p|p]; [reflexivity | apply Hu |].
  change (Py.str (Z.neg p))
    with (String "-" (NilEmpty.string_of_uint (Pos.to_uint p))).
  cbn [Render.all_chars]. now rewrite Hu.
Qed.

Lemma str_free_any (n : Z) (a : ascii) :
  Py.is_digit a = false -> Ascii.eqb a "-" = false ->
  Py.contains (String a EmptyString) (Py.str n) = false.
Proof.
  intros Hd Hh. apply (all_chars_free _ _ _ (str_chars n)).
  now rewrite Hd, Hh.
Qed.

Lemma sublabel_shape (p : string * Z) :
  Py.contains "[" (fst p) = false ->
  Label.shape (Inception.sublabel p) (fst p) (snd p).
Proof.
  intros Hc. unfold Inception.sublabel.
  apply Label.shape_indexed; [exact Hc | apply int_str_any].
Qed.

Lemma sublabel_no_pipe (p : string * Z) :
  Py.contains "|" (fst p) = false ->
  Py.contains "|" (Inception.sublabel p) = false.
Proof.
  intros Hc. unfold Inception.sublabel.
  rewrite contains_char_app, Hc. cbn [String.append orb].
  rewrite contains_char_cons, contains_char_app.
  rewrite (str_free_any (snd p) "|" eq_refl eq_refl). reflexivity.
Qed.

(** X2.  Parsing undoes writing: the label written for a non-empty list of
    categories and ids, [Category[N]] pieces joined by pipes, is parsed back
    into these categories and ids, whenever no category contains [[] or
    [|]. *)
Theorem process_compound_label_round_trip (pairs : list (string * Z)) :
  pairs <> [] ->
  Forall (fun p => Py.contains "[" (fst p) = false
                   /\ Py.contains "|" (fst p) = false) pairs ->
  Tsv.process_compound_label (Inception.label pairs)
  = Some (map fst pairs, map snd pairs).
Proof.
  intros Hne Hfree. unfold Tsv.process_compound_label, Inception.label.
  rewrite split_join.
  - rewrite (compound_loop_shapes _ pairs [] []); [reflexivity|].
    clear Hne. induction Hfree as [|p l [Hb _] _ IH]; cbn [map]; constructor.
    + now apply sublabel_shape.
    + exact IH.
  - destruct pairs; [congruence | discriminate].
  - apply Forall_map. eapply Forall_impl; [|exact Hfree].
    intros p [_ Hp]. now apply sublabel_no_pipe.
Qed.

Lemma process_compound_label_round_trip_witness :
  Inception.label [("Direct Quote", 82); ("Direct Quote", 83); ("Focal Term", -4)]
  = "Direct Quote[82]|Direct Quote[83]|Focal Term[-4]"
  /\ Tsv.process_compound_label
       "Direct Quote[82]|Direct Quote[83]|Focal Term[-4]"
     = Some (["Direct Quote"; "Direct Quote"; "Focal Term"], [82; 83; -4]).
Proof.
  split; [reflexivity|].
  refine (process_compound_label_round_trip
            [("Direct Quote", 82); ("Direct Quote", 83); ("Focal Term", -4)]
            _ _); [discriminate|].
  repeat (constructor; [split; reflexivity|]). constructor.
Defined.

Lemma loose_slices (category text : string) (last : ascii) :
  Py.contains "[" category = false ->
  Py.index "[" (category ++ "[" ++ text ++ String last "")
  = Some (String.length category)
  /\ Py.take (String.length category)
       (category ++ "[" ++ text ++ String last "") = category
  /\ Py.slice_to_last (S (String.length category))
       (category ++ "[" ++ text ++ String last "") = text.
Proof.
  intros Hc. split; [|split].
  - now apply index_app_absent.
  - apply take_app.
  - unfold Py.slice_to_last.
    replace (category ++ "[" ++ text ++ String last "")%string
      with ((category ++ "[") ++ (text ++ String last ""))%string
      by (now rewrite append_assoc).
    replace (S (String.length category))
      with (String.length (category ++ "[")%string)
      by (rewrite length_append; simpl; lia).
    rewrite drop_app. apply drop_last_app_char.
Qed.

Lemma compound_loop_loose (sublabels : list string) :
  forall (pairs : list (string * Z)) (categories : list string) (ids : list Z),
  Forall2 (fun s p => Inception.loose s (fst p) (snd p)) sublabels pairs ->
  Tsv.compound_loop sublabels categories ids =
  Some (categories ++ map fst pairs, ids ++ map snd pairs).
Proof.
  induction sublabels as [|s rest IH]; intros pairs categories ids HF.
  - inversion HF; subst. simpl. now rewrite !app_nil_r.
  - inversion HF as [|s' p rest' pairs' Hs Hrest]; subst.
    destruct p as [c n]; simpl in Hs.
    cbn [Tsv.compound_loop].
    inversion Hs as [s0 Hbare | c0 text last n0 Hc Hint]; subst.
    + rewrite Hbare. cbn [negb].
      rewrite (IH _ _ _ Hrest). cbn [map fst snd].
      now rewrite <- !app_assoc.
    + destruct (loose_slices c text last Hc) as (Hi & Ht & Hs').
      rewrite contains_char_index, Hi. cbn [negb].
      rewrite Ht, Hs', Hint.
      rewrite (IH _ _ _ Hrest). cbn [map fst snd].
      now rewrite <- !app_assoc.
Qed.

(** X3.  The parser never looks at the closing bracket: the last character
    of a sub-label with a [[] is dropped whatever it is, and the id is read
    from the text between the first [[] and that character. *)
Theorem process_compound_label_ignores_last (label : string)
    (pairs : list (string * Z)) :
  Forall2 (fun s p => Inception.loose s (fst p) (snd p)) (Py.split "|" label) pairs ->
  Tsv.process_compound_label label = Some (map fst pairs, map snd pairs).
Proof.
  intros HF. unfold Tsv.process_compound_label.
  now rewrite (compound_loop_loose _ _ [] [] HF).
Qed.

(** [Quote[12] without its closing bracket has the id 1, and [Term[7)] the
    id 7. *)
Lemma process_compound_label_ignores_last_witness :
  Forall2 (fun s p => Inception.loose s (fst p) (snd p))
    (Py.split "|" "Quote[12|Term[7)") [("Quote", 1); ("Term", 7)]
  /\ Tsv.process_compound_label "Quote[12|Term[7)"
     = Some (["Quote"; "Term"], [1; 7]).
Proof.
  assert (H : Forall2 (fun s p => Inception.loose s (fst p) (snd p))
                (Py.split "|" "Quote[12|Term[7)") [("Quote", 1); ("Term", 7)]).
  { change (Py.split "|" "Quote[12|Term[7)") with ["Quote[12"; "Term[7)"].
    constructor; [exact (Inception.loose_indexed "Quote" "1" "2" 1 eq_refl eq_refl)|].
    constructor; [exact (Inception.loose_indexed "Term" "7" ")" 7 eq_refl eq_refl)|].
    constructor. }
  split; [exact H|].
  exact (process_compound_label_ignores_last _ _ H).
Defined.

End CompoundLabelMore.

(** ** More on [process_sentence] *)

Section ProcessSentenceMore.

Lemma item_nat {A : Type} (l : list A) (k : nat) :
  Py.item l (Z.of_nat k) = nth_error l k.
Proof.
  unfold Py.item.
  destruct (Z.of_nat k <? Z.of_nat (List.length l)) eqn:E.
  - replace (0 <=? Z.of_nat k) with true by (symmetry; apply Z.leb_le; lia).
    cbn [andb]. now rewrite Nat2Z.id.
  - rewrite andb_false_r.
    replace (Z.of_nat k <? 0) with false by (symmetry; apply Z.ltb_ge; lia).
    rewrite andb_false_r. symmetry. apply nth_error_None.
    apply Z.ltb_ge in E. lia.
Qed.

(** X4.  [process_sentence] reads a row only through its cells 0, 2 and 4:
    a row is rejected exactly when it has fewer than five tab-separated
    cells or no hyphen in its first cell. *)
Theorem row_fields_raises (row : string) :
  Tsv.row_fields row = None <->
  (List.length (Py.split (ascii_of_nat 9) row) < 5)%nat
  \/ Py.index "-" (hd EmptyString (Py.split (ascii_of_nat 9) row)) = None.
Proof.
  unfold Tsv.row_fields.
  change 0 with (Z.of_nat 0). change 2 with (Z.of_nat 2).
  change 4 with (Z.of_nat 4). rewrite !item_nat.
  pose proof (split_not_nil (ascii_of_nat 9) row) as Hne.
  destruct (Py.split (ascii_of_nat 9) row) as [|c0 cells]; [congruence|].
  cbn [nth_error hd List.length].
  destruct (Py.index "-" c0) as [h|].
  - destruct cells as [|c1 [|c2 [|c3 [|c4 more]]]]; cbn [nth_error List.length].
    + split; [intros _; left; lia | reflexivity].
    + split; [intros _; left; lia | reflexivity].
    + split; [intros _; left; lia | reflexivity].
    + split; [intros _; left; lia | reflexivity].
    + split; [discriminate | intros [H|H]; [lia | discriminate]].
  - split; [intros _; now right | reflexivity].
Qed.

Lemma sentence_loop_raises (tsv_rows : list string) :
  forall acc off,
  Tsv.sentence_loop tsv_rows acc off = None <->
  Offset.parse_rows tsv_rows = None.
Proof.
  induction tsv_rows as [|row rest IH]; intros acc off.
  - simpl. split; discriminate.
  - cbn [Tsv.sentence_loop Offset.parse_rows]. unfold Offset.parse_row.
    destruct (Tsv.row_fields row) as [[[sn tk] lb]|]; [|split; reflexivity].
    destruct (String.eqb lb "_").
    + rewrite IH. destruct (Offset.parse_rows rest); split; congruence.
    + destruct (Tsv.process_compound_label lb) as [[cs ids]|] eqn:P;
        [|split; reflexivity].
      destruct (process_compound_label_lengths _ _ _ P) as [_ Hne].
      destruct ids as [|i ids]; [congruence|].
      change (Py.item (i :: ids) 0) with (Some i).
      destruct (off =? Tsv.UNSET); rewrite IH;
        destruct (Offset.parse_rows rest); split; congruence.
Qed.

Lemma parse_rows_raises (tsv_rows : list string) :
  Offset.parse_rows tsv_rows = None <->
  exists row, In row tsv_rows /\ Offset.parse_row row = None.
Proof.
  induction tsv_rows as [|row rest IH].
  - simpl. split; [discriminate | intros (? & [] & _)].
  - cbn [Offset.parse_rows].
    destruct (Offset.parse_row row) as [r|] eqn:Hr.
    + destruct (Offset.parse_rows rest) as [rs|].
      * split; [discriminate|].
        intros (x & [<-|Hin] & Hx); [congruence|].
        assert (H : Some rs = None) by (apply (proj2 IH); now exists x).
        discriminate H.
      * split; [intros _ | reflexivity].
        destruct (proj1 IH eq_refl) as (x & Hin & Hx).
        exists x. split; [now right | exact Hx].
    + split; [intros _ | reflexivity]. exists row. split; [now left | exact Hr].
Qed.

(** X5.  [process_sentence] raises exactly when one of its rows is rejected
    or has a label other than [_] that [process_compound_label] rejects;
    nothing else in the loop can fail. *)
Theorem process_sentence_raises (tsv_rows : list string) :
  Tsv.process_sentence tsv_rows = None <->
  exists row,
    In row tsv_rows /\
    (Tsv.row_fields row = None
     \/ exists sent_num token label,
          Tsv.row_fields row = Some (sent_num, token, label)
          /\ String.eqb label "_" = false
          /\ Tsv.process_compound_label label = None).
Proof.
  unfold Tsv.process_sentence.
  rewrite sentence_loop_raises, parse_rows_raises.
  split; intros (row & Hin & H); exists row; (split; [exact Hin|]).
  - unfold Offset.parse_row in H.
    destruct (Tsv.row_fields row) as [[[sn tk] lb]|]; [|now left].
    right. exists sn, tk, lb. split; [reflexivity|].
    destruct (String.eqb lb "_"); [discriminate|]. split; [reflexivity|].
    now destruct (Tsv.process_compound_label lb) as [[cs ids]|].
  - unfold Offset.parse_row.
    destruct H as [->|(sn & tk & lb & -> & -> & ->)]; reflexivity.
Qed.

Lemma sentence_loop_length (tsv_rows : list string) :
  forall acc off out,
  Tsv.sentence_loop tsv_rows acc off = Some out ->
  List.length out = (List.length acc + List.length tsv_rows)%nat.
Proof.
  induction tsv_rows as [|row rest IH]; intros acc off out H.
  - injection H as <-. simpl. lia.
  - cbn [Tsv.sentence_loop] in H.
    destruct (Tsv.row_fields row) as [[[sn tk] lb]|]; [|discriminate].
    destruct (String.eqb lb "_").
    + apply IH in H. rewrite length_app in H. simpl in *. lia.
    + destruct (Tsv.process_compound_label lb) as [[cs ids]|]; [|discriminate].
      destruct (if off =? Tsv.UNSET then _ else _) as [off'|]; [|discriminate].
      apply IH in H. rewrite length_app in H. simpl in *. lia.
Qed.

(** X6.  When [process_sentence] returns, it returns one simplified row per
    row of the sentence. *)
Theorem process_sentence_length (tsv_rows out : list string) :
  Tsv.process_sentence tsv_rows = Some out ->
  List.length out = List.length tsv_rows.
Proof.
  intros H. apply sentence_loop_length in H. exact H.
Qed.

Lemma process_sentence_length_witness :
  Tsv.process_sentence Sample.quoted
  = Some [Sample.row ["3"; "The"; "_"];
          Sample.row ["3"; "term"; "Quote:1|Cue:-1"];
          Sample.row ["3"; "is"; "Quote:1|Term:3"]]
  /\ List.length [Sample.row ["3"; "The"; "_"];
                  Sample.row ["3"; "term"; "Quote:1|Cue:-1"];
                  Sample.row ["3"; "is"; "Quote:1|Term:3"]]
     = List.length Sample.quoted.
Proof.
  split; [reflexivity|].
  exact (process_sentence_length Sample.quoted _ eq_refl).
Defined.

(** While the offset has the value that marks it as not set, the loop maps
    the rows whose first id is -999999 with that value and stays there. *)
Lemma sentence_loop_collide (tsv_rows : list string) :
  forall rows more acc,
  Offset.parse_rows tsv_rows = Some rows ->
  Forall (fun r => Offset.annotated r = true ->
                   option_map snd (hd_error (Offset.refs r))
                   = Some (Tsv.UNSET + 1)) rows ->
  Tsv.sentence_loop (tsv_rows ++ more) acc Tsv.UNSET
  = Tsv.sentence_loop more
      (acc ++ map (Offset.simplified Tsv.UNSET) rows) Tsv.UNSET.
Proof.
  induction tsv_rows as [|tsv_row rest IH]; intros rows more acc HP HF.
  - injection HP as <-. simpl. now rewrite app_nil_r.
  - cbn [Offset.parse_rows] in HP.
    destruct (Offset.parse_row tsv_row) as [r|] eqn:Hr; [|discriminate].
    destruct (Offset.parse_rows rest) as [rs|] eqn:Hrs; [|discriminate].
    injection HP as <-. inversion HF as [|? ? Hr1 Hrs1]; subst.
    destruct (parse_row_fields _ _ Hr) as [Hf Hl].
    cbn [app Tsv.sentence_loop map]. rewrite Hf.
    destruct (String.eqb (Offset.label r) "_") eqn:E.
    + rewrite (IH rs more _ eq_refl Hrs1), (simplified_plain _ _ E).
      now rewrite <- app_assoc.
    + destruct Hl as (cs & ids & HP & Hrefs & first & Hfirst & Hhd).
      assert (Hann : Offset.annotated r = true)
        by (unfold Offset.annotated; now rewrite E).
      specialize (Hr1 Hann). rewrite Hhd in Hr1. cbn [option_map snd] in Hr1.
      injection Hr1 as ->.
      rewrite HP, Z.eqb_refl, Hfirst.
      replace (Tsv.UNSET + 1 - 1) with Tsv.UNSET by lia.
      rewrite (IH rs more _ eq_refl Hrs1).
      rewrite (simplified_labelled _ _ E), <- Hrefs, relabel_loop_join.
      now rewrite <- app_assoc.
Qed.

(** X7.  The offset is kept in a variable whose initial value, -1000000,
    stands for "not set".  The offset of the id -999999 is that value, so
    after rows whose first ids are all -999999 the offset is computed
    again: these rows are renumbered with -1000000, and the rows that
    follow with the first id that differs from -999999. *)
Theorem unset_offset_is_recomputed (first_rows rest_rows : list string)
    (rows1 rows2 : list Offset.row) :
  Offset.parse_rows first_rows = Some rows1 ->
  Offset.parse_rows rest_rows = Some rows2 ->
  Forall (fun r => Offset.annotated r = true ->
                   option_map snd (hd_error (Offset.refs r)) = Some (-999999))
    rows1 ->
  Offset.first_id rows2 <> Some (-999999) ->
  Tsv.process_sentence (first_rows ++ rest_rows)
  = Some (map (Offset.simplified (-1000000)) rows1
          ++ map (Offset.simplified (Offset.offset rows2)) rows2).
Proof.
  intros HP1 HP2 H1 H2. unfold Tsv.process_sentence.
  rewrite (sentence_loop_collide first_rows rows1 rest_rows [] HP1 H1).
  exact (sentence_loop_unset rest_rows rows2 _ HP2 H2).
Qed.

(** [Cue[-999999]] is emitted as [Cue:1], and [Quote[5]] of the next row
    as [Quote:1] again. *)
Lemma unset_offset_is_recomputed_witness :
  Offset.parse_rows Sample2.collide_first = Some Sample2.collide_first_rows
  /\ Offset.parse_rows Sample2.collide_rest = Some Sample2.collide_rest_rows
  /\ Tsv.process_sentence (Sample2.collide_first ++ Sample2.collide_rest)
     = Some [Sample.row ["7"; "As"; "Cue:1"];
             Sample.row ["7"; "said"; "Quote:1"];
             Sample.row ["7"; "it"; "Quote:1|Term:2"]].
Proof.
  split; [reflexivity|]. split; [reflexivity|].
  refine (unset_offset_is_recomputed
            Sample2.collide_first Sample2.collide_rest
            Sample2.collide_first_rows Sample2.collide_rest_rows
            eq_refl eq_refl _ _).
  - constructor; [reflexivity | constructor].
  - discriminate.
Defined.

End ProcessSentenceMore.

(** ** The cells of a simplified row *)

Section SimplifiedRows.

Local Abbreviation free a s := (Py.contains (String a EmptyString) s = false).

Lemma free_app (a : ascii) (s t : string) :
  free a s -> free a t -> free a (s ++ t).
Proof. intros Hs Ht. now rewrite contains_char_app, Hs, Ht. Qed.

Lemma free_take (a : ascii) (s : string) :
  free a s -> forall n, free a (Py.take n s).
Proof.
  induction s as [|b s IH]; intros H n; [now destruct n|].
  rewrite contains_char_cons in H. apply orb_false_iff in H as [Hb Hs].
  destruct n as [|n]; [reflexivity|].
  cbn [Py.take]. now rewrite contains_char_cons, Hb, (IH Hs).
Qed.

Lemma free_drop_last (a : ascii) (s : string) :
  free a s -> free a (Py.drop_last s).
Proof.
  induction s as [|b s IH]; intros H; [reflexivity|].
  rewrite contains_char_cons in H. apply orb_false_iff in H as [Hb Hs].
  cbn [Py.drop_last]. destruct s as [|c s]; [reflexivity|].
  now rewrite contains_char_cons, Hb, (IH Hs).
Qed.

(** The pieces of a split have no separator, and no character that the
    text does not have. *)
Lemma split_pieces_no_separator (c : ascii) (s : string) :
  Forall (fun p => free c p) (Py.split c s).
Proof.
  induction s as [|b s IH]; [repeat constructor|].
  cbn [Py.split]. destruct (Ascii.eqb b c) eqn:E.
  - constructor; [reflexivity | exact IH].
  - pose proof (split_not_nil c s) as Hne.
    destruct (Py.split c s) as [|p ps]; [congruence|].
    inversion IH; subst. constructor; [|assumption].
    rewrite contains_char_cons, E. assumption.
Qed.

Lemma split_pieces_free (a c : ascii) (s : string) :
  free a s -> Forall (fun p => free a p) (Py.split c s).
Proof.
  induction s as [|b s IH]; intros H; [repeat constructor|].
  rewrite contains_char_cons in H. apply orb_false_iff in H as [Hb Hs].
  specialize (IH Hs). cbn [Py.split]. destruct (Ascii.eqb b c).
  - constructor; [reflexivity | exact IH].
  - pose proof (split_not_nil c s) as Hne.
    destruct (Py.split c s) as [|p ps]; [congruence|].
    inversion IH; subst. constructor; [|assumption].
    rewrite contains_char_cons, Hb. assumption.
Qed.

Lemma compound_loop_free (a : ascii) (sublabels : list string) :
  forall categories ids categories' ids',
  Forall (fun s => free a s) sublabels ->
  Forall (fun s => free a s) categories ->
  Tsv.compound_loop sublabels categories ids = Some (categories', ids') ->
  Forall (fun s => free a s) categories'.
Proof.
  induction sublabels as [|s rest IH];
    intros categories ids categories' ids' Hs Hc H.
  - injection H as <- _. exact Hc.
  - inversion Hs as [|? ? Hs1 Hs2]; subst.
    cbn [Tsv.compound_loop] in H.
    destruct (negb (Py.contains "[" s)).
    + apply (IH _ _ _ _ Hs2) in H; [exact H|].
      apply Forall_app. split; [exact Hc | now constructor].
    + destruct (Py.index "[" s) as [b|]; [|discriminate].
      destruct (Py.int _) as [n|]; [|discriminate].
      apply (IH _ _ _ _ Hs2) in H; [exact H|].
      apply Forall_app. split; [exact Hc|].
      constructor; [now apply free_take | constructor].
Qed.

(** The categories of a parsed label have no pipe, and no character that
    the label does not have. *)
Lemma categories_free (a : ascii) (label : string) categories ids :
  Tsv.process_compound_label label = Some (categories, ids) ->
  (free a label \/ a = "|"%char) ->
  Forall (fun s => free a s) categories.
Proof.
  unfold Tsv.process_compound_label. intros H Ha.
  apply (compound_loop_free a _ _ _ _ _) in H; [exact H| |constructor].
  destruct Ha as [Ha| ->].
  - now apply split_pieces_free.
  - apply split_pieces_no_separator.
Qed.

Lemma piece_free (a : ascii) (off : Z) (p : string * Z) :
  free a (fst p) -> Ascii.eqb ":" a = false ->
  Py.is_digit a = false -> Ascii.eqb a "-" = false ->
  free a (Offset.piece off p).
Proof.
  intros Hc Hcolon Hd Hh. unfold Offset.piece.
  apply free_app; [exact Hc|]. cbn [String.append].
  rewrite contains_char_cons, Hcolon. now apply str_free_any.
Qed.

Lemma pieces_free (a : ascii) (off : Z) (categories : list string) (ids : list Z) :
  Forall (fun s => free a s) categories -> Ascii.eqb ":" a = false ->
  Py.is_digit a = false -> Ascii.eqb a "-" = false ->
  Forall (fun s => free a s) (map (Offset.piece off) (combine categories ids)).
Proof.
  intros Hc Hcolon Hd Hh. revert ids.
  induction Hc as [|c cs Hc1 Hc2 IH]; intros ids; [constructor|].
  destruct ids as [|i ids]; [constructor|].
  cbn [combine map]. constructor; [now apply piece_free | apply IH].
Qed.

Lemma three_cells (c : ascii) (s1 s2 s3 : string) :
  free c s1 -> free c s2 -> free c s3 ->
  Py.split c (s1 ++ String c "" ++ s2 ++ String c "" ++ s3) = [s1; s2; s3].
Proof.
  intros H1 H2 H3. cbn [String.append].
  rewrite (split_app _ _ _ H1), (split_app _ _ _ H2), (split_free _ _ H3).
  reflexivity.
Qed.

Lemma row_fields_free (row sent_num token label : string) :
  Tsv.row_fields row = Some (sent_num, token, label) ->
  free (ascii_of_nat 9) sent_num /\ free (ascii_of_nat 9) token
  /\ free (ascii_of_nat 9) label.
Proof.
  unfold Tsv.row_fields.
  change 0 with (Z.of_nat 0). change 2 with (Z.of_nat 2).
  change 4 with (Z.of_nat 4). rewrite !item_nat.
  pose proof (split_pieces_no_separator (ascii_of_nat 9) row) as HF.
  rewrite Forall_forall in HF.
  destruct (nth_error _ 0) as [c0|] eqn:E0; [|discriminate].
  destruct (Py.index "-" c0) as [h|]; [|discriminate].
  destruct (nth_error _ 2) as [c2|] eqn:E2; [|discriminate].
  destruct (nth_error _ 4) as [c4|] eqn:E4; [|discriminate].
  intros H. injection H as <- <- <-.
  apply nth_error_In in E0, E2, E4.
  split; [apply free_take; now apply HF | split; now apply HF].
Qed.

Lemma sentence_loop_made_from (tsv_rows : list string) :
  forall acc off out,
  Tsv.sentence_loop tsv_rows acc off = Some out ->
  exists made, out = acc ++ made /\ Forall2 Simplified.made_from tsv_rows made.
Proof.
  induction tsv_rows as [|row rest IH]; intros acc off out H.
  - injection H as <-. exists []. split; [now rewrite app_nil_r | constructor].
  - cbn [Tsv.sentence_loop] in H.
    destruct (Tsv.row_fields row) as [[[sn tk] lb]|] eqn:Hf; [|discriminate].
    destruct (row_fields_free _ _ _ _ Hf) as (Hsn & Htk & Hlb).
    destruct (String.eqb lb "_") eqn:E.
    + apply IH in H as (made & -> & HF).
      exists ((sn ++ Tsv.TAB ++ tk ++ Tsv.TAB ++ "_")%string :: made).
      split; [now rewrite <- app_assoc|]. constructor; [|exact HF].
      exists sn, tk, lb. split; [exact Hf|]. left. split; [exact E|].
      now apply three_cells.
    + destruct (Tsv.process_compound_label lb) as [[cs ids]|] eqn:P;
        [|discriminate].
      destruct (if off =? Tsv.UNSET then _ else _) as [off'|]; [|discriminate].
      apply IH in H as (made & -> & HF). rewrite relabel_loop_join.
      eexists (_ :: made). split; [now rewrite <- app_assoc|].
      constructor; [|exact HF].
      exists sn, tk, lb. split; [exact Hf|]. right. split; [exact E|].
      exists cs, ids, off'. split; [exact P|].
      apply three_cells; [exact Hsn | exact Htk |].
      apply contains_char_join; [reflexivity|].
      apply pieces_free; try reflexivity.
      apply (categories_free _ lb cs ids P). now left.
Qed.

Lemma simplified_rows_cells (tsv_rows out : list string) :
  Tsv.process_sentence tsv_rows = Some out ->
  Forall2 Simplified.made_from tsv_rows out
  /\ Forall (fun o => List.length (Py.split (ascii_of_nat 9) o) = 3%nat) out.
Proof.
  intros H. apply sentence_loop_made_from in H as (made & -> & HF).
  cbn [app]. split; [exact HF|].
  clear -HF. induction HF as [|row o rows outs Hm _ IH]; constructor.
  - destruct Hm as (sn & tk & lb & _ & [[_ ->]|(_ & cs & ids & off & _ & ->)]);
      reflexivity.
  - exact IH.
Qed.

(** X8.  Every simplified row that [process_sentence] returns has exactly
    three tab-separated cells: the sentence number and the token of its
    row, unchanged, and either [_] or the renumbered pieces of the parsed
    label joined by pipes. *)
Theorem process_sentence_cells (tsv_rows out : list string) :
  Tsv.process_sentence tsv_rows = Some out ->
  Forall2 Simplified.made_from tsv_rows out
  /\ Forall (fun o => List.length (Py.split (ascii_of_nat 9) o) = 3%nat) out.
Proof.
  apply simplified_rows_cells.
Qed.

Lemma process_sentence_cells_witness :
  Tsv.process_sentence Sample.bare_first
  = Some [Sample.row ["4"; "So"; "_"];
          Sample.row ["4"; "said"; "Cue:-1|Quote:11"];
          Sample.row ["4"; "it"; "Quote:11"]]
  /\ Forall (fun o => List.length (Py.split (ascii_of_nat 9) o) = 3%nat)
       [Sample.row ["4"; "So"; "_"];
        Sample.row ["4"; "said"; "Cue:-1|Quote:11"];
        Sample.row ["4"; "it"; "Quote:11"]].
Proof.
  split; [reflexivity|].
  exact (proj2 (process_sentence_cells Sample.bare_first _ eq_refl)).
Defined.

End SimplifiedRows.

(** ** [process_opinion_file] *)

Section OpinionFile.

Lemma prefix_append (s t : string) : String.prefix s (s ++ t) = true.
Proof.
  induction s as [|a s IH]; [now destruct t|].
  cbn [String.append String.prefix].
  destruct (ascii_dec a a) as [_|Hne]; [exact IH | congruence].
Qed.

(** Token rows are collected in [sent_rows]. *)
Lemma file_loop_token_rows (rows : list string) :
  forall more doc_rows sent_rows,
  forallb TsvFile.token_row rows = true ->
  TsvFile.file_loop (rows ++ more) doc_rows sent_rows
  = TsvFile.file_loop more doc_rows (sent_rows ++ rows).
Proof.
  induction rows as [|row rows IH]; intros more doc_rows sent_rows H.
  - now rewrite app_nil_r.
  - cbn [forallb] in H. apply andb_true_iff in H as [Hrow Hrows].
    unfold TsvFile.token_row in Hrow.
    apply andb_true_iff in Hrow as [Hp He].
    apply negb_true_iff in Hp, He.
    cbn [app TsvFile.file_loop]. rewrite Hp, He, (IH _ _ _ Hrows).
    now rewrite <- app_assoc.
Qed.

Lemma file_loop_blocks (sentences : list (string * list string)) :
  forall doc_rows sent_rows,
  Forall (fun s => forallb TsvFile.token_row (snd s) = true) sentences ->
  TsvFile.file_loop (TsvFile.blocks sentences) doc_rows sent_rows
  = option_map (app doc_rows) (Simplified.all_sentences (map snd sentences)).
Proof.
  induction sentences as [|[text rows] rest IH];
    intros doc_rows sent_rows HF.
  - simpl. now rewrite app_nil_r.
  - inversion HF as [|? ? Hrows Hrest]; subst. cbn [snd] in Hrows.
    cbn [TsvFile.blocks map Simplified.all_sentences snd].
    unfold TsvFile.block. rewrite <- !app_assoc.
    cbn [app TsvFile.file_loop]. rewrite prefix_append.
    rewrite (file_loop_token_rows rows _ _ _ Hrows).
    cbn [app TsvFile.file_loop].
    change (String.prefix "#Text" TsvFile.NEWLINE) with false.
    change (String.eqb TsvFile.NEWLINE TsvFile.NEWLINE) with true.
    cbv iota.
    destruct (Tsv.process_sentence rows) as [simplified|]; [|reflexivity].
    rewrite (IH _ _ Hrest).
    destruct (Simplified.all_sentences (map snd rest)) as [others|];
      [|reflexivity].
    cbn [option_map]. now rewrite <- app_assoc.
Qed.

Lemma item_app_head {A : Type} (l tail : list A) (k : nat) :
  (k < List.length l)%nat ->
  Py.item (l ++ tail) (Z.of_nat k) = Py.item l (Z.of_nat k).
Proof.
  intros H. rewrite !item_nat. now apply nth_error_app1.
Qed.

(** X9.  On a file with four header lines followed by sentences, each one a
    line that starts with [#Text], token rows and an empty line,
    [process_opinion_file] returns the sentences in order, each the result
    of [process_sentence] on its token rows with every simplified row split
    into its cells; it raises exactly when [process_sentence] does on one
    of them. *)
Theorem process_opinion_file_blocks (header : list string)
    (sentences : list (string * list string)) :
  List.length header = 4%nat ->
  sentences <> [] ->
  Forall (fun s => forallb TsvFile.token_row (snd s) = true) sentences ->
  TsvFile.process_opinion_file (header ++ TsvFile.blocks sentences)
  = option_map (map (map (Py.split (ascii_of_nat 9))))
      (Simplified.all_sentences (map snd sentences)).
Proof.
  intros Hlen Hne HF. unfold TsvFile.process_opinion_file.
  assert (Hskip : skipn 4 (header ++ TsvFile.blocks sentences)
                  = TsvFile.blocks sentences).
  { rewrite skipn_app, <- Hlen, skipn_all, Nat.sub_diag. reflexivity. }
  assert (Hitem : exists text rest,
             TsvFile.blocks sentences = ("#Text" ++ text)%string :: rest).
  { destruct sentences as [|[text rows] more]; [congruence|].
    cbn [TsvFile.blocks]. unfold TsvFile.block. cbn [app]. eauto. }
  destruct Hitem as (text & rest & Hblocks).
  rewrite Hskip, (file_loop_blocks _ _ _ HF).
  change 4 with (Z.of_nat 4). rewrite item_nat.
  rewrite nth_error_app2 by lia. rewrite Hlen, Nat.sub_diag, Hblocks.
  cbn [nth_error]. rewrite prefix_append.
  now destruct (Simplified.all_sentences (map snd sentences)).
Qed.

Lemma process_opinion_file_blocks_witness :
  TsvFile.process_opinion_file SampleFile.data
  = Some [[["3"; "The"; "_"]; ["3"; "term"; "Quote:1|Cue:-1"];
           ["3"; "is"; "Quote:1|Term:3"]];
          [["4"; "So"; "_"]; ["4"; "said"; "Cue:-1|Quote:11"];
           ["4"; "it"; "Quote:11"]]].
Proof.
  refine (eq_trans
            (process_opinion_file_blocks SampleFile.header SampleFile.sentences
               eq_refl _ _) _).
  - discriminate.
  - repeat constructor.
  - reflexivity.
Defined.

(** Lines after the last empty line add nothing. *)
Lemma file_loop_no_end (tail : list string) :
  forall doc_rows sent_rows,
  Forall (fun row => row <> TsvFile.NEWLINE) tail ->
  TsvFile.file_loop tail doc_rows sent_rows = Some doc_rows.
Proof.
  induction tail as [|row tail IH]; intros doc_rows sent_rows H; [reflexivity|].
  inversion H as [|? ? Hrow Htail]; subst. cbn [TsvFile.file_loop].
  destruct (String.prefix "#Text" row); [now apply IH|].
  apply String.eqb_neq in Hrow. rewrite Hrow. now apply IH.
Qed.

Lemma file_loop_tail (rows tail : list string) :
  forall doc_rows sent_rows,
  Forall (fun row => row <> TsvFile.NEWLINE) tail ->
  TsvFile.file_loop (rows ++ tail) doc_rows sent_rows
  = TsvFile.file_loop rows doc_rows sent_rows.
Proof.
  induction rows as [|row rows IH]; intros doc_rows sent_rows H.
  - cbn [app TsvFile.file_loop]. now apply file_loop_no_end.
  - cbn [app TsvFile.file_loop].
    destruct (String.prefix "#Text" row); [now apply IH|].
    destruct (String.eqb row TsvFile.NEWLINE); [|now apply IH].
    destruct (Tsv.process_sentence sent_rows); [now apply IH | reflexivity].
Qed.

(** X10.  A sentence is emitted only at an empty line: the lines that
    follow the last empty line of the file, such as a last sentence that no
    empty line ends, are dropped without being parsed. *)
Theorem process_opinion_file_drops_tail (data tail : list string) :
  (5 <= List.length data)%nat ->
  Forall (fun row => row <> TsvFile.NEWLINE) tail ->
  TsvFile.process_opinion_file (data ++ tail)
  = TsvFile.process_opinion_file data.
Proof.
  intros Hlen Htail. unfold TsvFile.process_opinion_file.
  change 4 with (Z.of_nat 4). rewrite item_app_head by lia.
  rewrite skipn_app.
  replace (4 - List.length data)%nat with 0%nat by lia.
  cbn [skipn]. now rewrite file_loop_tail.
Qed.

(** The rows of a last sentence without its empty line, one of them with
    too few cells, change nothing. *)
Lemma process_opinion_file_drops_tail_witness :
  TsvFile.process_opinion_file
    (SampleFile.data ++ ["#Text=Not ended"; "5-1"; "no cells"])
  = TsvFile.process_opinion_file SampleFile.data.
Proof.
  refine (process_opinion_file_drops_tail SampleFile.data _ _ _).
  - simpl. lia.
  - repeat (constructor; [discriminate|]). constructor.
Defined.

Lemma file_loop_count (rows : list string) :
  forall doc_rows sent_rows out,
  TsvFile.file_loop rows doc_rows sent_rows = Some out ->
  List.length out
  = (List.length doc_rows + count_occ string_dec rows TsvFile.NEWLINE)%nat.
Proof.
  induction rows as [|row rows IH]; intros doc_rows sent_rows out H.
  - injection H as <-. simpl. lia.
  - cbn [TsvFile.file_loop] in H. cbn [count_occ].
    destruct (string_dec row TsvFile.NEWLINE) as [->|Hne].
    + change (String.prefix "#Text" TsvFile.NEWLINE) with false in H.
      change (String.eqb TsvFile.NEWLINE TsvFile.NEWLINE) with true in H.
      cbv iota in H.
      destruct (Tsv.process_sentence sent_rows); [|discriminate].
      apply IH in H. rewrite length_app in H. simpl in H. lia.
    + apply String.eqb_neq in Hne. rewrite Hne in H.
      destruct (String.prefix "#Text" row); now apply IH in H.
Qed.

(** X11.  When [process_opinion_file] returns, it returns as many
    sentences as there are empty lines from the fifth line of the file
    on. *)
Theorem process_opinion_file_count (data : list string)
    (doc : list (list (list string))) :
  TsvFile.process_opinion_file data = Some doc ->
  List.length doc = count_occ string_dec (skipn 4 data) TsvFile.NEWLINE.
Proof.
  unfold TsvFile.process_opinion_file. intros H.
  destruct (Py.item data 4) as [line|]; [|discriminate].
  destruct (String.prefix "#Text" line); [|discriminate].
  destruct (TsvFile.file_loop (skipn 4 data) [] []) as [doc_rows|] eqn:E;
    [|discriminate].
  injection H as <-. rewrite length_map.
  now rewrite (file_loop_count _ _ _ _ E).
Qed.

Lemma process_opinion_file_count_witness :
  exists doc,
    TsvFile.process_opinion_file SampleFile.data = Some doc
    /\ List.length doc = 2%nat.
Proof.
  eexists. split; [reflexivity|].
  exact (process_opinion_file_count SampleFile.data _ eq_refl).
Defined.

Lemma file_loop_repeat (rows : list string) :
  forall doc_rows sent_rows,
  TsvFile.file_loop (rows ++ [TsvFile.NEWLINE; TsvFile.NEWLINE]) doc_rows sent_rows
  = option_map (fun out => out ++ [last out []])
      (TsvFile.file_loop (rows ++ [TsvFile.NEWLINE]) doc_rows sent_rows).
Proof.
  induction rows as [|row rows IH]; intros doc_rows sent_rows.
  - cbn [app TsvFile.file_loop].
    change (String.prefix "#Text" TsvFile.NEWLINE) with false.
    change (String.eqb TsvFile.NEWLINE TsvFile.NEWLINE) with true.
    cbv iota.
    destruct (Tsv.process_sentence sent_rows) as [s|]; [|reflexivity].
    cbn [option_map]. now rewrite last_last.
  - cbn [app TsvFile.file_loop].
    destruct (String.prefix "#Text" row); [apply IH|].
    destruct (String.eqb row TsvFile.NEWLINE); [|apply IH].
    destruct (Tsv.process_sentence sent_rows); [apply IH | reflexivity].
Qed.

Lemma last_map {A B : Type} (f : A -> B) (l : list A) (a : A) (b : B) :
  l <> [] -> last (map f l) b = f (last l a).
Proof.
  induction l as [|x l IH]; intros H; [congruence|].
  destruct l as [|y l]; [reflexivity|].
  change (last (map f (x :: y :: l)) b) with (last (map f (y :: l)) b).
  change (last (x :: y :: l) a) with (last (y :: l) a).
  apply IH. discriminate.
Qed.

(** X12.  [sent_rows] is emptied at a line that starts with [#Text], not
    at an empty line: a second empty line right after the one that ends a
    sentence emits that sentence once more. *)
Theorem process_opinion_file_repeats (data : list string) :
  (5 <= List.length data)%nat ->
  TsvFile.process_opinion_file (data ++ [TsvFile.NEWLINE; TsvFile.NEWLINE])
  = option_map (fun doc => doc ++ [last doc []])
      (TsvFile.process_opinion_file (data ++ [TsvFile.NEWLINE])).
Proof.
  intros Hlen. unfold TsvFile.process_opinion_file.
  change 4 with (Z.of_nat 4). rewrite !item_app_head by lia.
  destruct (Py.item data (Z.of_nat 4)) as [line|]; [|reflexivity].
  destruct (String.prefix "#Text" line); [|reflexivity].
  rewrite !skipn_app.
  replace (4 - List.length data)%nat with 0%nat by lia.
  rewrite !skipn_O, file_loop_repeat.
  pose proof (file_loop_count (skipn 4 data ++ [TsvFile.NEWLINE]) [] []) as Hc.
  destruct (TsvFile.file_loop (skipn 4 data ++ [TsvFile.NEWLINE]) [] [])
    as [out|]; [|reflexivity].
  cbn [option_map]. f_equal. rewrite map_app. cbn [map]. f_equal. f_equal.
  symmetry. apply last_map. intros ->.
  specialize (Hc [] eq_refl). rewrite count_occ_app in Hc.
  cbn [List.length count_occ] in Hc.
  destruct (string_dec TsvFile.NEWLINE TsvFile.NEWLINE); [lia | congruence].
Qed.

Lemma process_opinion_file_repeats_witness :
  TsvFile.process_opinion_file (SampleFile.data ++ [TsvFile.NEWLINE])
  = Some [[["3"; "The"; "_"]; ["3"; "term"; "Quote:1|Cue:-1"];
           ["3"; "is"; "Quote:1|Term:3"]];
          [["4"; "So"; "_"]; ["4"; "said"; "Cue:-1|Quote:11"];
           ["4"; "it"; "Quote:11"]];
          [["4"; "So"; "_"]; ["4"; "said"; "Cue:-1|Quote:11"];
           ["4"; "it"; "Quote:11"]]].
Proof.
  assert (Hdata : SampleFile.data ++ [TsvFile.NEWLINE]
                  = (SampleFile.header
                     ++ TsvFile.block "=The term is" Sample.quoted
                     ++ ("#Text=So said it" :: Sample.bare_first))
                    ++ [TsvFile.NEWLINE; TsvFile.NEWLINE]) by reflexivity.
  rewrite Hdata.
  refine (eq_trans (process_opinion_file_repeats _ _) _).
  - simpl. lia.
  - reflexivity.
Defined.

Lemma file_loop_cells (rows : list string) :
  forall doc_rows sent_rows out,
  Forall (Forall (fun o => List.length (Py.split (ascii_of_nat 9) o) = 3%nat))
    doc_rows ->
  TsvFile.file_loop rows doc_rows sent_rows = Some out ->
  Forall (Forall (fun o => List.length (Py.split (ascii_of_nat 9) o) = 3%nat))
    out.
Proof.
  induction rows as [|row rows IH]; intros doc_rows sent_rows out Hdoc H.
  - now injection H as <-.
  - cbn [TsvFile.file_loop] in H.
    destruct (String.prefix "#Text" row); [now apply IH in H|].
    destruct (String.eqb row TsvFile.NEWLINE); [|now apply IH in H].
    destruct (Tsv.process_sentence sent_rows) as [s|] eqn:E; [|discriminate].
    apply IH in H; [exact H|]. apply Forall_app. split; [exact Hdoc|].
    constructor; [|constructor].
    exact (proj2 (simplified_rows_cells _ _ E)).
Qed.

End OpinionFile.

(** ** The output of the file reader and the row aggregator *)

Section Pipeline.

(** X13.  Every token of every sentence that [process_opinion_file] returns
    has exactly three cells, so its label is the cell 2: with the
    annotation column 2, [get_annotations] never fails to index a token of
    such a sentence. *)
Theorem process_opinion_file_cells (data : list string)
    (doc : list (list (list string))) :
  TsvFile.process_opinion_file data = Some doc ->
  Forall (Forall (fun token : list string =>
                    List.length token = 3%nat
                    /\ exists label, Py.item token 2 = Some label)) doc.
Proof.
  unfold TsvFile.process_opinion_file. intros H.
  destruct (Py.item data 4) as [line|]; [|discriminate].
  destruct (String.prefix "#Text" line); [|discriminate].
  destruct (TsvFile.file_loop (skipn 4 data) [] []) as [doc_rows|] eqn:E;
    [|discriminate].
  injection H as <-.
  apply file_loop_cells in E; [|constructor].
  apply Forall_map. eapply Forall_impl; [|exact E].
  intros sentence Hs. apply Forall_map. eapply Forall_impl; [|exact Hs].
  intros o Ho. cbv beta in Ho. split; [exact Ho|].
  destruct (Py.split (ascii_of_nat 9) o) as [|a [|b [|c [|d l]]]];
    try discriminate Ho.
  now exists c.
Qed.

Lemma process_opinion_file_cells_witness :
  exists doc,
    TsvFile.process_opinion_file SampleFile.data = Some doc
    /\ Forall (Forall (fun token : list string =>
                         List.length token = 3%nat
                         /\ exists label, Py.item token 2 = Some label)) doc.
Proof.
  eexists. split; [reflexivity|].
  exact (process_opinion_file_cells SampleFile.data _ eq_refl).
Defined.

Lemma piece_split (off : Z) (p : string * Z) :
  Py.contains ":" (fst p) = false ->
  Py.split ":" (Offset.piece off p)
  = [fst p; Py.str (Offset.local_id off (snd p))].
Proof.
  intros Hc. unfold Offset.piece. cbn [String.append].
  rewrite (split_app _ _ _ Hc), split_free; [reflexivity|].
  now apply str_free_any.
Qed.

Lemma piece_colon (off : Z) (p : string * Z) (rest : string) :
  Py.contains ":" (Offset.piece off p ++ rest) = true.
Proof.
  unfold Offset.piece. rewrite append_assoc.
  apply contains_suffix. cbn [String.append].
  now rewrite contains_char_cons.
Qed.

Lemma sublabel_refs_pieces (off : Z) (pairs : list (string * Z)) :
  Forall (fun p => Py.contains ":" (fst p) = false) pairs ->
  exists refs,
    TsvStream.sublabel_refs (map (Offset.piece off) pairs) = Some refs.
Proof.
  induction 1 as [|p pairs Hp _ [refs IH]]; [now exists []|].
  cbn [map TsvStream.sublabel_refs].
  rewrite (piece_split off p Hp), int_str_any, IH. eauto.
Qed.

Lemma combine_fst_forall {A B : Type} (P : A -> Prop) (l : list A) (l' : list B) :
  Forall P l -> Forall (fun p => P (fst p)) (combine l l').
Proof.
  intros H. revert l'. induction H as [|a l Ha _ IH]; intros l'; [constructor|].
  destruct l' as [|b l']; [constructor|].
  cbn [combine]. constructor; [exact Ha | apply IH].
Qed.

(** The label of a simplified row is read by [get_annotations] when the
    label it was made from has no colon. *)
Lemma label_refs_pieces (label : string) categories ids (off : Z) :
  Tsv.process_compound_label label = Some (categories, ids) ->
  Py.contains ":" label = false ->
  exists refs,
    TsvStream.label_refs
      (Py.join "|" (map (Offset.piece off) (combine categories ids)))
    = Some refs.
Proof.
  intros P Hcolon.
  destruct (process_compound_label_lengths _ _ _ P) as [Hlen Hne].
  pose proof (categories_free ":" label _ _ P (or_introl Hcolon)) as Hc.
  pose proof (categories_free "|" label _ _ P (or_intror eq_refl)) as Hp.
  unfold TsvStream.label_refs.
  destruct (String.eqb _ "_"); [now exists []|].
  destruct (Py.contains "-1" _) eqn:Hs.
  - destruct ids as [|i ids]; [congruence|].
    destruct categories as [|c cs]; [discriminate|].
    assert (Hhas : Py.contains ":"
                     (Py.join "|" (map (Offset.piece off)
                                     (combine (c :: cs) (i :: ids)))) = true).
    { cbn [combine map Py.join].
      destruct (map (Offset.piece off) (combine cs ids)).
      - rewrite <- (append_nil_r (Offset.piece off (c, i))).
        apply piece_colon.
      - apply piece_colon. }
    rewrite contains_char_index in Hhas.
    destruct (Py.index ":" _) as [colon|]; [eauto | discriminate].
  - rewrite split_join.
    + apply sublabel_refs_pieces.
      exact (combine_fst_forall (fun s => Py.contains ":" s = false) _ _ Hc).
    + destruct ids as [|i ids]; [congruence|].
      destruct categories as [|c cs]; discriminate.
    + apply pieces_free; [exact Hp | reflexivity..].
Qed.

Lemma stream_of_made (tsv_rows out : list string) :
  Forall2 Simplified.made_from tsv_rows out ->
  (forall row sent_num token label,
     In row tsv_rows ->
     Tsv.row_fields row = Some (sent_num, token, label) ->
     Py.contains ":" label = false) ->
  forall i, exists events,
    TsvStream.stream_from (map (Py.split (ascii_of_nat 9)) out) 2 i
    = Some events.
Proof.
  induction 1 as [|row o rows outs Hm _ IH]; intros Hcolon i; [now exists []|].
  destruct (IH (fun r sn tk lb Hin => Hcolon r sn tk lb (or_intror Hin)) (i + 1))
    as [events Hevents].
  destruct Hm as (sn & tk & lb & Hf & Hcase).
  cbn [map TsvStream.stream_from].
  destruct Hcase as [[_ ->]|(_ & cs & ids & off & P & ->)].
  - change (Py.item [sn; tk; "_"] 2) with (Some "_"). cbv beta iota.
    change (Py.contains "*" "_") with false.
    change (TsvStream.label_refs "_")
      with (Some (@nil (Span.ref string))).
    cbv beta iota. rewrite Hevents. eauto.
  - match goal with
    | |- context [Py.item [sn; tk; ?x] 2] =>
        change (Py.item [sn; tk; x] 2) with (Some x)
    end.
    cbv beta iota. destruct (Py.contains "*" _); [now exists []|].
    destruct (label_refs_pieces lb cs ids off P
                (Hcolon row sn tk lb (or_introl eq_refl) Hf)) as [refs ->].
    rewrite Hevents. eauto.
Qed.

(** X14.  The two halves of the pipeline fit together: when no label of the
    sentence contains a colon, [get_annotations], with the annotation
    column 2, returns a result on the cells of the simplified rows that
    [process_sentence] returns. *)
Theorem get_annotations_accepts_simplified (tsv_rows out : list string) :
  Tsv.process_sentence tsv_rows = Some out ->
  (forall row sent_num token label,
     In row tsv_rows ->
     Tsv.row_fields row = Some (sent_num, token, label) ->
     Py.contains ":" label = false) ->
  exists spans,
    Tsv.get_annotations (map (Py.split (ascii_of_nat 9)) out) 2 = Some spans.
Proof.
  intros H Hcolon.
  destruct (simplified_rows_cells _ _ H) as [Hmade _].
  destruct (stream_of_made _ _ Hmade Hcolon 0) as [events Hevents].
  rewrite tsv_get_annotations_aggregate. unfold TsvStream.stream.
  rewrite Hevents. cbn [option_map]. eauto.
Qed.

Lemma get_annotations_accepts_simplified_witness :
  Tsv.process_sentence Sample.quoted
  = Some [Sample.row ["3"; "The"; "_"];
          Sample.row ["3"; "term"; "Quote:1|Cue:-1"];
          Sample.row ["3"; "is"; "Quote:1|Term:3"]]
  /\ exists spans,
       Tsv.get_annotations
         [["3"; "The"; "_"]; ["3"; "term"; "Quote:1|Cue:-1"];
          ["3"; "is"; "Quote:1|Term:3"]] 2 = Some spans.
Proof.
  split; [reflexivity|].
  refine (get_annotations_accepts_simplified Sample.quoted _ eq_refl _).
  intros row sn tk lb Hin Hf. simpl in Hin.
  repeat destruct Hin as [<-|Hin]; try destruct Hin;
    vm_compute in Hf; injection Hf as <- <- <-; reflexivity.
Defined.

End Pipeline.

(** ** The token indices of the spans *)

Section SpanIndices.

Context {K : Type}.
Variable eqb : K -> K -> bool.
Hypothesis eqb_eq : forall a b, eqb a b = true <-> a = b.
Variable P : Z -> Prop.

Lemma occurrences_indices (k : K) (events : list (Span.event K)) :
  Forall P (map fst events) ->
  Forall P (map fst (Span.occurrences eqb k events)).
Proof.
  induction events as [|[i [c|k' c]] events IH]; intros H.
  - constructor.
  - inversion H; subst. now apply IH.
  - inversion H; subst. unfold Span.occurrences. cbn [flat_map].
    destruct (eqb k' k); cbn [app map fst].
    + constructor; [assumption | now apply IH].
    + now apply IH.
Qed.

Lemma last_indices (l : list Z) (d : Z) : P d -> Forall P l -> P (last l d).
Proof.
  intros Hd H. induction H as [|a l Ha _ IH]; [exact Hd|].
  destruct l as [|b l]; [exact Ha | exact IH].
Qed.

(** The start and the end of every span are token indices of the stream. *)
Lemma two_phase_indices (events : list (Span.event K)) :
  Forall P (map fst events) ->
  Forall (fun e : Tsv.entry => P (snd (fst e)) /\ P (snd e))
    (Span.two_phase eqb events).
Proof.
  intros H. unfold Span.two_phase. apply Forall_app. split.
  - unfold Span.standalone_spans.
    induction events as [|[i [c|k c]] events IH]; cbn [flat_map app].
    + constructor.
    + inversion H; subst. constructor; [now split | now apply IH].
    + inversion H; subst. now apply IH.
  - unfold Span.grouped_spans. apply Forall_forall. intros e He.
    apply in_map_iff in He as (k & <- & Hk).
    apply (proj1 (first_occurrences_In eqb eqb_eq _ _)) in Hk.
    pose proof (occurrences_present eqb eqb_eq k events Hk) as Hne.
    pose proof (occurrences_indices k events H) as Ho.
    unfold Span.group_span.
    destruct (Span.occurrences eqb k events) as [|[i c] later]; [congruence|].
    cbn [map fst] in Ho. inversion Ho; subst. cbn [fst snd].
    split; [assumption | now apply last_indices].
Qed.

End SpanIndices.

Section SpanBounds.

Lemma tsv_stream_bounds (sentence : list (list string)) (col : Z) :
  forall i events,
  TsvStream.stream_from sentence col i = Some events ->
  Forall (fun j => i <= j < i + Z.of_nat (List.length sentence))
    (map fst events).
Proof.
  induction sentence as [|token rest IH]; intros i events H.
  - injection H as <-. constructor.
  - cbn [TsvStream.stream_from] in H.
    destruct (Py.item token col) as [label|]; [|discriminate].
    destruct (Py.contains "*" label).
    { injection H as <-. constructor. }
    destruct (TsvStream.label_refs label) as [refs|]; [|discriminate].
    destruct (TsvStream.stream_from rest col (i + 1)) as [later|] eqn:E;
      [|discriminate].
    injection H as <-. specialize (IH _ _ E).
    rewrite map_app. apply Forall_app. split.
    + assert (Hi : Forall (fun j => j = i) (map fst (map (pair i) refs)))
        by exact (indices_of_token i (fun r : Span.ref string => r) refs).
      eapply Forall_impl; [|exact Hi]. cbv beta. intros j ->.
      cbn [List.length]. lia.
    + eapply Forall_impl; [|exact IH]. cbv beta. intros j Hj.
      cbn [List.length]. lia.
Qed.

(** X15.  The spans that [get_annotations] returns lie within the
    sentence: 0 <= start <= end < len(sentence). *)
Theorem get_annotations_bounds (sentence : list (list string)) (col : Z)
    (spans : list Tsv.entry) :
  Tsv.get_annotations sentence col = Some spans ->
  Forall (fun e : Tsv.entry =>
            0 <= snd (fst e)
            /\ snd (fst e) <= snd e
            /\ snd e < Z.of_nat (List.length sentence)) spans.
Proof.
  intros H. rewrite tsv_get_annotations_two_phase in H.
  destruct (TsvStream.stream sentence col) as [events|] eqn:E; [|discriminate].
  injection H as <-.
  pose proof (two_phase_ordered String.eqb events
                (proj1 (tsv_stream_sorted _ _ _ _ E))) as Hord.
  pose proof (two_phase_indices String.eqb string_eqb_eq _ events
                (tsv_stream_bounds _ _ _ _ E)) as Hidx.
  rewrite Forall_forall in *. intros [[c s] e] He.
  specialize (Hord _ He). specialize (Hidx _ He).
  cbn [fst snd Span.ordered] in *. lia.
Qed.

Lemma get_annotations_bounds_witness :
  Tsv.get_annotations Sample.cue_quote_rows 2
  = Some [("Cue", 0, 0); ("Cue", 3, 3); ("Quote", 1, 2)]
  /\ Forall (fun e : Tsv.entry =>
               0 <= snd (fst e)
               /\ snd (fst e) <= snd e
               /\ snd e < Z.of_nat (List.length Sample.cue_quote_rows))
       [("Cue", 0, 0); ("Cue", 3, 3); ("Quote", 1, 2)].
Proof.
  split; [reflexivity|].
  exact (get_annotations_bounds Sample.cue_quote_rows 2 _ eq_refl).
Defined.

Lemma doc_stream_indices (annotator : string) (tokens : list Doc.Token) :
  Forall (fun j => exists token,
            In token tokens /\ Doc.t_id token = j
            /\ Render.on_token annotator token <> [])
    (map fst (flat_map (DocStream.token_events annotator) tokens)).
Proof.
  induction tokens as [|token tokens IH]; [constructor|].
  cbn [flat_map]. rewrite map_app. apply Forall_app. split.
  - unfold DocStream.token_events.
    fold (Render.on_token annotator token).
    destruct (Render.on_token annotator token) as [|ta tas] eqn:E;
      [constructor|].
    rewrite map_map. cbn [fst]. apply Forall_forall. intros j Hj.
    apply in_map_iff in Hj as (x & <- & _).
    exists token. split; [now left|]. split; [reflexivity|].
    rewrite E. discriminate.
  - eapply Forall_impl; [|exact IH]. cbv beta.
    intros j (t & Hin & Hid & Hne). exists t. split; [now right | auto].
Qed.

(** X16.  The start and the end of every [Annotation] that
    [Sentence.get_annotations] returns are ids of tokens of the sentence
    that carry an annotation of the annotator; no index is made up. *)
Theorem doc_get_annotations_indices (self : Doc.Sentence) (annotator : string) :
  Forall (fun a =>
            (exists token, In token (Doc.s_tokens self)
                           /\ Doc.t_id token = Doc.a_start a
                           /\ Render.on_token annotator token <> [])
            /\ (exists token, In token (Doc.s_tokens self)
                              /\ Doc.t_id token = Doc.a_end a
                              /\ Render.on_token annotator token <> []))
    (Doc.get_annotations self annotator).
Proof.
  pose proof (two_phase_indices Z.eqb Z.eqb_eq _ _
                (doc_stream_indices annotator (Doc.s_tokens self))) as H.
  fold (DocStream.stream self annotator) in H.
  rewrite <- doc_get_annotations_triples, Forall_map in H.
  eapply Forall_impl; [|exact H]. intros a Ha. exact Ha.
Qed.

(** X17.  [Sentence.get_annotations] builds its [Annotation] objects
    without an annotator: every one it returns has the default annotator,
    the empty string, whatever the annotator asked for. *)
Theorem doc_get_annotations_annotator (self : Doc.Sentence) (annotator : string) :
  Forall (fun a => Doc.a_annotator a = EmptyString)
    (Doc.get_annotations self annotator).
Proof.
  rewrite doc_get_annotations_aggregate. apply Forall_map.
  apply Forall_forall. now intros [[c s] e] _.
Qed.

Lemma stream_nil (self : Doc.Sentence) (annotator : string) :
  Render.mine self annotator = [] -> DocStream.stream self annotator = [].
Proof.
  unfold Render.mine, DocStream.stream.
  induction (Doc.s_tokens self) as [|token tokens IH]; [reflexivity|].
  cbn [flat_map]. intros H. apply app_eq_nil in H as [H1 H2].
  unfold DocStream.token_events. rewrite H1. now apply IH.
Qed.

(** X18.  For an annotator without annotation in the sentence,
    [Sentence.get_annotations] returns the empty list. *)
Theorem doc_get_annotations_unknown (self : Doc.Sentence) (annotator : string) :
  (forall token ta,
     In token (Doc.s_tokens self) -> In ta (Doc.t_annotations token) ->
     Doc.ta_annotator ta <> annotator) ->
  Doc.get_annotations self annotator = [].
Proof.
  intros H. rewrite doc_get_annotations_aggregate, stream_nil; [reflexivity|].
  unfold Render.mine.
  destruct (flat_map _ (Doc.s_tokens self)) as [|ta tas] eqn:E; [reflexivity|].
  assert (Hin : In ta (flat_map
                         (fun token => filter (DocStream.by_annotator annotator)
                                         (Doc.t_annotations token))
                         (Doc.s_tokens self)))
    by (rewrite E; now left).
  apply in_flat_map in Hin as (token & Ht & Hta).
  apply filter_In in Hta as [Hta Hby].
  unfold DocStream.by_annotator in Hby. apply String.eqb_eq in Hby.
  now elim (H token ta Ht Hta).
Qed.

Lemma doc_get_annotations_unknown_witness :
  Doc.get_annotations Sample.cue_quote "bob" = [].
Proof.
  refine (doc_get_annotations_unknown Sample.cue_quote "bob" _).
  intros token ta Ht Hta. simpl in Ht.
  repeat destruct Ht as [<-|Ht]; try destruct Ht;
    simpl in Hta; destruct Hta as [<-|[]]; discriminate.
Defined.

(** X19.  [Sentence.append] adds one token at the end; when the token has
    no annotation of the annotator, [get_annotations] returns what it
    returned before. *)
Theorem append_without_annotation (self : Doc.Sentence) (token : Doc.Token)
    (annotator : string) :
  Render.on_token annotator token = [] ->
  DocOps.len (DocOps.append self token) = DocOps.len self + 1
  /\ Doc.get_annotations (DocOps.append self token) annotator
     = Doc.get_annotations self annotator.
Proof.
  intros H. split.
  - unfold DocOps.len, DocOps.append. cbn [Doc.s_tokens].
    rewrite length_app. cbn [List.length]. lia.
  - rewrite !doc_get_annotations_aggregate. f_equal. f_equal.
    unfold DocStream.stream, DocOps.append. cbn [Doc.s_tokens].
    rewrite flat_map_app. cbn [flat_map]. unfold DocStream.token_events at 2.
    fold (Render.on_token annotator token). rewrite H.
    cbn [map]. now rewrite !app_nil_r.
Qed.

Lemma append_without_annotation_witness :
  Render.on_token "alice"
    (Doc.mkToken "said" 1 [Doc.mkTokenAnnotation "Quote" 7 "bob"]) = []
  /\ Doc.get_annotations
       (DocOps.append Sample.alice_only
          (Doc.mkToken "said" 1 [Doc.mkTokenAnnotation "Quote" 7 "bob"]))
       "alice"
     = Doc.get_annotations Sample.alice_only "alice".
Proof.
  split; [reflexivity|].
  exact (proj2 (append_without_annotation Sample.alice_only
                  (Doc.mkToken "said" 1 [Doc.mkTokenAnnotation "Quote" 7 "bob"])
                  "alice" eq_refl)).
Defined.

Lemma categories_loop_spec (tas : list Doc.TokenAnnotation) :
  forall categories,
  NoDup categories ->
  NoDup (DocOps.categories_loop tas categories)
  /\ forall c, In c (DocOps.categories_loop tas categories)
               <-> In c categories \/ In c (map Doc.ta_category tas).
Proof.
  induction tas as [|ta tas IH]; intros categories Hnd.
  - cbn [DocOps.categories_loop map]. split; [exact Hnd|].
    intros c. split; [now left | now intros [H|[]]].
  - cbn [DocOps.categories_loop map].
    destruct (IH _ (set_add_nodup string_dec (Doc.ta_category ta) Hnd))
      as [Hnd' Hin].
    split; [exact Hnd'|]. intros c. rewrite Hin, set_add_iff.
    cbn [In]. split; [intros [[->|H]|H] | intros [H|[->|H]]]; auto.
Qed.

(** X20.  [Token.get_categories] returns each category of the token's
    annotations once, and nothing else. *)
Theorem get_categories_spec (self : Doc.Token) :
  NoDup (DocOps.get_categories self)
  /\ forall c, In c (DocOps.get_categories self)
               <-> exists ta, In ta (Doc.t_annotations self)
                              /\ Doc.ta_category ta = c.
Proof.
  destruct (categories_loop_spec (Doc.t_annotations self) [] (NoDup_nil _))
    as [Hnd Hin].
  split; [exact Hnd|]. intros c. unfold DocOps.get_categories.
  rewrite Hin, in_map_iff. split.
  - intros [[]|(ta & Hc & Hta)]. now exists ta.
  - intros (ta & Hta & Hc). right. now exists ta.
Qed.

End SpanBounds.

(** ** How many spans *)

Section SpanCount.

Lemma first_occurrences_length (ks : list Z) :
  List.length (Span.first_occurrences Z.eqb ks)
  = List.length (nodup Z.eq_dec ks).
Proof.
  apply Nat.le_antisymm; apply NoDup_incl_length.
  - apply first_occurrences_NoDup. exact Z.eqb_eq.
  - intros k Hk. apply nodup_In.
    now apply (proj1 (first_occurrences_In Z.eqb Z.eqb_eq _ _)).
  - apply NoDup_nodup.
  - intros k Hk. apply nodup_In in Hk.
    now apply (proj2 (first_occurrences_In Z.eqb Z.eqb_eq _ _)).
Qed.

Lemma standalone_spans_app {K : Type} (e1 e2 : list (Span.event K)) :
  Span.standalone_spans (e1 ++ e2)
  = Span.standalone_spans e1 ++ Span.standalone_spans e2.
Proof. apply flat_map_app. Qed.

Lemma grouped_keys_app {K : Type} (e1 e2 : list (Span.event K)) :
  Span.grouped_keys (e1 ++ e2) = Span.grouped_keys e1 ++ Span.grouped_keys e2.
Proof. apply flat_map_app. Qed.

Lemma token_counts (i : Z) (tas : list Doc.TokenAnnotation) :
  List.length (Span.standalone_spans
                 (map (fun ta => (i, DocStream.ref_of ta)) tas))
  = List.length (filter (fun ta => Doc.ta_id ta =? -1) tas)
  /\ Span.grouped_keys (map (fun ta => (i, DocStream.ref_of ta)) tas)
     = map Doc.ta_id (filter (fun ta => negb (Doc.ta_id ta =? -1)) tas).
Proof.
  induction tas as [|ta tas [IH1 IH2]]; [split; reflexivity|].
  unfold Span.standalone_spans, Span.grouped_keys, DocStream.ref_of in *.
  cbn [map filter flat_map].
  destruct (Doc.ta_id ta =? -1); cbn [negb app List.length map];
    rewrite IH1, IH2; split; reflexivity.
Qed.

Lemma doc_stream_counts (annotator : string) (tokens : list Doc.Token) :
  List.length (Span.standalone_spans
                 (flat_map (DocStream.token_events annotator) tokens))
  = List.length
      (filter (fun ta => Doc.ta_id ta =? -1)
         (flat_map (Render.on_token annotator) tokens))
  /\ Span.grouped_keys (flat_map (DocStream.token_events annotator) tokens)
     = map Doc.ta_id
         (filter (fun ta => negb (Doc.ta_id ta =? -1))
            (flat_map (Render.on_token annotator) tokens)).
Proof.
  induction tokens as [|token tokens [IH1 IH2]]; [split; reflexivity|].
  cbn [flat_map].
  rewrite standalone_spans_app, grouped_keys_app, !filter_app, length_app,
    map_app, length_app, IH1, IH2.
  destruct (token_counts (Doc.t_id token) (Render.on_token annotator token))
    as [H1 H2].
  unfold DocStream.token_events. fold (Render.on_token annotator token).
  now rewrite H1, H2.
Qed.

(** X21.  [Sentence.get_annotations] returns one [Annotation] for each
    annotation of the annotator with the id -1 and one for each distinct
    other id of the annotator, however many tokens carry it. *)
Theorem doc_get_annotations_count (self : Doc.Sentence) (annotator : string) :
  List.length (Doc.get_annotations self annotator)
  = Nat.add
      (List.length
         (filter (fun ta => Doc.ta_id ta =? -1) (Render.mine self annotator)))
      (List.length
         (nodup Z.eq_dec
            (map Doc.ta_id
               (filter (fun ta => negb (Doc.ta_id ta =? -1))
                  (Render.mine self annotator))))).
Proof.
  rewrite <- (length_map DocStream.triple), doc_get_annotations_triples.
  unfold Span.two_phase, Span.grouped_spans, DocStream.stream, Render.mine.
  rewrite length_app, length_map, first_occurrences_length.
  destruct (doc_stream_counts annotator (Doc.s_tokens self)) as [H1 H2].
  unfold Render.on_token in H1, H2. now rewrite H1, H2.
Qed.

End SpanCount.

(** ** Renumbering does not depend on the document *)

Section ShiftInvariance.

Lemma shifted_piece (k off : Z) (p1 p2 : string * Z) :
  Shift.reference k p1 p2 ->
  Offset.piece off p1 = Offset.piece (off + k) p2.
Proof.
  intros [Hc [[H1 H2]|(H1 & H2 & H3)]]; unfold Offset.piece, Offset.local_id;
    rewrite Hc.
  - now rewrite H1, H2.
  - apply Z.eqb_neq in H1, H2. rewrite H1, H2, H3. do 3 f_equal. lia.
Qed.

Lemma shifted_simplified (k off : Z) (r1 r2 : Offset.row) :
  Shift.row k r1 r2 ->
  Offset.simplified off r1 = Offset.simplified (off + k) r2.
Proof.
  intros (Hs & Ht & Ha & Hr). unfold Offset.simplified.
  rewrite Hs, Ht, Ha. do 4 f_equal.
  destruct (Offset.annotated r2); [|reflexivity]. f_equal.
  induction Hr as [|p1 p2 l1 l2 Hp _ IH]; [reflexivity|].
  cbn [map]. now rewrite (shifted_piece k off p1 p2 Hp), IH.
Qed.

Lemma shifted_first_id (k : Z) (rows1 rows2 : list Offset.row) (id : Z) :
  Forall2 (Shift.row k) rows1 rows2 ->
  Offset.first_id rows1 = Some id -> id <> -1 ->
  Offset.first_id rows2 = Some (id + k).
Proof.
  unfold Offset.first_id.
  induction 1 as [|r1 r2 l1 l2 Hr _ IH]; intros H Hid; [discriminate|].
  destruct Hr as (_ & _ & Ha & Hrefs). cbn [find] in *. rewrite <- Ha.
  destruct (Offset.annotated r1); [|now apply IH].
  destruct Hrefs as [|p1 p2 ps1 ps2 Hp _]; [discriminate|].
  cbn [hd_error option_map] in *. injection H as H.
  destruct Hp as [_ [[H1 _]|(_ & _ & H3)]]; [congruence|].
  now rewrite H3, H.
Qed.

(** X22.  The simplified rows do not depend on where the sentence stands in
    the document: two sentences that differ only by a constant added to
    their ids other than the sentinel have the same simplified rows, when
    the first label other than [_] starts with such an id. *)
Theorem process_sentence_shift (k : Z) (tsv_rows1 tsv_rows2 : list string)
    (rows1 rows2 : list Offset.row) (id : Z) :
  Offset.parse_rows tsv_rows1 = Some rows1 ->
  Offset.parse_rows tsv_rows2 = Some rows2 ->
  Offset.ids_in_model rows1 -> Offset.ids_in_model rows2 ->
  Forall2 (Shift.row k) rows1 rows2 ->
  Offset.first_id rows1 = Some id -> id <> -1 ->
  Tsv.process_sentence tsv_rows1 = Tsv.process_sentence tsv_rows2.
Proof.
  intros HP1 HP2 Hm1 Hm2 HF Hfirst Hid.
  pose proof (shifted_first_id k _ _ _ HF Hfirst Hid) as Hfirst2.
  unfold Tsv.process_sentence.
  rewrite (sentence_loop_unset tsv_rows1 rows1 [] HP1).
  2:{ intros H. apply (first_id_in_model _ _ Hm1) in H.
      unfold Tsv.UNSET in H. lia. }
  rewrite (sentence_loop_unset tsv_rows2 rows2 [] HP2).
  2:{ intros H. apply (first_id_in_model _ _ Hm2) in H.
      unfold Tsv.UNSET in H. lia. }
  unfold Offset.offset. rewrite Hfirst, Hfirst2. cbn [app]. f_equal.
  replace (id + k - 1) with (id - 1 + k) by lia.
  clear -HF. induction HF as [|r1 r2 l1 l2 Hr _ IH]; [reflexivity|].
  cbn [map]. now rewrite (shifted_simplified k (id - 1) r1 r2 Hr), IH.
Qed.

Lemma process_sentence_shift_witness :
  Offset.parse_rows Shift.quoted_later = Some Shift.quoted_later_rows
  /\ Forall2 (Shift.row 77) Sample.quoted_rows Shift.quoted_later_rows
  /\ Tsv.process_sentence Sample.quoted
     = Tsv.process_sentence Shift.quoted_later.
Proof.
  assert (HF : Forall2 (Shift.row 77) Sample.quoted_rows Shift.quoted_later_rows).
  { constructor; [repeat split; constructor|].
    constructor.
    { repeat split.
      constructor; [split; [reflexivity | right; repeat split; discriminate]|].
      constructor; [split; [reflexivity | left; split; reflexivity]|].
      constructor. }
    constructor; [|constructor].
    repeat split.
    constructor; [split; [reflexivity | right; repeat split; discriminate]|].
    constructor; [split; [reflexivity | right; repeat split; discriminate]|].
    constructor. }
  split; [reflexivity|]. split; [exact HF|].
  refine (process_sentence_shift 77 Sample.quoted Shift.quoted_later
            Sample.quoted_rows Shift.quoted_later_rows 5
            eq_refl eq_refl _ _ HF eq_refl _).
  - repeat constructor; discriminate.
  - repeat constructor; discriminate.
  - discriminate.
Defined.

End ShiftInvariance.

(** ** When [get_annotations] raises *)

Section UnreadableLabels.

Lemma sublabel_refs_raises (token_annotations : list string) :
  TsvStream.sublabel_refs token_annotations = None <->
  exists annotation,
    In annotation token_annotations /\ Unreadable.sublabel annotation.
Proof.
  induction token_annotations as [|annotation rest IH].
  - simpl. split; [discriminate | intros (? & [] & _)].
  - cbn [TsvStream.sublabel_refs]. unfold Unreadable.sublabel at 1.
    assert (Hrest : TsvStream.sublabel_refs rest = None ->
                    exists a, In a (annotation :: rest) /\ Unreadable.sublabel a).
    { intros H. apply IH in H as (a & Hin & Ha). exists a. split; [now right | exact Ha]. }
    assert (Hbad : Unreadable.sublabel annotation ->
                   exists a, In a (annotation :: rest) /\ Unreadable.sublabel a)
      by (intros H; exists annotation; split; [now left | exact H]).
    unfold Unreadable.sublabel in Hbad.
    destruct (Py.split ":" annotation) as [|category [|index [|x xs]]] eqn:E;
      try (split; [intros _; now apply Hbad | reflexivity]).
    destruct (Py.int index) as [n|] eqn:En;
      [|split; [intros _; apply Hbad; now apply int_raises | reflexivity]].
    destruct (TsvStream.sublabel_refs rest) as [refs|] eqn:Er.
    + split; [discriminate|].
      intros (a & [<-|Hin] & Ha).
      * unfold Unreadable.sublabel in Ha. rewrite E in Ha.
        elim Ha. exact (int_only_accepts index n En).
      * assert (H : Some refs = None) by (apply IH; now exists a).
        discriminate H.
    + split; [intros _; now apply Hrest | reflexivity].
Qed.

Lemma label_refs_raises (l : string) :
  TsvStream.label_refs l = None <-> Unreadable.label l.
Proof.
  unfold TsvStream.label_refs, Unreadable.label.
  destruct (String.eqb l "_").
  - split; [discriminate | intros [H _]; discriminate H].
  - destruct (Py.contains "-1" l).
    + destruct (Py.index ":" l) as [colon|].
      * split; [discriminate|].
        intros [_ [[_ H]|[H _]]]; discriminate H.
      * split; [intros _ | reflexivity]. split; [reflexivity|]. now left.
    + rewrite sublabel_refs_raises. split.
      * intros H. split; [reflexivity|]. right. now split.
      * intros [_ [[H _]|[_ H]]]; [discriminate H | exact H].
Qed.

Lemma stream_from_raises (sentence : list (list string)) (col : Z) :
  forall i,
  TsvStream.stream_from sentence col i = None <->
  exists pre token post,
    sentence = pre ++ token :: post
    /\ TsvStream.has_marker pre col = false
    /\ Unreadable.token col token.
Proof.
  induction sentence as [|t rest IH]; intros i.
  - simpl. split; [discriminate|].
    intros (pre & token & post & H & _). now destruct pre.
  - cbn [TsvStream.stream_from].
    assert (Hlater : forall label,
               Py.item t col = Some label -> Py.contains "*" label = false ->
               (exists pre token post,
                   rest = pre ++ token :: post
                   /\ TsvStream.has_marker pre col = false
                   /\ Unreadable.token col token) ->
               exists pre token post,
                 t :: rest = pre ++ token :: post
                 /\ TsvStream.has_marker pre col = false
                 /\ Unreadable.token col token).
    { intros label Hitem Hstar (pre & token & post & -> & Hm & Hu).
      exists (t :: pre), token, post. split; [reflexivity|].
      split; [|exact Hu]. cbn [TsvStream.has_marker existsb].
      unfold TsvStream.marked. now rewrite Hitem, Hstar. }
    assert (Hhere : Unreadable.token col t ->
               exists pre token post,
                 t :: rest = pre ++ token :: post
                 /\ TsvStream.has_marker pre col = false
                 /\ Unreadable.token col token)
      by (intros H; exists [], t, rest; auto).
    assert (Hinv : forall pre token post,
               t :: rest = pre ++ token :: post ->
               TsvStream.has_marker pre col = false ->
               Unreadable.token col token ->
               Unreadable.token col t
               \/ (TsvStream.marked col t = false
                   /\ exists pre' , rest = pre' ++ token :: post
                                    /\ TsvStream.has_marker pre' col = false)).
    { intros pre token post Heq Hm Hu. destruct pre as [|t' pre].
      - injection Heq as <- <-. now left.
      - injection Heq as <- ->. right.
        cbn [TsvStream.has_marker existsb] in Hm.
        apply orb_false_iff in Hm as [Ht Hm]. eauto. }
    destruct (Py.item t col) as [label|] eqn:Hitem.
    + destruct (Py.contains "*" label) eqn:Hstar.
      * split; [discriminate|].
        intros (pre & token & post & Heq & Hm & Hu).
        destruct (Hinv _ _ _ Heq Hm Hu) as [[H|(l & H & Hs & _)]|[Ht _]].
        -- congruence.
        -- congruence.
        -- unfold TsvStream.marked in Ht. rewrite Hitem in Ht. congruence.
      * destruct (TsvStream.label_refs label) as [refs|] eqn:Hrefs.
        -- destruct (TsvStream.stream_from rest col (i + 1)) as [events|] eqn:E.
           ++ split; [discriminate|].
              intros (pre & token & post & Heq & Hm & Hu).
              destruct (Hinv _ _ _ Heq Hm Hu)
                as [[H|(l & H & _ & Hl)]|[_ (pre' & Hr & Hm')]].
              ** congruence.
              ** apply label_refs_raises in Hl. congruence.
              ** assert (H : TsvStream.stream_from rest col (i + 1) = None).
                 { apply (IH (i + 1)). exists pre', token, post. auto. }
                 congruence.
           ++ split; [intros _ | reflexivity].
              apply (Hlater label eq_refl Hstar). now apply (IH (i + 1)).
        -- split; [intros _ | reflexivity].
           apply Hhere. right. exists label.
           split; [exact Hitem|]. split; [exact Hstar|].
           now apply label_refs_raises.
    + split; [intros _ | reflexivity]. apply Hhere. now left.
Qed.

(** X23.  [get_annotations] raises exactly when, before any token with the
    marker, some token has no annotation column or has a label that cannot
    be read: a label with [-1] but no colon, or a label without [-1] one of
    whose sub-labels is not a category and an integer around one colon. *)
Theorem get_annotations_raises (sentence : list (list string)) (col : Z) :
  Tsv.get_annotations sentence col = None <->
  exists pre token post,
    sentence = pre ++ token :: post
    /\ TsvStream.has_marker pre col = false
    /\ Unreadable.token col token.
Proof.
  rewrite tsv_get_annotations_aggregate. unfold TsvStream.stream.
  rewrite <- (stream_from_raises sentence col 0).
  destruct (TsvStream.stream_from sentence col 0);
    split; intros H; (discriminate H || reflexivity).
Qed.

End UnreadableLabels.

(** ** The order of the spans of rendered rows *)

Section RowOrder.

(** X24.  When the rows carry, token by token, the references of one
    annotator of a [Sentence] whose tokens have the ids 0 .. N-1, the
    categories have no special character, the ids are the sentinel or
    non-negative and no token combines a standalone reference with other
    references, [get_annotations] returns one span per standalone
    reference, in scan order, followed by one span per reference text
    [category:id], in the order in which the texts first occur, from the
    first to the last token that carries the text. *)
Theorem get_annotations_order_unmixed (annotator : string)
    (sentence : list (list string)) (col : Z) (self : Doc.Sentence) :
  Render.equivalent sentence col self annotator ->
  DocStream.positional self ->
  Forall Render.well_formed (Render.mine self annotator) ->
  Forall (fun t => Render.unmixed (Render.on_token annotator t))
    (Doc.s_tokens self) ->
  Tsv.get_annotations sentence col
  = Some (Span.two_phase String.eqb
            (Render.row_events annotator (Doc.s_tokens self))).
Proof.
  intros Heq Hpos Hwf Hun.
  destruct (stream_of_rows annotator col sentence (Doc.s_tokens self) 0
              Heq Hpos (forall_on_tokens annotator _ _ Hwf) Hun)
    as [_ Hstream].
  rewrite tsv_get_annotations_two_phase. unfold TsvStream.stream.
  change (Z.of_nat 0) with 0 in Hstream. rewrite Hstream.
  reflexivity.
Qed.

(** On the rows of the two tokens that reuse the id 3 with the categories
    [A] and [B], the texts [A:3] and [B:3] give one span each. *)
Lemma get_annotations_order_unmixed_witness :
  Render.equivalent Sample.shared_id_rows 2 Sample.shared_id "alice"
  /\ Tsv.get_annotations Sample.shared_id_rows 2
     = Some [("A", 0, 0); ("B", 1, 1)].
Proof.
  assert (Heq : Render.equivalent Sample.shared_id_rows 2
                  Sample.shared_id "alice")
    by (repeat constructor).
  split; [exact Heq|].
  refine (get_annotations_order_unmixed "alice" Sample.shared_id_rows 2
            Sample.shared_id Heq eq_refl _ _).
  - constructor; [split; [reflexivity | discriminate]|].
    constructor; [split; [reflexivity | discriminate]|].
    constructor.
  - constructor; [right; constructor; [discriminate | constructor]|].
    constructor; [right; constructor; [discriminate | constructor]|].
    constructor.
Defined.

End RowOrder.
